(** * Invoice extraction pipeline: a shallow embedding and its properties

    The development follows [src/app/data_extractor.py],
    [src/app/pdf_processor.py], [src/app/main.py] and [src/app/ml_model.py].

    Python values are modelled as the code has them:
    - a [str] is a list of Unicode code points ([pystr]); literal texts are
      written as UTF-8 Rocq strings and decoded with [u];
    - the [re] module is modelled by a backtracking matcher ([rmatch]) over a
      regular-expression syntax tree obtained from the pattern text by
      [re_compile], so that the patterns of the source are kept verbatim;
    - dictionaries whose order matters are association lists of Python
      values ([pyval]);
    - collaborators that live outside the repository (the PDF readers, the
      rasterizer, Tesseract, the optional classifier) are explicit inputs. *)

From Stdlib Require Import String Ascii.
From Stdlib Require Import List NArith ZArith Bool Arith Lia.
From Stdlib Require Import SpecFloat.
Import ListNotations.

Set Implicit Arguments.

(** ** Part I. Python strings *)

Module Py.

Local Open Scope N_scope.

(** A code point. *)
Definition char := N.

(** A Python [str]. *)
Definition pystr := list char.

(** UTF-8 decoding of a byte sequence (well-formed input is assumed, as for
    the literals of this file). *)
Fixpoint utf8 (bs : list N) : pystr :=
  match bs with
  | [] => []
  | b :: t =>
    if (b <? 128)%N then b :: utf8 t
    else if (b <? 224)%N then
      match t with
      | b1 :: t1 => ((b - 192) * 64 + (b1 - 128))%N :: utf8 t1
      | _ => []
      end
    else if (b <? 240)%N then
      match t with
      | b1 :: b2 :: t2 =>
        ((b - 224) * 4096 + (b1 - 128) * 64 + (b2 - 128))%N :: utf8 t2
      | _ => []
      end
    else
      match t with
      | b1 :: b2 :: b3 :: t3 =>
        ((b - 240) * 262144 + (b1 - 128) * 4096 + (b2 - 128) * 64
         + (b3 - 128))%N :: utf8 t3
      | _ => []
      end
  end.

(** [u "text"] is the Python string written [text] in the source. *)
Definition u (s : string) : pystr :=
  utf8 (map N_of_ascii (list_ascii_of_string s)).

(** The double quote, which a Rocq literal cannot hold undoubled. *)
Definition dq : pystr := [34%N].

Definition in_range (lo hi c : char) : bool := ((lo <=? c) && (c <=? hi))%N.

(** [str.isspace] on one character; also the class [\s] of [re]. *)
Definition isspace (c : char) : bool :=
  in_range 9 13 c || in_range 28 32 c || (c =? 133)%N || (c =? 160)%N
  || (c =? 5760)%N || in_range 8192 8202 c || (c =? 8232)%N || (c =? 8233)%N
  || (c =? 8239)%N || (c =? 8287)%N || (c =? 12288)%N.

(** Decimal digits; the model knows the ASCII digits only. *)
Definition isdigit_c (c : char) : bool := in_range 48 57 c.

(** Case mapping, restricted to the Latin and Cyrillic alphabets (the
    alphabets of the patterns and keywords of the source). *)
Definition lower_c (c : char) : char :=
  if in_range 65 90 c then (c + 32)%N
  else if in_range 1040 1071 c then (c + 32)%N
  else if in_range 1024 1039 c then (c + 80)%N
  else c.

Definition upper_c (c : char) : char :=
  if in_range 97 122 c then (c - 32)%N
  else if in_range 1072 1103 c then (c - 32)%N
  else if in_range 1104 1119 c then (c - 80)%N
  else c.

Definition isalpha_c (c : char) : bool :=
  in_range 65 90 c || in_range 97 122 c || in_range 1024 1119 c.

(** [\w] of [re]. *)
Definition isword_c (c : char) : bool :=
  isalpha_c c || isdigit_c c || (c =? 95)%N.

Definition lower (s : pystr) : pystr := map lower_c s.

Fixpoint lstrip (s : pystr) : pystr :=
  match s with
  | c :: t => if isspace c then lstrip t else s
  | [] => []
  end.

Definition rstrip (s : pystr) : pystr := rev (lstrip (rev s)).

(** [s.strip()] *)
Definition strip (s : pystr) : pystr := rstrip (lstrip s).

Fixpoint eqs (a b : pystr) : bool :=
  match a, b with
  | [], [] => true
  | x :: a', y :: b' => (x =? y)%N && eqs a' b'
  | _, _ => false
  end.

Fixpoint startswith (s p : pystr) : bool :=
  match p, s with
  | [], _ => true
  | x :: p', y :: s' => (x =? y)%N && startswith s' p'
  | _ :: _, [] => false
  end.

(** [s.find(sub)], with [None] for Python's [-1]. *)
Fixpoint find_from (i : nat) (s sub : pystr) : option nat :=
  if startswith s sub then Some i
  else match s with
       | [] => None
       | _ :: t => find_from (S i) t sub
       end.

Definition find (s sub : pystr) : option nat := find_from 0%nat s sub.

(** [sub in s] *)
Definition contains (s sub : pystr) : bool :=
  match find s sub with Some _ => true | None => false end.

(** [s.replace(old, new)] for a non-empty [old]. *)
Fixpoint replace_fuel (fuel : nat) (s old new : pystr) : pystr :=
  match fuel with
  | O => s
  | S f =>
    match s with
    | [] => []
    | c :: t =>
      if startswith s old
      then new ++ replace_fuel f (skipn (length old) s) old new
      else c :: replace_fuel f t old new
    end
  end.

Definition replace (s old new : pystr) : pystr :=
  replace_fuel (S (length s)) s old new.

(** [s.count(c)] for a one-character [c]. *)
Definition count_c (s : pystr) (c : char) : nat :=
  length (filter (fun x => (x =? c)%N) s).

(** [s.split(sep)] for a one-character separator. *)
Fixpoint split_c (sep : char) (s : pystr) : list pystr :=
  match s with
  | [] => [[]]
  | c :: t =>
    if (c =? sep)%N then [] :: split_c sep t
    else match split_c sep t with
         | w :: ws => (c :: w) :: ws
         | [] => [[c]]
         end
  end.

(** [s.split()]: the maximal runs of non-blank characters. *)
Fixpoint split_ws_aux (s : pystr) (cur : pystr) : list pystr :=
  match s with
  | [] => match cur with [] => [] | _ => [rev cur] end
  | c :: t =>
    if isspace c
    then match cur with
         | [] => split_ws_aux t []
         | _ => rev cur :: split_ws_aux t []
         end
    else split_ws_aux t (c :: cur)
  end.

Definition split_ws (s : pystr) : list pystr := split_ws_aux s [].

(** [s.isdigit()] *)
Definition isdigit (s : pystr) : bool :=
  match s with [] => false | _ => forallb isdigit_c s end.

(** [s[a:b]] for [0 <= a <= b]. *)
Definition slice (s : pystr) (a b : nat) : pystr :=
  firstn (b - a)%nat (skipn a s).

(** [int(s)] for a string of decimal digits. *)
Definition int_of_digits (s : pystr) : Z :=
  fold_left (fun acc c => (acc * 10 + (Z.of_N c - 48))%Z) s 0%Z.

End Py.

Import Py.

(** ** Part II. The [re] module

    Patterns are parsed from their source text ([re_compile]) and matched by
    a backtracking matcher in continuation-passing style ([rmatch]), which
    explores alternatives in the order of Python's engine: the left branch
    of [|] first, one more iteration first for a greedy repeat, the exit
    first for a lazy one.  The constructs are those the patterns of the
    repository use. *)

Module Re.

Local Open Scope N_scope.

Inductive ccat := CatSpace | CatDigit | CatWord.

(** An item of a bracketed class. *)
Inductive citem :=
| CLit (c : char)
| CRange (lo hi : char)
| CCat (neg : bool) (k : ccat).

Inductive regex :=
| REmpty
| RChar (c : char)
| RAny
| RSet (neg : bool) (items : list citem)
| RCat (a b : regex)
| RAlt (a b : regex)
| RRepeat (lo : nat) (hi : option nat) (greedy : bool) (a : regex)
| RGroup (idx : nat) (a : regex)
| RBol
| REol
| RLook (neg : bool) (a : regex).

Record flags := { IGNORECASE : bool; MULTILINE : bool; DOTALL : bool }.

Definition no_flags := {| IGNORECASE := false; MULTILINE := false; DOTALL := false |}.
Definition fI := {| IGNORECASE := true; MULTILINE := false; DOTALL := false |}.
Definition fIM := {| IGNORECASE := true; MULTILINE := true; DOTALL := false |}.
Definition fIMS := {| IGNORECASE := true; MULTILINE := true; DOTALL := true |}.

Definition cat_match (k : ccat) (c : char) : bool :=
  match k with
  | CatSpace => isspace c
  | CatDigit => isdigit_c c
  | CatWord => isword_c c
  end.

Definition char_eq (ic : bool) (p c : char) : bool :=
  if ic then lower_c p =? lower_c c else p =? c.

(** Under IGNORECASE the subject character is lowered and tested against
    the lowered class, as the engine does. *)
Definition item_match (ic : bool) (it : citem) (c : char) : bool :=
  match it with
  | CLit x => char_eq ic x c
  | CRange lo hi =>
    if ic then in_range lo hi (lower_c c) || in_range lo hi (upper_c (lower_c c))
    else in_range lo hi c
  | CCat neg k => xorb neg (cat_match k (if ic then lower_c c else c))
  end.

Definition set_match (ic neg : bool) (items : list citem) (c : char) : bool :=
  xorb neg (existsb (fun it => item_match ic it c) items).

(** The matcher state: position, remaining subject, previous character and
    the spans of the groups closed so far (the latest first). *)
Record mstate := {
  st_pos : nat;
  st_rest : pystr;
  st_prev : option char;
  st_caps : list (nat * (nat * nat))
}.

Definition advance (st : mstate) (c : char) (t : pystr) : mstate :=
  {| st_pos := S (st_pos st); st_rest := t; st_prev := Some c;
     st_caps := st_caps st |}.

Definition at_bol (fl : flags) (st : mstate) : bool :=
  match st_prev st with
  | None => true
  | Some c => MULTILINE fl && (c =? 10)
  end.

Definition at_eol (fl : flags) (st : mstate) : bool :=
  match st_rest st with
  | [] => true
  | c :: t => (c =? 10) && (MULTILINE fl || match t with [] => true | _ => false end)
  end.

Definition one_char (st : mstate) (ok : char -> bool)
  (k : mstate -> option mstate) : option mstate :=
  match st_rest st with
  | c :: t => if ok c then k (advance st c t) else None
  | [] => None
  end.

Definition below (hi : option nat) (count : nat) : bool :=
  match hi with
  | None => true
  | Some h => (count <? h)%nat
  end.

Section Repeat.

(** The matcher of the repeated expression, the bounds and the
    continuation of the whole repeat. *)
Variable body : mstate -> (mstate -> option mstate) -> option mstate.
Variable lo : nat.
Variable hi : option nat.
Variable greedy : bool.
Variable k : mstate -> option mstate.

(** [count] iterations are done.  An iteration beyond the lower bound that
    consumes nothing is dropped, as the engine does, so [budget] (the
    length of the rest plus the lower bound) is never exhausted. *)
Fixpoint repeat_loop (budget count : nat) (st0 : mstate) {struct budget} : option mstate :=
  match budget with
  | O => None
  | S b =>
    let more (_ : unit) :=
      if below hi count
      then body st0 (fun st' =>
             if (lo <=? count)%nat && (st_pos st' =? st_pos st0)%nat
             then None
             else repeat_loop b (S count) st')
      else None in
    let leave (_ : unit) := if (lo <=? count)%nat then k st0 else None in
    if greedy
    then match more tt with Some res => Some res | None => leave tt end
    else match leave tt with Some res => Some res | None => more tt end
  end.

End Repeat.

Fixpoint rmatch (fl : flags) (r : regex) (st : mstate)
  (k : mstate -> option mstate) {struct r} : option mstate :=
  match r with
  | REmpty => k st
  | RChar c => one_char st (char_eq (IGNORECASE fl) c) k
  | RAny => one_char st (fun c => DOTALL fl || negb (c =? 10)) k
  | RSet neg items => one_char st (set_match (IGNORECASE fl) neg items) k
  | RCat a b => rmatch fl a st (fun st' => rmatch fl b st' k)
  | RAlt a b =>
    match rmatch fl a st k with
    | Some res => Some res
    | None => rmatch fl b st k
    end
  | RRepeat lo hi greedy a =>
    repeat_loop (rmatch fl a) lo hi greedy k (length (st_rest st) + lo + 1)%nat O st
  | RGroup idx a =>
    rmatch fl a st (fun st' =>
      k {| st_pos := st_pos st'; st_rest := st_rest st'; st_prev := st_prev st';
           st_caps := (idx, (st_pos st, st_pos st')) :: st_caps st' |})
  | RBol => if at_bol fl st then k st else None
  | REol => if at_eol fl st then k st else None
  | RLook neg a =>
    match rmatch fl a st (fun st' => Some st') with
    | Some st' =>
      if neg then None
      else k {| st_pos := st_pos st; st_rest := st_rest st; st_prev := st_prev st;
                st_caps := st_caps st' |}
    | None => if neg then k st else None
    end
  end.

(** A match object. *)
Record match_obj := {
  m_text : pystr;
  m_start : nat;
  m_end : nat;
  m_caps : list (nat * (nat * nat))
}.

Fixpoint span_of (n : nat) (caps : list (nat * (nat * nat))) : option (nat * nat) :=
  match caps with
  | [] => None
  | (i, sp) :: t => if (i =? n)%nat then Some sp else span_of n t
  end.

(** [m.group(n)]; [None] when the group did not take part in the match. *)
Definition group (m : match_obj) (n : nat) : option pystr :=
  match n with
  | O => Some (slice (m_text m) (m_start m) (m_end m))
  | _ => match span_of n (m_caps m) with
         | Some (a, b) => Some (slice (m_text m) a b)
         | None => None
         end
  end.

(** [m.lastindex]: the group closed last. *)
Definition lastindex (m : match_obj) : option nat :=
  match m_caps m with
  | [] => None
  | (i, _) :: _ => Some i
  end.

Definition try_at (fl : flags) (r : regex) (text : pystr) (p : nat)
  (prev : option char) (rest : pystr) : option match_obj :=
  match rmatch fl r {| st_pos := p; st_rest := rest; st_prev := prev; st_caps := [] |}
               (fun st' => Some st') with
  | Some st' => Some {| m_text := text; m_start := p; m_end := st_pos st';
                        m_caps := st_caps st' |}
  | None => None
  end.

Fixpoint scan (fl : flags) (r : regex) (text : pystr) (p : nat)
  (prev : option char) (rest : pystr) : option match_obj :=
  match try_at fl r text p prev rest with
  | Some m => Some m
  | None =>
    match rest with
    | [] => None
    | c :: t => scan fl r text (S p) (Some c) t
    end
  end.

Definition prev_at (text : pystr) (p : nat) : option char :=
  match p with
  | O => None
  | S q => nth_error text q
  end.

(** The leftmost match starting at or after [p]. *)
Definition search_at (fl : flags) (r : regex) (text : pystr) (p : nat) : option match_obj :=
  scan fl r text p (prev_at text p) (skipn p text).

(** *** Parsing a pattern *)

Definition isc (c : char) (a : ascii) : bool := c =? N_of_ascii a.
Arguments isc _ _%_char.

Definition isalnum_ascii (c : char) : bool :=
  in_range 65 90 c || in_range 97 122 c || in_range 48 57 c.

(** The meaning of [\c]; an escaped ASCII letter or digit without a meaning
    here is refused, any other escaped character stands for itself. *)
Definition class_escape (c : char) : option citem :=
  if isc c "s" then Some (CCat false CatSpace)
  else if isc c "S" then Some (CCat true CatSpace)
  else if isc c "d" then Some (CCat false CatDigit)
  else if isc c "D" then Some (CCat true CatDigit)
  else if isc c "w" then Some (CCat false CatWord)
  else if isc c "W" then Some (CCat true CatWord)
  else if isc c "n" then Some (CLit 10)
  else if isc c "t" then Some (CLit 9)
  else if isc c "r" then Some (CLit 13)
  else if isalnum_ascii c then None
  else Some (CLit c).

Definition escaped (s : pystr) : option (citem * pystr) :=
  match s with
  | e :: t => match class_escape e with Some it => Some (it, t) | None => None end
  | [] => None
  end.

(** The items of [[...]], after the opening bracket and the optional [^]. *)
Fixpoint parse_class (fuel : nat) (s : pystr) (acc : list citem)
  : option (list citem * pystr) :=
  match fuel with
  | O => None
  | S f =>
    match s with
    | [] => None
    | c :: t =>
      if isc c "]" then
        match acc with [] => None | _ => Some (rev acc, t) end
      else
        match (if isc c "\" then escaped t else Some (CLit c, t)) with
        | None => None
        | Some (CLit lo, d :: h :: t2) =>
          if isc d "-" && negb (isc h "]") then
            match (if isc h "\" then escaped t2 else Some (CLit h, t2)) with
            | Some (CLit hi, t3) => parse_class f t3 (CRange lo hi :: acc)
            | _ => None
            end
          else parse_class f (d :: h :: t2) (CLit lo :: acc)
        | Some (it, t1) => parse_class f t1 (it :: acc)
        end
    end
  end.

Fixpoint parse_nat (s : pystr) (acc : option nat) : option nat * pystr :=
  match s with
  | c :: t =>
    if isdigit_c c
    then parse_nat t (Some (10 * match acc with Some a => a | None => O end
                            + N.to_nat (c - 48))%nat)
    else (acc, s)
  | [] => (acc, s)
  end.

Definition lazy_mark (s : pystr) : bool * pystr :=
  match s with
  | q :: t => if isc q "?" then (false, t) else (true, s)
  | [] => (true, [])
  end.

(** A quantifier, if one follows: bounds and greediness. *)
Definition parse_quant (s : pystr) : option (option (nat * option nat * bool) * pystr) :=
  match s with
  | [] => Some (None, [])
  | c :: t =>
    if isc c "*" then let (g, r) := lazy_mark t in Some (Some (O, None, g), r)
    else if isc c "+" then let (g, r) := lazy_mark t in Some (Some (1%nat, None, g), r)
    else if isc c "?" then let (g, r) := lazy_mark t in Some (Some (O, Some 1%nat, g), r)
    else if isc c "{" then
      match parse_nat t None with
      | (Some lo, d :: t1) =>
        if isc d "}" then
          let (g, r) := lazy_mark t1 in Some (Some (lo, Some lo, g), r)
        else if isc d "," then
          match parse_nat t1 None with
          | (hi, e :: t2) =>
            if isc e "}" then let (g, r) := lazy_mark t2 in Some (Some (lo, hi, g), r)
            else None
          | _ => None
          end
        else None
      | _ => None
      end
    else Some (None, s)
  end.

Section Parser.

(** The parser of a whole alternation, for the inside of a group. *)
Variable rec : pystr -> nat -> option (regex * pystr * nat).

Definition close (res : option (regex * pystr * nat)) (wrap : regex -> regex)
  : option (regex * pystr * nat) :=
  match res with
  | Some (r, c :: t, g) => if isc c ")" then Some (wrap r, t, g) else None
  | _ => None
  end.

Definition parse_set (neg : bool) (s : pystr) (g : nat) : option (regex * pystr * nat) :=
  match parse_class (S (length s)) s [] with
  | Some (items, t) => Some (RSet neg items, t, g)
  | None => None
  end.

Definition parse_atom (s : pystr) (g : nat) : option (regex * pystr * nat) :=
  match s with
  | [] => None
  | c :: t =>
    if isc c "(" then
      match t with
      | q :: k :: t1 =>
        if isc q "?" then
          if isc k ":" then close (rec t1 g) (fun r => r)
          else if isc k "!" then close (rec t1 g) (RLook true)
          else if isc k "=" then close (rec t1 g) (RLook false)
          else None
        else close (rec t (S g)) (RGroup g)
      | _ => close (rec t (S g)) (RGroup g)
      end
    else if isc c "[" then
      match t with
      | n :: t1 => if isc n "^" then parse_set true t1 g else parse_set false t g
      | [] => None
      end
    else if isc c "." then Some (RAny, t, g)
    else if isc c "^" then Some (RBol, t, g)
    else if isc c "$" then Some (REol, t, g)
    else if isc c "\" then
      match escaped t with
      | Some (CLit x, t1) => Some (RChar x, t1, g)
      | Some (it, t1) => Some (RSet false [it], t1, g)
      | None => None
      end
    else if isc c "*" || isc c "+" || isc c "?" || isc c "{" || isc c ")" || isc c "|"
    then None
    else Some (RChar c, t, g)
  end.

Fixpoint parse_seq (fuel : nat) (s : pystr) (g : nat) : option (regex * pystr * nat) :=
  match fuel with
  | O => None
  | S f =>
    match s with
    | [] => Some (REmpty, [], g)
    | c :: _ =>
      if isc c ")" || isc c "|" then Some (REmpty, s, g)
      else
        match parse_atom s g with
        | None => None
        | Some (a, s1, g1) =>
          match parse_quant s1 with
          | None => None
          | Some (q, s2) =>
            let a' := match q with
                      | Some (lo, hi, gr) => RRepeat lo hi gr a
                      | None => a
                      end in
            match parse_seq f s2 g1 with
            | Some (REmpty, s3, g3) => Some (a', s3, g3)
            | Some (r, s3, g3) => Some (RCat a' r, s3, g3)
            | None => None
            end
          end
        end
    end
  end.

Fixpoint parse_alts (fuel : nat) (s : pystr) (g : nat) : option (regex * pystr * nat) :=
  match fuel with
  | O => None
  | S f =>
    match parse_seq (S (length s)) s g with
    | Some (a, c :: t, g1) =>
      if isc c "|" then
        match parse_alts f t g1 with
        | Some (b, s2, g2) => Some (RAlt a b, s2, g2)
        | None => None
        end
      else Some (a, c :: t, g1)
    | other => other
    end
  end.

End Parser.

Fixpoint parse_re (fuel : nat) (s : pystr) (g : nat) : option (regex * pystr * nat) :=
  match fuel with
  | O => None
  | S f => parse_alts (parse_re f) (S (length s)) s g
  end.

(** [re.compile(pattern)]; [None] where Python raises (or where the pattern
    uses a construct outside this model). *)
Definition re_compile (pat : pystr) : option regex :=
  match parse_re (S (length pat)) pat 1%nat with
  | Some (r, [], _) => Some r
  | _ => None
  end.

(** *** The functions of the module *)

(** [re.search(pattern, text, flags)] *)
Definition search (pat text : pystr) (fl : flags) : option match_obj :=
  match re_compile pat with
  | Some r => search_at fl r text O
  | None => None
  end.

(** [re.match(pattern, text, flags)] *)
Definition match_ (pat text : pystr) (fl : flags) : option match_obj :=
  match re_compile pat with
  | Some r => try_at fl r text O None text
  | None => None
  end.

Fixpoint finditer_from (fuel : nat) (fl : flags) (r : regex) (text : pystr) (p : nat)
  : list match_obj :=
  match fuel with
  | O => []
  | S f =>
    if (length text <? p)%nat then []
    else match search_at fl r text p with
         | None => []
         | Some m =>
           m :: finditer_from f fl r text
                  (if (m_start m <? m_end m)%nat then m_end m else S (m_end m))
         end
  end.

(** [re.finditer(pattern, text, flags)] *)
Definition finditer (pat text : pystr) (fl : flags) : list match_obj :=
  match re_compile pat with
  | Some r => finditer_from (S (length text)) fl r text O
  | None => []
  end.

Definition group_or_empty (m : match_obj) (n : nat) : pystr :=
  match group m n with Some v => v | None => [] end.

(** [re.findall(pattern, text)] for a pattern with at most one group. *)
Definition findall (pat text : pystr) (fl : flags) : list pystr :=
  map (fun m => match lastindex m with
                | Some _ => group_or_empty m 1
                | None => group_or_empty m 0
                end) (finditer pat text fl).

Fixpoint sub_build (repl text : pystr) (p : nat) (ms : list match_obj) : pystr :=
  match ms with
  | [] => skipn p text
  | m :: t => slice text p (m_start m) ++ repl ++ sub_build repl text (m_end m) t
  end.

(** [re.sub(pattern, repl, text, flags=...)] for a literal replacement. *)
Definition sub (pat repl text : pystr) (fl : flags) : pystr :=
  sub_build repl text O (finditer pat text fl).

End Re.

Import Re.

(** ** Part III. Floating-point numbers and Python values *)

Module Float.

Local Open Scope Z_scope.

(** Python's [float] is IEEE 754 binary64. *)
Definition prec : Z := 53.
Definition emax : Z := 1024.

Definition of_Z (z : Z) : spec_float := binary_normalize prec emax z 0 false.

(** The binary64 number nearest to [m * 10 ^ e10] (ties to even), for
    [m >= 0]; the quotient is rounded once. *)
Definition of_decimal (neg : bool) (m e10 : Z) : spec_float :=
  if m =? 0 then S754_zero neg
  else if 0 <=? e10 then binary_round prec emax neg (Z.to_pos (m * 10 ^ e10)) 0
  else
    let '(q, e, l) := SFdiv_core_binary prec emax m 0 (10 ^ (- e10)) 0 in
    binary_round_aux prec emax neg q e l.

(** [0.5] *)
Definition half : spec_float := of_decimal false 5 (-1).

(** [a < b] on floats. *)
Definition ltb (a b : spec_float) : bool := SFltb a b.

(** A run of digits, a single underscore being allowed between two digits:
    the accumulated value, the number of digits read and the rest. *)
Fixpoint read_digits (s : pystr) (acc : Z) (cnt : nat) : Z * nat * pystr :=
  match s with
  | c :: t =>
    if isdigit_c c then read_digits t (acc * 10 + (Z.of_N c - 48)) (S cnt)
    else if (c =? 95)%N && (0 <? cnt)%nat
            && match t with d :: _ => isdigit_c d | [] => false end
    then read_digits t acc cnt
    else (acc, cnt, s)
  | [] => (acc, cnt, [])
  end.

Definition read_sign (s : pystr) : bool * pystr :=
  match s with
  | c :: t => if (c =? 45)%N then (true, t)
              else if (c =? 43)%N then (false, t) else (false, s)
  | [] => (false, [])
  end.

(** [float(s)] for a string; [None] stands for [ValueError]. *)
Definition float_of_str (s0 : pystr) : option spec_float :=
  let (neg, s1) := read_sign (strip s0) in
  let ls := lower s1 in
  if eqs ls (u "inf") || eqs ls (u "infinity") then Some (S754_infinity neg)
  else if eqs ls (u "nan") then Some S754_nan
  else
    let '(ip, ni, s2) := read_digits s1 0 O in
    let '(m, nf, s3) :=
      match s2 with
      | c :: t => if (c =? 46)%N then read_digits t ip O else (ip, O, s2)
      | [] => (ip, O, [])
      end in
    if (ni + nf =? 0)%nat then None
    else
      match s3 with
      | [] => Some (of_decimal neg m (- Z.of_nat nf))
      | c :: t =>
        if (c =? 101)%N || (c =? 69)%N then
          let (eneg, t1) := read_sign t in
          let '(ev, ne, s4) := read_digits t1 0 O in
          match ne, s4 with
          | S _, [] =>
            Some (of_decimal neg m ((if eneg then - ev else ev) - Z.of_nat nf))
          | _, _ => None
          end
        else None
      end.

End Float.

(** A Python value, as far as the output record needs them. *)
#[warnings="-register-all"] Inductive pyval :=
| VNone
| VStr (s : pystr)
| VInt (z : Z)
| VFloat (f : spec_float)
| VDict (kvs : list (string * pyval))
| VList (vs : list pyval).

(** A dictionary in insertion order. *)
Definition pydict := list (string * pyval).

(** [d[k] = v] *)
Fixpoint dict_set (d : pydict) (k : string) (v : pyval) : pydict :=
  match d with
  | [] => [(k, v)]
  | (k', v') :: t => if String.eqb k' k then (k, v) :: t else (k', v') :: dict_set t k v
  end.

(** [d.get(k)] *)
Fixpoint dict_get (d : pydict) (k : string) : option pyval :=
  match d with
  | [] => None
  | (k', v) :: t => if String.eqb k' k then Some v else dict_get t k
  end.

(** Truthiness of an optional string: [if x:]. *)
Definition truthy (x : option pystr) : bool :=
  match x with
  | Some (_ :: _) => true
  | _ => false
  end.

(** [d[k] = x] under [if x:]. *)
Definition set_if (d : pydict) (k : string) (x : option pystr) : pydict :=
  match x with
  | Some ((_ :: _) as s) => dict_set d k (VStr s)
  | _ => d
  end.

(** [d if d else None] *)
Definition dict_or_none (d : pydict) : pyval :=
  match d with
  | [] => VNone
  | _ => VDict d
  end.

Definition is_some {A : Type} (x : option A) : bool :=
  match x with Some _ => true | None => false end.

(** ** Part IV. [InvoiceDataExtractor] ([src/app/data_extractor.py]) *)

Module Extractor.

Inductive field :=
| invoice_number | date | seller | buyer | inn | kpp | total_amount | vat.

(** What a call of [validate_extraction] does: it returns
    [(is_valid, confidence)] or it raises. *)
Inductive outcome :=
| Returns (is_valid : bool) (confidence : spec_float)
| Raises.

(** The optional classifier: [validate_extraction(field, value, context)]. *)
Definition classifier := field -> pystr -> pystr -> outcome.

(** The attributes [__init__] leaves on the object. *)
Record extractor := {
  use_ml_validation : bool;
  ml_classifier : option classifier
}.

(** [InvoiceDataExtractor()]: validation is off by default. *)
Definition default_extractor : extractor :=
  {| use_ml_validation := false; ml_classifier := None |}.

(** [self.patterns] *)
Definition patterns (f : field) : list pystr :=
  match f with
  | invoice_number => [
    u "сч[ёе]т[а-я]*\s+на\s+оплату\s+№\s*([\d/]+)";
    u "сч[ёе]т[а-я]*\s*№\s*([\d/]+)";
    u "сч[ёе]т[а-я]*-оферта\s+(\d+)";
    u "сч[ёе]т[а-я]*-фактура\s+№\s*(\d+)";
    u "(?:сч[ёе]т[а-я]*|invoice)\s*[:\-]?\s*№?\s*([\d/]{1,15})(?!\d)";
    u "invoice\s*#?\s*(\d{1,10})";
    u "№\s*([\d/]+)" ]
  | date => [
    u "от\s+(\d{1,2}\.\d{1,2}\.\d{4})";
    u "от\s+(\d{1,2}\s+[а-я]+\s+\d{4}\s+г\.)";
    u "(?:дата|date|от)\s*[:\-]?\s*(\d{1,2}[./\-]\d{1,2}[./\-]\d{2,4})";
    u "(\d{1,2}\.\d{1,2}\.\d{4})";
    u "(\d{1,2}/\d{1,2}/\d{4})" ]
  | seller => [
    u "поставщик\s+((?:ООО|АО)\s+ТД\s+" ++ dq ++ u "[^" ++ dq ++ u "]+" ++ dq ++ u ")";
    u "поставщик\s+((?:ООО|АО)\s+ТД\s+[А-Яа-яA-Za-z]{3,}[А-Яа-яA-Za-z\s,\.]*)";
    u "поставщик\s+((?:ООО|АО|ТД|ИП)\s+" ++ dq ++ u "[^" ++ dq ++ u "]+" ++ dq ++ u ")";
    u "поставщик\s+((?:ООО|АО|ТД|ИП)\s+[А-Яа-яA-Za-z]{3,}[А-Яа-яA-Za-z\s,\.]*)";
    u "поставщик[^\n]*?\n\s*((?:ООО|АО)\s+ТД\s+" ++ dq ++ u "[^" ++ dq ++ u "]+" ++ dq ++ u ")";
    u "поставщик[^\n]*?\n\s*((?:ООО|АО)\s+ТД\s+[А-Яа-яA-Za-z]{3,}[А-Яа-яA-Za-z\s,\.]*)";
    u "поставщик[:\-]?\s+((?:ООО|АО)\s+ТД\s+" ++ dq ++ u "[^" ++ dq ++ u "]+" ++ dq ++ u ")(?:\s+ИНН|\s+КПП|\s+Адрес|$)";
    u "поставщик[:\-]?\s+((?:ООО|АО)\s+ТД\s+[А-Яа-яA-Za-z]{3,}[А-Яа-яA-Za-z\s,\.]*?)(?:\s+ИНН|\s+КПП|\s+Адрес|$)";
    u "поставщик[:\-]?\s+((?:ООО|АО|ТД|ИП)\s+" ++ dq ++ u "[^" ++ dq ++ u "]+" ++ dq ++ u ")(?:\s+ИНН|\s+КПП|\s+Адрес|$)";
    u "поставщик[:\-]?\s+((?:ООО|АО|ТД|ИП)\s+[А-Яа-яA-Za-z]{3,}[А-Яа-яA-Za-z\s,\.]*?)(?:\s+ИНН|\s+КПП|\s+Адрес|$)";
    u "поставщик[^п]*?[:\-]?\s*((?:ООО|АО)\s+ТД\s+" ++ dq ++ u "[А-Яа-яA-Za-z\s,\.]+" ++ dq ++ u ")(?![^п]*покупатель)";
    u "поставщик[^п]*?[:\-]?\s*((?:ООО|АО)\s+ТД\s+[А-Яа-яA-Za-z\s,\.]{3,}?)(?:\s+ИНН|\s+КПП)(?![^п]*покупатель)";
    u "исполнитель[:\-]?\s+((?:ООО|АО|ТД|ИП)\s+" ++ dq ++ u "[^" ++ dq ++ u "]+" ++ dq ++ u ")(?:\s+ИНН|\s+КПП|\s+Адрес|$)";
    u "продавец[:\-]?\s+((?:ООО|АО|ТД|ИП)\s+" ++ dq ++ u "[^" ++ dq ++ u "]+" ++ dq ++ u ")(?:\s+ИНН|\s+КПП|\s+Адрес|$)";
    u "поставщик[^:]*[:\-]?\s*(ИП\s+[А-Яа-яA-Za-z\s,\.]+?)(?:\s+ИНН|\s+КПП|\с+Адрес|$)";
    u "отправитель\s*[:\-]?\s*([А-Я][а-я]+\s+[А-Я][а-я]+)" ]
  | buyer => [
    u "покупатель\s+((?:ООО|АО|ТД|ИП)\s+" ++ dq ++ u "[^" ++ dq ++ u "]+" ++ dq ++ u ")";
    u "покупатель\s+((?:ООО|АО|ТД|ИП)\s+[А-Яа-яA-Za-z]{2,}[А-Яа-яA-Za-z\s,\.]*)";
    u "покупатель[^\n]*?\n\s*((?:ООО|АО|ТД|ИП)\s+" ++ dq ++ u "[^" ++ dq ++ u "]+" ++ dq ++ u ")";
    u "покупатель[^\n]*?\n\s*((?:ООО|АО|ТД|ИП)\s+[А-Яа-яA-Za-z]{2,}[А-Яа-яA-Za-z\s,\.]*)";
    u "покупатель[:\-]?\s+((?:ООО|АО|ТД|ИП)\s+" ++ dq ++ u "[^" ++ dq ++ u "]+" ++ dq ++ u ")(?:\s+ИНН|\s+КПП|\s+Адрес|$)";
    u "покупатель[:\-]?\s+((?:ООО|АО|ТД|ИП)\s+[А-Яа-яA-Za-z]{2,}[А-Яа-яA-Za-z\s,\.]*?)(?:\s+ИНН|\s+КПП|\s+Адрес|$)";
    u "заказчик[:\-]?\s+((?:ООО|АО|ТД|ИП)\s+" ++ dq ++ u "[^" ++ dq ++ u "]+" ++ dq ++ u ")(?:\s+ИНН|\s+КПП|\s+Адрес|$)";
    u "клиент[:\-]?\s+((?:ООО|АО|ТД|ИП)\s+" ++ dq ++ u "[^" ++ dq ++ u "]+" ++ dq ++ u ")(?:\s+ИНН|\s+КПП|\s+Адрес|$)";
    u "покупатель[^:]*[:\-]?\s*(ИП\s+[А-Яа-яA-Za-z\s,\.]+?)(?:\с+ИНН|\с+КПП|\с+Адрес|$)" ++ dq ++ u "?";
    u "получатель\s*[:\-]?\s*([А-Я][а-я]+\s+[А-Я]\.)";
    u "получатель\s*[:\-]?\s*([А-Я][а-я]+\s+[А-Я][а-я]+)" ]
  | inn => [
    u "поставщик[^п]*?ИНН\s*[:\-]?\s*(\d{10,12})(?![^п]*покупатель)";
    u "исполнитель[^п]*?ИНН\s*[:\-]?\s*(\d{10,12})(?![^п]*покупатель)";
    u "продавец[^п]*?ИНН\s*[:\-]?\s*(\d{10,12})(?![^п]*покупатель)";
    u "поставщик[^:]*[:\-]?[^\d]*ИНН\s*[:\-]?\s*(\d{10,12})";
    u "исполнитель[^:]*[:\-]?[^\d]*ИНН\s*[:\-]?\s*(\d{10,12})";
    u "продавец[^:]*[:\-]?[^\d]*ИНН\s*[:\-]?\s*(\d{10,12})" ]
  | kpp => [
    u "поставщик[^п]*?КПП\s*[:\-]?\s*(\d{9})(?![^п]*покупатель)";
    u "исполнитель[^п]*?КПП\s*[:\-]?\s*(\d{9})(?![^п]*покупатель)";
    u "продавец[^п]*?КПП\s*[:\-]?\s*(\d{9})(?![^п]*покупатель)";
    u "поставщик[^:]*[:\-]?[^\d]*КПП\s*[:\-]?\s*(\d{9})";
    u "исполнитель[^:]*[:\-]?[^\d]*КПП\s*[:\-]?\s*(\d{9})";
    u "продавец[^:]*[:\-]?[^\d]*КПП\s*[:\-]?\s*(\d{9})" ]
  | total_amount => [
    u "всего\s+к\s+оплате\s*[:\-]?\s*([\d\s,\.]{3,}[,\.]\d{2})";
    u "всего\s+с\s+ндс\s*[:\-]?\s*([\d\s,\.]{3,}[,\.]\d{2})";
    u "к\s+оплате\s*[:\-]?\s*([\d\s,\.]{3,}[,\.]\d{2})";
    u "итого[^,]*вкл[^,]*ндс[^,]*[:\-]?\s*([\d\s,\.]{3,}[,\.]\d{2})";
    u "итого\s*[:\-]?\s*([\d\s,\.]{3,}[,\.]\d{2})\s*(?:руб|RUB|₽|р\.)";
    u "(?:итого|total)\s*[:\-]?\s*([\d\s,\.]{3,}[,\.]\d{2})";
    u "([\d\s,\.]{3,}[,\.]\d{2})\s*(?:руб|RUB|₽|р\.)\s*(?:итого|total)";
    u "сумма\s+([\d\s,\.]{3,}[,\.]\d{2})";
    u "на\s+сумму\s+([\d\s,\.]{3,}[,\.]\d{2})\s*(?:руб|RUB|₽|р\.)" ]
  | vat => [
    u "в\s+том\s+числе\s+ндс\s*\d*\s*%\s*[:\-]?\s*([\d\s,\.]{3,}[,\.]\d{2})";
    u "ндс\s*\(?\d+\s*%\)?\s*[:\-]?\s*([\d\s,\.]{3,}[,\.]\d{2})";
    u "(?:НДС|VAT|vat)\s*[:\-]?\s*([\d\s,\.]{3,}[,\.]\d{2})\s*(?:руб|RUB|%)";
    u "НДС\s*(\d+)\s*%\s*[:\-]?\s*([\d\s,\.]{3,}[,\.]\d{2})";
    u "в\s+том\s+числе\s+ндс\s*[:\-]?\s*([\d\s,\.]{3,}[,\.]\d{2})" ]
  end.

(** [_preprocess_text] *)
Definition _preprocess_text (text : pystr) : pystr :=
  sub (u "[ \t]+") (u " ") text no_flags.

(** [_clean_number] *)
Definition _clean_number (value : pystr) : spec_float :=
  match value with
  | [] => S754_zero false
  | _ =>
    let value_str := replace (replace (replace value (u " ") []) dq []) (u ",") (u ".") in
    match Float.float_of_str value_str with
    | Some f => f
    | None => S754_zero false
    end
  end.

Definition is_party (f : field) : bool :=
  match f with seller | buyer => true | _ => false end.

Definition is_invoice_number (f : field) : bool :=
  match f with invoice_number => true | _ => false end.

Definition is_total_amount (f : field) : bool :=
  match f with total_amount => true | _ => false end.

(** The first rejection test of a counterparty name (source lines 193-196). *)
Definition degenerate_capture (value_clean : pystr) : bool :=
  is_some (match_ (u "^[a-zа-я]\s*[,]?$") value_clean fI)
  || is_some (match_ (u "^0+$") value_clean no_flags)
  || is_some (match_ (u "^\d+$") value_clean no_flags)
  || (length value_clean <? 3).

Definition stop_words : list pystr :=
  [ u "Карта"; u "Получатель"; u "Квитанция"; u "По вопросам"; u "получателя";
    u "карта"; u "Карта получателя"; u "Служба"; u "ИНН"; u "КПП"; u "Адрес" ].

(** The cut at the first stop word and the closing quote (lines 202-212). *)
Definition cut_stop_words (value : pystr) : pystr :=
  let min_idx :=
    fold_left (fun min_idx word =>
                 match find (lower value) (lower word) with
                 | Some idx => if (0 <? idx) && (idx <? min_idx) then idx else min_idx
                 | None => min_idx
                 end) stop_words (length value) in
  if min_idx <? length value then
    let value := strip (firstn min_idx value) in
    if contains value dq && Nat.odd (count_c value 34%N) then value ++ dq else value
  else value.

Definition buyer_patterns : list pystr := [
  u "покупатель\s+(ООО\s+" ++ dq ++ u "[А-Яа-яA-Za-z\s,\.]+" ++ dq ++ u ")(?:\s+ИНН|\s+КПП|\s+Адрес|$)";
  u "покупатель\s+(ООО\s+[А-Яа-яA-Za-z\s,\.]{3,}?)(?:\s+ИНН|\s+КПП|\s+Адрес|$)";
  u "покупатель[^:]*[:\-]?\s*(ООО\s+" ++ dq ++ u "[А-Яа-яA-Za-z\s,\.]+" ++ dq ++ u ")(?:\s+ИНН|\s+КПП|\s+Адрес|$)" ++ dq ++ u "?";
  u "покупатель[^:]*[:\-]?\s*(ООО\s+" ++ dq ++ u "[А-Яа-яA-Za-z\s,\.]+?)(?:\s+ИНН|\s+КПП|\s+Адрес|$)" ++ dq ++ u "?";
  u "заказчик[^:]*[:\-]?\s*(ООО\s+" ++ dq ++ u "[А-Яа-яA-Za-z\s,\.]+?)(?:\s+ИНН|\s+КПП|\с+Адрес|$)" ++ dq ++ u "?";
  u "получатель\s+([А-Я][а-я]+\s+[А-Я]\.)";
  u "получатель\s+([А-Я][а-я]+\s+[А-Я][а-я]+)" ].

Definition seller_patterns : list pystr := [
  u "поставщик[^:]*[:\-]?\s*((?:ООО|АО)\s*ТД\s*" ++ dq ++ u "?[А-Яа-яA-Za-z\s,\.]+" ++ dq ++ u ")(?:\s+ИНН|\s+КПП|\s+Адрес|$)";
  u "поставщик[^:]*[:\-]?\s*((?:ООО|АО)\s*ТД\s*[А-Яа-яA-Za-z\s,\.]{3,}?)(?:\s+ИНН|\s+КПП|\s+Адрес|$)";
  u "поставщик[^:]*[:\-]?\s*(ООО\s*" ++ dq ++ u "?[А-Яа-яA-Za-z\s,\.]+?)(?:\s+ИНН|\s+КПП|\s+Адрес|$)" ++ dq ++ u "?";
  u "исполнитель[^:]*[:\-]?\s*(ООО\s*" ++ dq ++ u "?[А-Яа-яA-Za-z\s,\.]+?)(?:\s+ИНН|\s+КПП|\s+Адрес|$)" ++ dq ++ u "?";
  u "отправитель\s+([А-Я][а-я]+\s+[А-Я][а-я]+)" ].

(** [for pattern in ...: match = re.search(...); if match: value = match.group(1); break]
    (group 1 takes part in every match of these patterns). *)
Fixpoint retry_patterns (ps : list pystr) (text value : pystr) : pystr :=
  match ps with
  | [] => value
  | p :: t =>
    match search p text fI with
    | Some m => group_or_empty m 1
    | None => retry_patterns t text value
    end
  end.

(** The repair of a counterparty name (lines 201-256); [None] is [continue]. *)
Definition clean_party (f : field) (text value : pystr) : option pystr :=
  let value := cut_stop_words value in
  let value := sub (u "\s+[a-z]\s*$") [] value fI in
  let value := sub (u "\s*[,]+$") [] value no_flags in
  let value :=
    if (length value <? 3)
       || is_some (match_ (u "^[a-z]\s*[,]?$") value no_flags)
       || (is_some (match_ (u "^[a-zA-Z\s,]+$") value no_flags)
           && (length (split_ws value) <? 2))
    then match f with
         | buyer => retry_patterns buyer_patterns text value
         | seller => retry_patterns seller_patterns text value
         | _ => value
         end
    else value in
  let value := strip value in
  let value_clean := strip value in
  if (length value_clean <? 3)
     || is_some (match_ (u "^[a-zа-я]\s*[,]?$") value_clean fI)
  then None
  else Some value.

(** The validation step (lines 258-266): [true] is [continue]. *)
Definition rejected (self : extractor) (f : field) (value text : pystr) : bool :=
  match use_ml_validation self, ml_classifier self with
  | true, Some validate_extraction =>
    match validate_extraction f value text with
    | Returns is_valid confidence => negb is_valid && Float.ltb confidence Float.half
    | Raises => false
    end
  | _, _ => false
  end.

(** Lines 180-183: [match.group(1)] when a group matched, [match.group(0)]
    otherwise. *)
Definition capture (m : match_obj) : option pystr :=
  match lastindex m with Some _ => group m 1 | None => group m 0 end.

(** One turn of the loop over the patterns: the value returned, or [None]
    when the loop goes on to the next pattern. *)
Definition try_pattern (self : extractor) (text : pystr) (f : field) (pattern : pystr)
  : option pystr :=
  match search pattern text fIM with
  | None => None
  | Some m =>
    match capture m with
    | None | Some [] => None
    | Some value =>
      if is_invoice_number f && (10 <? length (strip value)) then None
      else if is_party f && degenerate_capture (strip value) then None
      else
        let value := sub (u "\s+") (u " ") (strip value) no_flags in
        let value := if is_total_amount f then replace value (u " ") [] else value in
        match (if is_party f then clean_party f text value else Some value) with
        | None => None
        | Some value => if rejected self f value text then None else Some value
        end
    end
  end.

Fixpoint first_accepted (self : extractor) (text : pystr) (f : field) (ps : list pystr)
  : option pystr :=
  match ps with
  | [] => None
  | pattern :: rest =>
    match try_pattern self text f pattern with
    | Some value => Some value
    | None => first_accepted self text f rest
    end
  end.

(** [_extract_field] *)
Definition _extract_field (self : extractor) (text : pystr) (f : field) : option pystr :=
  first_accepted self text f (patterns f).

(** [m.group(n)] where group [n] takes part in every match of the pattern,
    so that it is a string; this holds of every pattern of this class
    (lemmas [groups_take_part] and [g_is_group]). *)
Definition g (m : match_obj) (n : nat) : pystr := group_or_empty m n.

Definition lastindex_n (m : match_obj) : nat :=
  match lastindex m with Some i => i | None => 0 end.

(** [for pattern in patterns: match = re.search(...); if match: return
    match.group(1).strip()] *)
Fixpoint first_group1 (ps : list pystr) (text : pystr) (fl : flags) : option pystr :=
  match ps with
  | [] => None
  | p :: rest =>
    match search p text fl with
    | Some m => Some (strip (g m 1))
    | None => first_group1 rest text fl
    end
  end.

Definition vat_patterns : list pystr := [
  u "в\s+том\s+числе\s+ндс\s*(\d+)\s*%\s*[:\-]?\s*([\d\s,\.]{3,}[,\.]\d{2})";
  u "ндс\s*\(?(\d+)\s*%\)?\s*[:\-]?\s*([\d\s,\.]{3,}[,\.]\d{2})";
  u "НДС\s*(\d+)\s*%\s*[:\-]?\s*([\d\s,\.]{3,}[,\.]\d{2})";
  u "ндс\s*(\d+)\s*%\s*[:\-]?\s*([\d\s,\.]{3,}[,\.]\d{2})";
  u "в\s+том\s+числе\s+ндс\s*[:\-]?\s*([\d\s,\.]{3,}[,\.]\d{2})";
  u "(?:НДС|VAT|vat)\s*[:\-]?\s*([\d\s,\.]{3,}[,\.]\d{2})\s*(?:руб|RUB)";
  u "НДС\s*(\d+)\s*%\s*[:\-]?\s*([\d\s,\.]+)";
  u "VAT\s*(\d+)\s*%\s*[:\-]?\s*([\d\s,\.]+)" ].

Fixpoint vat_loop (ps : list pystr) (text : pystr) : option (pystr * pystr) :=
  match ps with
  | [] => None
  | pattern :: rest =>
    match search pattern text fI with
    | None => vat_loop rest text
    | Some m =>
      let rate := if (1 <=? lastindex_n m) && isdigit (g m 1) then Some (g m 1) else None in
      let amount := if 2 <=? lastindex_n m then strip (g m 2) else strip (g m 1) in
      match amount with
      | [] => vat_loop rest text
      | _ =>
        let rate :=
          match rate with
          | Some r => Some r
          | None =>
            match search (u "(\d+)\s*%")
                         (match m_start m with O => text | n => firstn n text end) fI with
            | Some rate_match => Some (g rate_match 1)
            | None => None
            end
          end in
        Some (match rate with Some (c :: r) => c :: r | _ => u "20" end, amount)
      end
    end
  end.

(** [_extract_vat]: the rate and the amount. *)
Definition _extract_vat (text : pystr) : option (pystr * pystr) :=
  vat_loop vat_patterns text.

Definition upper (s : pystr) : pystr := map upper_c s.

Definition currency_patterns : list pystr := [
  u "([A-Z]{3})\s*(?:руб|RUB|USD|EUR)";
  u "(?:руб|RUB|₽)";
  u "(?:USD|\$)";
  u "(?:EUR|€)" ].

Fixpoint currency_loop (ps : list pystr) (text : pystr) : pystr :=
  match ps with
  | [] => u "RUB"
  | pattern :: rest =>
    match search pattern text fI with
    | None => currency_loop rest text
    | Some m =>
      match (match lastindex m with Some _ => g m 1 | None => g m 0 end) with
      | [] =>
        if contains (lower (g m 0)) (u "руб") || contains (lower (g m 0)) (u "rub")
        then u "RUB"
        else if contains (lower (g m 0)) (u "usd") || contains (g m 0) (u "$")
        then u "USD"
        else if contains (lower (g m 0)) (u "eur") || contains (g m 0) (u "€")
        then u "EUR"
        else currency_loop rest text
      | currency => upper currency
      end
    end
  end.

(** [_extract_currency] *)
Definition _extract_currency (text : pystr) : pystr :=
  currency_loop currency_patterns text.

(** [_extract_seller_inn] *)
Definition _extract_seller_inn (text : pystr) : option pystr :=
  first_group1 ([
  u "поставщик[^п]*?ИНН\s*[:\-]?\s*(\d{10,12})(?![^п]*покупатель)";
  u "исполнитель[^п]*?ИНН\s*[:\-]?\s*(\d{10,12})(?![^п]*покупатель)";
  u "продавец[^п]*?ИНН\s*[:\-]?\s*(\d{10,12})(?![^п]*покупатель)";
  u "поставщик[^п]*?[:\-]?[^\d]*ИНН\s*[:\-]?\s*(\d{10,12})(?![^п]*покупатель)";
  u "исполнитель[^п]*?[:\-]?[^\d]*ИНН\s*[:\-]?\s*(\d{10,12})(?![^п]*покупатель)";
  u "продавец[^п]*?[:\-]?[^\d]*ИНН\s*[:\-]?\s*(\d{10,12})(?![^п]*покупатель)" ]) text fIM.

(** [_extract_seller_kpp] *)
Definition _extract_seller_kpp (text : pystr) : option pystr :=
  first_group1 ([
  u "поставщик.*?КПП\s*(\d{9})(?!.*покупатель)";
  u "исполнитель.*?КПП\s*(\d{9})(?!.*покупатель)";
  u "продавец.*?КПП\s*(\d{9})(?!.*покупатель)";
  u "поставщик.*?ИНН\s*\d{10,12}.*?КПП\s*(\d{9})(?!.*покупатель)";
  u "исполнитель.*?ИНН\s*\d{10,12}.*?КПП\s*(\d{9})(?!.*покупатель)";
  u "продавец.*?ИНН\s*\d{10,12}.*?КПП\s*(\d{9})(?!.*покупатель)";
  u "поставщик[^п]*?КПП\s*[:\-]?\s*(\d{9})(?![^п]*покупатель)";
  u "исполнитель[^п]*?КПП\s*[:\-]?\s*(\d{9})(?![^п]*покупатель)";
  u "продавец[^п]*?КПП\s*[:\-]?\s*(\d{9})(?![^п]*покупатель)" ]) text fIM.

(** [_extract_buyer_inn] *)
Definition _extract_buyer_inn (text : pystr) : option pystr :=
  first_group1 ([
  u "покупатель[^:]*[:\-]?[^\d]*ИНН\s*[:\-]?\s*(\d{10,12})";
  u "заказчик[^:]*[:\-]?[^\d]*ИНН\s*[:\-]?\s*(\d{10,12})";
  u "клиент[^:]*[:\-]?[^\d]*ИНН\s*[:\-]?\s*(\d{10,12})" ]) text fIM.

(** [_extract_buyer_kpp] *)
Definition _extract_buyer_kpp (text : pystr) : option pystr :=
  first_group1 ([
  u "покупатель[^:]*[:\-]?[^\d]*КПП\s*[:\-]?\s*(\d{9})";
  u "заказчик[^:]*[:\-]?[^\d]*КПП\s*[:\-]?\s*(\d{9})";
  u "клиент[^:]*[:\-]?[^\d]*КПП\s*[:\-]?\s*(\d{9})" ]) text fIM.

Definition seller_address_patterns : list pystr := [
  u "поставщик.*?адрес[^:]*?[:\-]?\s*([^\n]{10,200}?)(?=\s*(?:ИНН|КПП|Тел|Телефон|Покупатель|р/с|к/с|$))";
  u "поставщик.*?КПП\s*\d{9}.*?\n\s*([0-9]{5,6}[^\n]{10,200}?)(?=\s*(?:Тел|Телефон|р/с|к/с|Покупатель|$))";
  u "поставщик.*?ИНН\s*\d{10,12}.*?КПП\s*\d{9}.*?\n\s*([0-9]{5,6}[^\n]{10,200}?)(?=\s*(?:Тел|Телефон|р/с|к/с|Покупатель|$))";
  u "поставщик.*?КПП\s*\d{9}\s+([0-9]{5,6}[^\n]{10,200}?)(?=\s*(?:Тел|Телефон|р/с|к/с|Покупатель|$))";
  u "поставщик.*?КПП\s*\d{9}.*?([0-9]{5,6}[^\n]{10,200}?)(?=\s*(?:Тел|Телефон|р/с|к/с|Покупатель|$))";
  u "поставщик.*?КПП\s*\d{9}(.*?)(?=покупатель|$)" ].

(** The narrowing applied to a match of the last, loosest pattern
    (lines 828-837); [None] is [continue]. *)
Definition narrow_address (address : pystr) : option pystr :=
  match search (u "([0-9]{5,6}[^\n]{10,200}?)(?=\s*(?:Тел|Телефон|р/с|к/с|Покупатель|$))") address fI with
  | Some address_match => Some (strip (g address_match 1))
  | None =>
    match search (u "([0-9]{5,6}.*?(?:область|обл|город|г\.|ул\.|улица|д\.|дом|офис|помещ).{10,200}?)(?=\s*(?:Тел|Телефон|р/с|к/с|Покупатель|$))") address fI with
    | Some address_match => Some (strip (g address_match 1))
    | None => None
    end
  end.

Fixpoint seller_address_loop (ps : list pystr) (text : pystr) : option pystr :=
  match ps with
  | [] => None
  | pattern :: rest =>
    match search pattern text fIMS with
    | None => seller_address_loop rest text
    | Some m =>
      let address := strip (g m 1) in
      let address := sub (u "\s+") (u " ") address no_flags in
      let address := sub (u "\n+") (u " ") address no_flags in
      match (match rest with [] => narrow_address address | _ => Some address end) with
      | None => seller_address_loop rest text
      | Some address =>
        if 10 <? length address then Some address else seller_address_loop rest text
      end
    end
  end.

(** [_extract_seller_address] *)
Definition _extract_seller_address (text : pystr) : option pystr :=
  seller_address_loop seller_address_patterns text.

Definition seller_phone_patterns : list pystr := [
  u "поставщик.*?тел[^:]*?[:\-]?\s*([+\d\s\-\(\)]{7,20})(?!.*покупатель)";
  u "поставщик.*?телефон[^:]*?[:\-]?\s*([+\d\s\-\(\)]{7,20})(?!.*покупатель)";
  u "поставщик.*?КПП\s*\d{9}.*?([0-9]{5,6}.*?)([8]\d{10})(?!.*покупатель)";
  u "поставщик.*?[0-9]{5,6}.*?([8]\d{10})(?!.*покупатель)" ].

Fixpoint seller_phone_loop (ps : list pystr) (text : pystr) (buyer_phone : option pystr)
  (buyer_keyword_pos : nat) : option pystr :=
  match ps with
  | [] => None
  | pattern :: rest =>
    match search pattern text fIMS with
    | None => seller_phone_loop rest text buyer_phone buyer_keyword_pos
    | Some m =>
      let phone := if 2 <=? lastindex_n m then strip (g m 2) else strip (g m 1) in
      let phone := sub (u "\s+") [] phone no_flags in
      if startswith phone (u "8") && (length phone =? 11) then
        let phone_start_pos := m_start m in
        if buyer_keyword_pos <? phone_start_pos
        then seller_phone_loop rest text buyer_phone buyer_keyword_pos
        else if truthy buyer_phone
                && eqs phone (match buyer_phone with Some b => b | None => [] end)
        then seller_phone_loop rest text buyer_phone buyer_keyword_pos
        else
          match find (lower text) (u "поставщик") with
          | Some seller_keyword_pos =>
            if seller_keyword_pos + 500 <? phone_start_pos
            then seller_phone_loop rest text buyer_phone buyer_keyword_pos
            else Some phone
          | None => Some phone
          end
      else seller_phone_loop rest text buyer_phone buyer_keyword_pos
    end
  end.

(** [_extract_seller_phone] *)
Definition _extract_seller_phone (text : pystr) (buyer_phone : option pystr) : option pystr :=
  let buyer_keyword_pos :=
    match find (lower text) (u "покупатель") with
    | Some p => p
    | None => length text
    end in
  seller_phone_loop seller_phone_patterns text buyer_phone buyer_keyword_pos.

Fixpoint buyer_address_loop (ps : list pystr) (text : pystr) : option pystr :=
  match ps with
  | [] => None
  | pattern :: rest =>
    match search pattern text fIMS with
    | None => buyer_address_loop rest text
    | Some m =>
      let address := sub (u "\s+") (u " ") (strip (g m 1)) no_flags in
      if 10 <? length address then Some address else buyer_address_loop rest text
    end
  end.

(** [_extract_buyer_address] *)
Definition _extract_buyer_address (text : pystr) : option pystr :=
  buyer_address_loop ([
  u "покупатель[^:]*?адрес[^:]*?[:\-]?\s*([^\n]{10,200}?)(?=\s*(?:ИНН|КПП|Тел|Телефон|$))";
  u "покупатель[^:]*?[:\-]?\s*[^\n]*?ИНН[^\n]*?КПП[^\n]*?([0-9]{5,6}[^\n]{10,150}?)(?=\s*(?:Тел|Телефон|$))";
  u "покупатель[^:]*?[:\-]?\s*[^\n]*?КПП[^\n]*?([0-9]{5,6}[^\n]{10,150}?)(?=\s*(?:Тел|Телефон|$))" ]) text.

Fixpoint buyer_phone_loop (ps : list pystr) (text : pystr) : option pystr :=
  match ps with
  | [] => None
  | pattern :: rest =>
    match search pattern text fIM with
    | Some m => Some (sub (u "\s+") (u " ") (strip (g m 1)) no_flags)
    | None => buyer_phone_loop rest text
    end
  end.

(** [_extract_buyer_phone] *)
Definition _extract_buyer_phone (text : pystr) : option pystr :=
  buyer_phone_loop ([
  u "покупатель[^:]*?тел[^:]*?[:\-]?\s*([+\d\s\-\(\)]{7,20})";
  u "покупатель[^:]*?телефон[^:]*?[:\-]?\s*([+\d\s\-\(\)]{7,20})";
  u "покупатель[^:]*?[:\-]?\s*[^\n]*?([8]\s*[\(\-]?\s*\d{3}\s*[\)\-]?\s*\d{3}[\s\-]?\d{2}[\s\-]?\d{2})" ]) text.

(** *** The line-item scan ([_extract_items]) *)

(** A number kept as text: a captured string, or [str(x)] of a float [x]
    (line 598); [float(str(x))] is [x] again. *)
Inductive numtext :=
| Text (s : pystr)
| Repr (f : spec_float).

(** An entry of [items]: a missing key and a [None] value are both [None]
    here, which [dict.get] does not tell apart either. *)
Record raw_item := {
  i_number : option pystr;
  i_name : pystr;
  i_unit : option pystr;
  i_quantity : option pystr;
  i_delivery_terms : option pystr;
  i_price_without_vat : option numtext;
  i_amount_without_vat : option pystr;
  i_vat_amount : option pystr;
  i_total_with_vat : option pystr
}.

Definition items_start_keywords_priority : list pystr := [
  u "перечень\s+товаров";
  u "перечень\s+товаров.*работ.*услуг";
  u "заказные\s+позиции";
  u "позиции\s+заказа";
  u "товар";
  u "товары";
  u "услуг";
  u "работ";
  u "контрактное\s+производство";
  u "счет.*договор.*товар" ].

Definition items_start_keywords_secondary : list pystr := [
  u "наименование\s+товара";
  u "наименование\s+товаров";
  u "наименование.*работ.*услуг";
  u "наименование";
  u "№\s*\d+";
  u "описание" ].

Definition items_end_keywords : list pystr := [
  u "^итого\s*$";
  u "^всего\s+наименований";
  u "^ндс\s*\(";
  u "^всего\s+с\s+ндс\s*$";
  u "^всего\s+к\s+оплате";
  u "^итого\s+без\s+ндс" ].

(** [any(re.search(keyword, s, re.IGNORECASE) for keyword in kws)] *)
Definition any_search (kws : list pystr) (s : pystr) : bool :=
  existsb (fun keyword => is_some (search keyword s fI)) kws.

(** [any(keyword in s for keyword in kws)] *)
Definition any_in (kws : list pystr) (s : pystr) : bool :=
  existsb (fun keyword => contains s keyword) kws.

Definition amount_re : pystr := u "[\d\s]{3,}[,\.]\d{2}".

(** [.replace(' ', '').replace(',', '.')] *)
Definition norm (a : pystr) : pystr := replace (replace a (u " ") []) (u ",") (u ".").

(** The test of [valid_amounts] (lines 478, 542, 647). *)
Definition valid_amount (a : pystr) : bool :=
  3 <? length (replace (norm a) (u ".") []).

Definition starts_with_number (line_clean : pystr) : bool :=
  is_some (match_ (u "^\d+\s") line_clean no_flags).

Definition is_category (line_clean : pystr) : bool :=
  (10 <? length line_clean)
  && any_in [u "производство"; u "товар"; u "услуг"; u "работ"] (lower line_clean)
  && is_some (search (u "^(перечень|наименование|категория|№|номер)") line_clean fI).

Definition is_table_header (line_clean : pystr) : bool :=
  let header_keywords := [u "№"; u "изм"; u "ед."; u "ед "; u "кол-во"; u "цена"; u "сумма"] in
  3 <=? length (filter (fun keyword => contains (lower line_clean) keyword) header_keywords).

Definition total_line_re : pystr := u "^итого\s*$|^всего\s*$|итого\s+без\s+ндс|всего\s+с\s+ндс".

(** Lines 356-378: the row with the next one or two lines appended. *)
Definition combine (lines : list pystr) (i : nat) (line_clean : pystr) : pystr :=
  match nth_error lines (i + 1) with
  | None => line_clean
  | Some l1 =>
    let next_line := strip l1 in
    let should_combine :=
      (is_some (search (u "\d+") line_clean no_flags)
       || is_some (search (u "[\d\s]{1,}[,\.]\d{2}") line_clean no_flags))
      && (0 <? length next_line)
      && negb (is_some (search (u "^(итого|всего|ндс)") next_line fI))
      && negb (is_some (match_ (u "^\d+\s") next_line no_flags))
      && (length next_line <? 100) in
    if should_combine then
      let combined_line := line_clean ++ u " " ++ next_line in
      match nth_error lines (i + 2) with
      | None => combined_line
      | Some l2 =>
        let next_line2 := strip l2 in
        if negb (is_some (search (u "[\d\s]{3,}[,\.]\d{2}") combined_line no_flags))
           && negb (is_some (search (u "^(итого|всего|ндс)") next_line2 fI))
           && negb (is_some (match_ (u "^\d+\s") next_line2 no_flags))
           && (length next_line2 <? 100)
        then combined_line ++ u " " ++ next_line2
        else combined_line
      end
    else line_clean
  end.

Definition alt_pattern : pystr := u "^(\d+)\s+(.+?)\s+(\d+)\s+(шт|кг|м|м2|м3|л|г|т|ед|компл|упак|рул|лист|пог\.м|пог\s*м|шт\.)\s*\.?\s+([\d\s]{1,}[,\.]\d{2})\s+([\d\s]{1,}[,\.]\d{2})".
Definition simple_item_pattern : pystr := u "^(\d+)\s+([А-Яа-яA-Za-z0-9\s,\.\-\(\)хХмМ]{10,}?)\s+(\d+)\s+([А-Яа-яA-Za-z]{1,5})\s+([\d\s]{1,}[,\.]\d{2})\s+([\d\s]{1,}[,\.]\d{2})".
Definition item_pattern : pystr := u "^(\d+)\s+([А-Яа-яA-Za-z0-9\s,\.\-\(\)]+?)\s+([А-Яа-яA-Za-z]{1,5})\s+(\d+)\s+([^\d]{0,50}?)\s+([\d\s,\.]{3,}[,\.]\d{2})\s+([\d\s,\.]{3,}[,\.]\d{2})\s+([\d\s,\.]{3,}[,\.]\d{2})\s+([\d\s,\.]{3,}[,\.]\d{2})".
Definition item_pattern_no_terms : pystr := u "^(\d+)\s+([А-Яа-яA-Za-z0-9\s,\.\-\(\)]+?)\s+([А-Яа-яA-Za-z]{1,5})\s+(\d+)\s+([\d\s,\.]{3,}[,\.]\d{2})\s+([\d\s,\.]{3,}[,\.]\d{2})\s+([\d\s,\.]{3,}[,\.]\d{2})\s+([\d\s,\.]{3,}[,\.]\d{2})".

(** Which of the strict grammars matched: [is_simple_format],
    [is_no_terms], or neither (the full grammar). *)
Inductive grammar := SimpleFormat | NoTerms | FullGrammar.

(** Lines 380-420. *)
Definition match_row (combined_line : pystr) : option (match_obj * grammar) :=
  let alt :=
    match search alt_pattern combined_line fI with
    | Some m =>
      let name := strip (g m 2) in
      if (5 <=? length name) && negb (isdigit (strip name)) then Some m else None
    | None => None
    end in
  match alt with
  | Some m => Some (m, SimpleFormat)
  | None =>
    let simple :=
      match search simple_item_pattern combined_line no_flags with
      | Some m => if 5 <=? length (strip (g m 2)) then Some m else None
      | None => None
      end in
    match simple with
    | Some m => Some (m, SimpleFormat)
    | None =>
      match search item_pattern combined_line no_flags with
      | Some m => Some (m, FullGrammar)
      | None =>
        match search item_pattern_no_terms combined_line no_flags with
        | Some m => Some (m, NoTerms)
        | None => None
        end
      end
    end
  end.

(** Lines 424-459. *)
Definition item_of_match (m : match_obj) (gr : grammar) : raw_item :=
  match gr with
  | SimpleFormat =>
    {| i_number := Some (strip (g m 1)); i_name := strip (g m 2);
       i_quantity := Some (strip (g m 3)); i_unit := Some (strip (g m 4));
       i_price_without_vat := Some (Text (norm (g m 5)));
       i_total_with_vat := Some (norm (g m 6));
       i_amount_without_vat := Some (norm (g m 6));
       i_delivery_terms := None; i_vat_amount := None |}
  | NoTerms =>
    {| i_number := Some (strip (g m 1)); i_name := strip (g m 2);
       i_unit := Some (strip (g m 3)); i_quantity := Some (strip (g m 4));
       i_delivery_terms := None;
       i_price_without_vat := Some (Text (norm (g m 5)));
       i_amount_without_vat := Some (norm (g m 6));
       i_vat_amount := Some (norm (g m 7));
       i_total_with_vat := Some (norm (g m 8)) |}
  | FullGrammar =>
    {| i_number := Some (strip (g m 1)); i_name := strip (g m 2);
       i_unit := Some (strip (g m 3)); i_quantity := Some (strip (g m 4));
       i_delivery_terms := match g m 5 with [] => None | t => Some (strip t) end;
       i_price_without_vat := Some (Text (norm (g m 6)));
       i_amount_without_vat := Some (norm (g m 7));
       i_vat_amount := Some (norm (g m 8));
       i_total_with_vat := Some (norm (g m 9)) |}
  end.

(** [if combined_line != line_clean: i += 1] *)
Definition bump (combined_line line_clean : pystr) (i : nat) : nat :=
  if eqs combined_line line_clean then i else i + 1.

(** Lines 471-500: the loose grammar with the amounts taken by position. *)
Definition loose_row (combined_line : pystr) : option raw_item :=
  match search (u "^(\d+)\s+([А-Яа-яA-Za-z0-9\s,\.\-\(\)]{5,}?)\s+([А-Яа-яA-Za-z]{1,5})\s+(\d+)") combined_line no_flags with
  | None => None
  | Some simple_match =>
    let amounts := findall (u "([\d\s]{3,}[,\.]\d{2})") combined_line no_flags in
    let valid_amounts := filter valid_amount amounts in
    match valid_amounts with
    | a0 :: a1 :: a2 :: _ =>
      Some {| i_number := Some (strip (g simple_match 1));
              i_name := strip (g simple_match 2);
              i_unit := Some (strip (g simple_match 3));
              i_quantity := Some (strip (g simple_match 4));
              i_delivery_terms := None;
              i_price_without_vat := Some (Text (norm a0));
              i_amount_without_vat := Some (norm a1);
              i_vat_amount := Some (norm a2);
              i_total_with_vat := Some (norm (last valid_amounts [])) |}
    | _ => None
    end
  end.

(** Lines 507-525: whether a line without the fallback grammar still looks
    like a row ([fallback_match = True]). *)
Definition has_potential (combined_line : pystr) : bool :=
  let numbers := findall (u "\d+") combined_line no_flags in
  let amounts := findall (u "([\d\s]{3,}[,\.]\d{2})") combined_line no_flags in
  let large_numbers := filter (fun n => 4 <=? length n) numbers in
  if ((3 <=? length numbers) && (1 <=? length amounts))
     || (2 <=? length large_numbers)
     || (4 <=? length numbers)
  then
    let unit_match := search (u "\d+\s+([А-Яа-яA-Za-z]{1,5})\s+") combined_line no_flags in
    let known_units := [u "шт"; u "кг"; u "м"; u "л"; u "г"; u "т"; u "ед"; u "компл"; u "упак"] in
    let has_unit := is_some unit_match || any_in known_units (lower combined_line) in
    has_unit || (1 <=? length amounts) || (2 <=? length large_numbers)
  else false.

(** Lines 528-533. *)
Definition is_total_line (combined_line : pystr) : bool :=
  is_some (search (u "^(итого|всего|ндс)") (firstn 30 combined_line) fI)
  || is_some (search (u "итого\s*[:]") combined_line fI)
  || is_some (search (u "всего\s+к\s+оплате") combined_line fI)
  || is_some (search (u "в\s+том\s+числе\s+ндс") combined_line fI).

Definition second_or_one (numbers : list pystr) : pystr :=
  match numbers with
  | _ :: n1 :: _ => n1
  | _ => u "1"
  end.

Definition in_1_999 (n : pystr) : bool :=
  ((1 <=? int_of_digits n) && (int_of_digits n <=? 999))%Z.

(** [for u in known_units: if u in s: unit = u; break], from [unit = 'шт']. *)
Fixpoint first_unit (known_units : list pystr) (s : pystr) : pystr :=
  match known_units with
  | [] => u "шт"
  | un :: rest => if contains s un then un else first_unit rest s
  end.

(** Lines 538-616: the heuristic row; the item and the value left in [i]. *)
Definition heuristic_row (combined_line line_clean : pystr) (i : nat)
  : option (raw_item * nat) :=
  let numbers := findall (u "\d+") combined_line no_flags in
  let amounts := findall (u "([\d\s]{3,}[,\.]\d{2})") combined_line no_flags in
  let large_numbers := filter (fun n => 4 <=? length n) numbers in
  let valid_amounts := filter valid_amount amounts in
  let valid_amounts :=
    if (length valid_amounts <? 2) && (2 <=? length large_numbers)
    then valid_amounts
         ++ map (fun ln => ln ++ u ",00")
                (filter (fun ln => 4 <=? length ln)
                        (skipn (length large_numbers - 2) large_numbers))
    else valid_amounts in
  if ((1 <=? length valid_amounts) && (2 <=? length numbers))
     || (2 <=? length large_numbers)
  then
    let unit := first_unit [u "шт"; u "кг"; u "м"; u "л"; u "г"; u "т"; u "ед"; u "компл"; u "упак"; u "рул"; u "лист"] (lower combined_line) in
    let unit :=
      if eqs unit (u "шт") then
        match search (u "\d+\s+([А-Яа-яA-Za-z]{1,5})\s+") combined_line no_flags with
        | Some unit_match =>
          let potential_unit := lower (g unit_match 1) in
          if (length potential_unit <=? 5) && negb (isdigit potential_unit)
          then potential_unit else unit
        | None => unit
        end
      else unit in
    let (name, quantity) :=
      match search (u "([А-Яа-яA-Za-z\s]{5,}?)\s+(\d{1,3})\s+") combined_line no_flags with
      | Some name_match =>
        let potential_qty := g name_match 2 in
        if in_1_999 potential_qty then (strip (g name_match 1), potential_qty)
        else (strip (firstn 50 combined_line), second_or_one numbers)
      | None => (strip (firstn 50 combined_line), second_or_one numbers)
      end in
    let name := sub (u "^\d+\s+") [] name no_flags in
    let name := sub (u "^[|\[\]]+\s*") [] name no_flags in
    let quantity :=
      if isdigit quantity && (1000 <? int_of_digits quantity)%Z then
        match filter in_1_999 numbers with
        | small :: _ => small
        | [] => u "1"
        end
      else quantity in
    if (3 <=? length name)
       && negb (is_some (search (u "^(итого|всего|ндс|b\s+tom|всето)") (firstn 20 name) fI))
    then
      let (price, total) :=
        match valid_amounts with
        | a0 :: _ :: _ => (Some (Text (norm a0)), Some (norm (last valid_amounts [])))
        | [a0] =>
          let total := norm a0 in
          (if isdigit quantity && (0 <? int_of_digits quantity)%Z then
             match Float.float_of_str total with
             | Some total_float =>
               Some (Repr (SFdiv Float.prec Float.emax total_float
                                 (Float.of_Z (int_of_digits quantity))))
             | None => Some (Text total)
             end
           else None,
           Some total)
        | [] => (None, None)
        end in
      let skip_count := count_c combined_line 32%N - count_c line_clean 32%N + 1 in
      Some ({| i_number := Some (u "1"); i_name := firstn 200 name;
               i_quantity := Some quantity; i_unit := Some unit;
               i_delivery_terms := None;
               i_price_without_vat := price;
               i_total_with_vat := total;
               i_amount_without_vat := total;
               i_vat_amount := None |},
            if 1 <? skip_count then i + (skip_count - 1) else i)
    else None
  else None.

(** Lines 618-634: a row found by the fallback grammar. *)
Definition fallback_row (fallback_match : match_obj) (combined_line : pystr)
  : option raw_item :=
  let name_part := strip (firstn (m_start fallback_match) combined_line) in
  let name_part := sub (u "^\d+\s+") [] name_part no_flags in
  if 3 <=? length name_part then
    Some {| i_number := Some (u "1"); i_name := firstn 200 name_part;
            i_quantity := Some (strip (g fallback_match 1));
            i_unit := Some (strip (g fallback_match 2));
            i_delivery_terms := None;
            i_price_without_vat := Some (Text (norm (g fallback_match 3)));
            i_total_with_vat := Some (norm (g fallback_match 4));
            i_amount_without_vat := Some (norm (g fallback_match 4));
            i_vat_amount := None |}
  else None.

(** Lines 639-660: a description with at least one amount. *)
Definition minimal_row (line_clean : pystr) : option raw_item :=
  if is_some (search total_line_re line_clean fI) then None
  else
    match search (u "([А-Яа-яA-Za-z0-9\s,\.\-\(\)]{10,})") line_clean no_flags with
    | None => None
    | Some desc_match =>
      let desc := strip (g desc_match 1) in
      if is_some (match_ (u "^(итого|всего)") desc fI) then None
      else if 10 <? length desc then
        let amounts := findall (u "([\d\s]{3,}[,\.]\d{2})") line_clean no_flags in
        match filter valid_amount amounts with
        | [] => None
        | valid_amounts =>
          let amount := norm (last valid_amounts []) in
          let price :=
            if 2 <=? length valid_amounts
            then norm (nth (length valid_amounts - 2) valid_amounts [])
            else amount in
          let price := sub (u "[^\d\.]+$") [] price no_flags in
          let amount := sub (u "[^\d\.]+$") [] amount no_flags in
          Some {| i_number := None; i_name := firstn 200 desc;
                  i_unit := None; i_quantity := None; i_delivery_terms := None;
                  i_price_without_vat := Some (Text price);
                  i_amount_without_vat := None; i_vat_amount := None;
                  i_total_with_vat := Some amount |}
        end
      else None
    end.

(** Lines 356-660 for one candidate row: the item appended, if any, and the
    value the body leaves in the loop variable [i]. *)
Definition candidate_row (lines : list pystr) (i : nat) (line_clean : pystr)
  : option raw_item * nat :=
  let combined_line := combine lines i line_clean in
  match match_row combined_line with
  | Some (m, gr) => (Some (item_of_match m gr), bump combined_line line_clean i)
  | None =>
    match loose_row combined_line with
    | Some item => (Some item, bump combined_line line_clean i)
    | None =>
      let fallback_match := search (u "(\d+)\s+([А-Яа-яA-Za-z]{1,5})\s+([\d\s]{1,}[,\.]\d{2})\s+([\d\s]{1,}[,\.]\d{2})") combined_line no_flags in
      let found :=
        match fallback_match with
        | Some fm =>
          if is_total_line combined_line then None
          else match fallback_row fm combined_line with
               | Some item => Some (item, bump combined_line line_clean i)
               | None => None
               end
        | None =>
          if has_potential combined_line && negb (is_total_line combined_line)
          then heuristic_row combined_line line_clean i
          else None
        end in
      match found with
      | Some (item, i') => (Some item, i')
      | None => (minimal_row line_clean, i)
      end
    end
  end.

(** The variables the loop carries from one line to the next. *)
Record scan_state := {
  in_items_section : bool;
  items : list raw_item
}.

(** The way an iteration ends: the next line follows, with the state and
    the value left in [i], or [break]. *)
Inductive flow :=
| NextLine (st : scan_state) (i : nat)
| BreakLoop (st : scan_state).

Definition column_words : list pystr := [u "наименование"; u "ед"; u "кол-во"; u "цена"; u "сумма"].

(** The body of [for i, line in enumerate(lines)] (lines 302-660). *)
Definition scan_line (lines : list pystr) (st : scan_state) (i : nat) (line : pystr) : flow :=
  let line_clean := strip line in
  match line_clean with
  | [] => NextLine st i
  | _ =>
    if negb (in_items_section st) then
      if any_search items_start_keywords_priority line_clean then
        NextLine {| in_items_section := true; items := items st |} i
      else if any_search items_start_keywords_secondary line_clean then
        if any_in column_words (lower line_clean)
        then NextLine {| in_items_section := true; items := items st |} i
        else NextLine st i
      else NextLine st i
    else
      if negb (starts_with_number line_clean
               || is_some (search amount_re line_clean no_flags))
         && is_category line_clean
      then NextLine st i
      else if is_table_header line_clean && negb (starts_with_number line_clean)
      then NextLine st i
      else if any_search items_end_keywords line_clean then BreakLoop st
      else if is_some (search total_line_re line_clean fI) then NextLine st i
      else
        match candidate_row lines i line_clean with
        | (Some item, i') =>
          NextLine {| in_items_section := true; items := items st ++ [item] |} i'
        | (None, i') => NextLine st i'
        end
  end.

(** [for i, line in enumerate(lines)]: the iterator hands out every line
    with its index; the value the body left in [i] is overwritten. *)
Fixpoint for_enumerate (lines rest : list pystr) (i : nat) (st : scan_state) : scan_state :=
  match rest with
  | [] => st
  | line :: rest' =>
    match scan_line lines st i line with
    | BreakLoop st' => st'
    | NextLine st' _ => for_enumerate lines rest' (S i) st'
    end
  end.

(** [_extract_items]: [items if items else None] *)
Definition _extract_items (text : pystr) : option (list raw_item) :=
  let lines := split_c 10%N text in
  match items (for_enumerate lines lines 0
                 {| in_items_section := false; items := [] |}) with
  | [] => None
  | its => Some its
  end.

(** *** Sections of the record *)

(** [d[k] = m.group(1)] under [if m:]. *)
Definition set_group1 (d : pydict) (k : string) (m : option match_obj) : pydict :=
  match m with
  | Some mo => dict_set d k (VStr (g mo 1))
  | None => d
  end.

(** [_build_invoice_section] *)
Definition _build_invoice_section (text : pystr) (invoice_number invoice_date : option pystr)
  : pyval :=
  let invoice := [] in
  let invoice := set_if invoice "number" invoice_number in
  let invoice := set_if invoice "date" invoice_date in
  let invoice := set_group1 invoice "validity_period" (search (u "действителен\s+в\s+течение\s+(\d+\s+банковских?\s+дней?)") text fI) in
  let invoice := set_group1 invoice "title" (search (u "(СЧЁТ\s*№\s*[\d/]+\s+от\s+[\d\.]+)") text fI) in
  dict_or_none invoice.

(** [_extract_bank_details] *)
Definition _extract_bank_details (text : pystr) : pyval :=
  let bank_details := [] in
  let bank_details := set_group1 bank_details "account" (search (u "р/с\s*[:\-]?\s*(\d{20})") text fI) in
  let bank_details :=
    set_group1 bank_details "correspondent_account" (search (u "к/с\s*[:\-]?\s*(\d{20})") text fI) in
  let bank_details := set_group1 bank_details "bik" (search (u "БИК\s*[:\-]?\s*(\d{9})") text fI) in
  let bank_details :=
    match search (u "в\s+([А-Яа-я\s\" ++ dq ++ u "\(\)]+(?:Банк|Банка|ПАО|АО)[А-Яа-я\s\" ++ dq ++ u "\(\)]*)") text fI with
    | Some bank_name_match =>
      dict_set bank_details "bank_name" (VStr (strip (g bank_name_match 1)))
    | None => bank_details
    end in
  dict_or_none bank_details.

(** [_extract_contract] *)
Definition _extract_contract (text : pystr) : pyval :=
  let contract := [] in
  let contract := set_group1 contract "number" (search (u "договор[^\n]*?№\s*([\d/\-]+)") text fI) in
  let contract := set_group1 contract "date" (search (u "договор[^\n]*?от\s*(\d{2}\.\d{2}\.\d{4})") text fI) in
  dict_or_none contract.

(** [d[k] = v] under [if v:], for a section that is a mapping or [None]. *)
Definition set_section (d : pydict) (k : string) (v : pyval) : pydict :=
  match v with
  | VDict (_ :: _) => dict_set d k v
  | _ => d
  end.

(** [_build_supplier_section] *)
Definition _build_supplier_section (text : pystr) (seller_name buyer_phone : option pystr)
  : pyval :=
  let supplier := [] in
  let supplier := set_if supplier "company_name" seller_name in
  let supplier := set_if supplier "inn" (_extract_seller_inn text) in
  let supplier := set_if supplier "kpp" (_extract_seller_kpp text) in
  let supplier := set_if supplier "address" (_extract_seller_address text) in
  let supplier := set_if supplier "phone" (_extract_seller_phone text buyer_phone) in
  let supplier := set_section supplier "bank_details" (_extract_bank_details text) in
  dict_or_none supplier.

(** [_build_customer_section] *)
Definition _build_customer_section (text : pystr) (buyer_name buyer_phone : option pystr)
  : pyval :=
  let customer := [] in
  let customer := set_if customer "company_name" buyer_name in
  let customer := set_if customer "inn" (_extract_buyer_inn text) in
  let customer := set_if customer "kpp" (_extract_buyer_kpp text) in
  let customer := set_if customer "address" (_extract_buyer_address text) in
  let customer := set_if customer "phone" buyer_phone in
  let customer :=
    match _extract_contract text with
    | VDict ((_ :: _) as contract) => dict_set customer "contract" (VDict contract)
    | _ => dict_set customer "contract" (VDict [("number"%string, VNone); ("date"%string, VNone)])
    end in
  dict_or_none customer.

(** [_clean_number] on the text of a number. *)
Definition clean_numtext (value : numtext) : spec_float :=
  match value with
  | Text s => _clean_number s
  | Repr f => f
  end.

Definition truthy_num (x : option numtext) : bool :=
  match x with
  | Some (Text (_ :: _)) | Some (Repr _) => true
  | _ => false
  end.

(** [d[k] = self._clean_number(x)] under [if x:]. *)
Definition set_number (d : pydict) (k : string) (x : option pystr) : pydict :=
  match x with
  | Some ((_ :: _) as s) => dict_set d k (VFloat (_clean_number s))
  | _ => d
  end.

(** One turn of the loop of [_extract_line_items_structured]. *)
Definition line_item_of (idx : nat) (item : raw_item) : pyval :=
  let line_number :=
    match i_number item with
    | Some n => if isdigit n then int_of_digits n else Z.of_nat idx
    | None => Z.of_nat idx
    end in
  let line_item := [("line_number"%string, VInt line_number); ("product_name"%string, VStr (i_name item))] in
  let line_item := set_if line_item "unit" (i_unit item) in
  let line_item := set_number line_item "quantity" (i_quantity item) in
  let line_item := set_if line_item "delivery_terms" (i_delivery_terms item) in
  let line_item :=
    if truthy_num (i_price_without_vat item)
    then dict_set line_item "unit_price_without_vat"
           (VFloat (match i_price_without_vat item with
                    | Some v => clean_numtext v
                    | None => S754_zero false
                    end))
    else line_item in
  let line_item := set_number line_item "amount_without_vat" (i_amount_without_vat item) in
  let line_item := set_number line_item "vat_amount" (i_vat_amount item) in
  let line_item := set_number line_item "total_with_vat" (i_total_with_vat item) in
  VDict line_item.

(** [for idx, item in enumerate(items, 1)] *)
Fixpoint line_items_from (idx : nat) (its : list raw_item) : list pyval :=
  match its with
  | [] => []
  | item :: rest => line_item_of idx item :: line_items_from (S idx) rest
  end.

(** [_extract_line_items_structured] *)
Definition _extract_line_items_structured (text : pystr) : pyval :=
  match _extract_items text with
  | None | Some [] => VList []
  | Some its => VList (line_items_from 1 its)
  end.

(** [_extract_total_in_words] *)
Definition _extract_total_in_words (text : pystr) : option pystr :=
  match search (u "([А-Яа-я\s]+тысяч[а-я]*\s+[А-Яа-я\s]+рубл[а-я]+\s+\d+\s+копеек)") text fI with
  | Some m => Some (strip (g m 1))
  | None =>
    match search (u "([А-Яа-я\s]+рубл[а-я]+\s+\d+\s+копеек)") text fI with
    | Some match2 => Some (strip (g match2 1))
    | None => None
    end
  end.

(** [_build_financial_summary] *)
Definition _build_financial_summary (self : extractor) (text : pystr) : pyval :=
  let summary := [] in
  let summary :=
    match search (u "итого\s+без\s+ндс[^\d]*?([\d\s,\.]{3,}[,\.]\d{2})") text fI with
    | Some total_match =>
      dict_set summary "subtotal_without_vat" (VFloat (_clean_number (g total_match 1)))
    | None => summary
    end in
  let summary :=
    match _extract_vat text with
    | Some (rate, amount) =>
      dict_set (dict_set summary "vat_rate" (VStr (rate ++ u "%")))
               "vat_amount" (VFloat (_clean_number amount))
    | None => summary
    end in
  let summary :=
    match search (u "всего\s+с\s+ндс[^\d]*?([\d\s,\.]{3,}[,\.]\d{2})") text fI with
    | Some total_with_vat_match =>
      dict_set summary "total_with_vat" (VFloat (_clean_number (g total_with_vat_match 1)))
    | None => set_number summary "total_with_vat" (_extract_field self text total_amount)
    end in
  let summary := set_if summary "total_in_words" (_extract_total_in_words text) in
  let summary :=
    match _extract_currency text with
    | [] => dict_set summary "currency" (VStr (u "RUB"))
    | currency => dict_set summary "currency" (VStr (upper currency))
    end in
  dict_or_none summary.

(** [_extract_signatories] *)
Definition _extract_signatories (text : pystr) : pyval :=
  let signatories := [] in
  let signatories := set_group1 signatories "sales_director" (search (u "директор\s+по\s+продажам[^\n]*?([А-ЯЁ][а-яё]+\s+[А-ЯЁ]\.\s*[А-ЯЁ]\.)") text fI) in
  let signatories := set_group1 signatories "chief_accountant" (search (u "главный\s+бухгалтер[^\n]*?([А-ЯЁ][а-яё]+\s+[А-ЯЁ]\.\s*[А-ЯЁ]\.)") text fI) in
  let signatories := set_group1 signatories "issued_by" (search (u "выписал[^\n]*?([А-ЯЁ][а-яё]+\s+[А-ЯЁ]\.\s*[А-ЯЁ]\.)") text fI) in
  dict_or_none signatories.

(** [_extract_terms_and_conditions] *)
Definition _extract_terms_and_conditions (text : pystr) : pyval :=
  let terms :=
    flat_map (fun m =>
                let number := g m 1 in
                let text_content := sub (u "\s+") (u " ") (strip (g m 2)) no_flags in
                if 20 <? length text_content
                then [VDict [("number"%string, VInt (int_of_digits number));
                             ("text"%string, VStr text_content)]]
                else [])
             (finditer (u "(\d+)\.\s+([^\n]{20,500}?)(?=\d+\.|$)") text fIMS) in
  match terms with
  | [] => VNone
  | _ => VList terms
  end.

(** [_extract_additional_info] *)
Definition _extract_additional_info (text : pystr) : pyval :=
  let info := [] in
  let info :=
    match search (u "самовывоз[^\n]*?([А-Яа-я\s,\.\d]{20,150})") text fI with
    | Some pickup_match => dict_set info "pickup_address" (VStr (strip (g pickup_match 1)))
    | None => info
    end in
  let info := set_group1 info "pickup_contact" (search (u "контактным\s+лицом[^\n]*?([А-ЯЁ][а-яё]+\s+[А-ЯЁ][а-яё]+)") text fI) in
  let info := set_group1 info "pickup_phone" (search (u "тел\.\s*([8]\d{10})") text fI) in
  dict_or_none info.

(** Whether [_clean_result] drops a value: [None], [{}] or [[]]. *)
Definition is_blank (v : pyval) : bool :=
  match v with
  | VNone | VDict [] | VList [] => true
  | _ => false
  end.

(** [_clean_result] *)
Definition _clean_result (result : pydict) : pydict :=
  filter (fun kv => negb (is_blank (snd kv))) result.

(** [extract_invoice_data]; [tables] and [pdf_path] are not used by the
    body. *)
Definition extract_invoice_data (self : extractor) (text : pystr) : pydict :=
  let text_clean := _preprocess_text text in
  let buyer_phone := _extract_buyer_phone text_clean in
  let invoice_number := _extract_field self text_clean invoice_number in
  let invoice_date := _extract_field self text_clean date in
  let seller_name := _extract_field self text_clean seller in
  let buyer_name := _extract_field self text_clean buyer in
  let result := [
    ("invoice"%string, _build_invoice_section text_clean invoice_number invoice_date);
    ("supplier"%string, _build_supplier_section text_clean seller_name buyer_phone);
    ("customer"%string, _build_customer_section text_clean buyer_name buyer_phone);
    ("line_items"%string, _extract_line_items_structured text_clean);
    ("financial_summary"%string, _build_financial_summary self text_clean);
    ("signatories"%string, _extract_signatories text_clean);
    ("terms_and_conditions"%string, _extract_terms_and_conditions text_clean);
    ("additional_info"%string, _extract_additional_info text_clean) ] in
  _clean_result result.

End Extractor.

(** ** Part V. [PDFProcessor] ([src/app/pdf_processor.py])

    The PDF readers, the rasterizer, OpenCV and Tesseract are collaborators:
    a document or an image is given by what they return for it. *)

Module Pdf.

(** The outcome of a call that may raise. *)
Inductive result (A : Type) :=
| Ok (a : A)
| Raised.

Arguments Ok {A} a.
Arguments Raised {A}.

(** The bitmap handed to Tesseract: [img_processed] or [img]. *)
Inductive source := Preprocessed | Original.

(** A call [pytesseract.image_to_string(.., lang='rus+eng', config='--psm n')]. *)
Definition ocr_call := (source * nat)%type.

(** A page image: whether the numpy and OpenCV steps go through, and what
    Tesseract returns for each bitmap and segmentation mode. *)
Record bitmap := {
  preprocess : result unit;
  image_to_string : source -> nat -> result pystr
}.

(** [for psm_mode in [6, 11, 12]] (lines 107-119, 162-173, 265-278), with
    the calls made. *)
Fixpoint psm_loop (img : bitmap) (modes : list nat) (text : pystr) (calls : list ocr_call)
  : pystr * list ocr_call :=
  match modes with
  | [] => (text, calls)
  | psm_mode :: rest =>
    match image_to_string img Preprocessed psm_mode with
    | Ok text' =>
      if 50 <? length (strip text')
      then (text', calls ++ [(Preprocessed, psm_mode)])
      else psm_loop img rest text' (calls ++ [(Preprocessed, psm_mode)])
    | Raised => psm_loop img rest text (calls ++ [(Preprocessed, psm_mode)])
    end
  end.

(** [not text or len(text.strip()) < 10] *)
Definition too_short (text : pystr) : bool :=
  match text with
  | [] => true
  | _ => length (strip text) <? 10
  end.

(** The recognition of one prepared bitmap (lines 106-132, 162-183,
    264-292): the text and the calls made. *)
Definition recognize (img : bitmap) : pystr * list ocr_call :=
  let (text, calls) := psm_loop img [6; 11; 12] [] [] in
  if too_short text then
    match image_to_string img Original 6 with
    | Ok text' => (text', calls ++ [(Original, 6)])
    | Raised => (text, calls ++ [(Original, 6)])
    end
  else (text, calls).

(** A document, by what each collaborator gives for it:
    [page.extract_text()] for every page of [pdfplumber.open(..).pages] and
    of [PyPDF2.PdfReader(..).pages]; [convert_from_path] for one page and
    for the whole file. *)
Record pdf := {
  pdfplumber_pages : result (list (result (option pystr)));
  pypdf2_pages : result (list (result (option pystr)));
  convert_page : nat -> result (list bitmap);
  convert_all : result (list bitmap)
}.

Definition nl : pystr := [10%N].

Fixpoint digits_of (fuel : nat) (n : N) (acc : pystr) : pystr :=
  match fuel with
  | O => acc
  | S f =>
    let acc' := (48 + n mod 10)%N :: acc in
    if (n <? 10)%N then acc' else digits_of f (n / 10)%N acc'
  end.

(** [str(n)] *)
Definition str_of_nat (n : nat) : pystr := digits_of (S n) (N.of_nat n) [].

(** [f"--- Страница {page_num} ---\n{text}\n"] *)
Definition page_block (page_num : nat) (text : pystr) : pystr :=
  u "--- Страница " ++ str_of_nat page_num ++ u " ---" ++ nl ++ text ++ nl.

(** [sep.join(parts)] *)
Fixpoint join (sep : pystr) (parts : list pystr) : pystr :=
  match parts with
  | [] => []
  | [p] => p
  | p :: rest => p ++ sep ++ join sep rest
  end.

(** [_extract_text_with_ocr_from_page] *)
Definition _extract_text_with_ocr_from_page (doc : pdf) (page_num : nat) : pystr :=
  match convert_page doc page_num with
  | Raised => []
  | Ok [] => []
  | Ok (img :: _) =>
    match preprocess img with
    | Raised => []
    | Ok _ => fst (recognize img)
    end
  end.

(** What happened to a page in a pass over a native reader. *)
Inductive event :=
| KeptNative (page_num : nat)
| PageOcr (page_num : nat)
| FullOcr.

(** [text and len(text.strip()) > 50] *)
Definition native_ok (text : option pystr) : bool :=
  match text with
  | Some ((_ :: _) as t) => 50 <? length (strip t)
  | _ => false
  end.

(** The variables of the loop over the pages. *)
Record pass_state := {
  full_text : list pystr;
  total_text_length : nat;
  events : list event
}.

(** The loop over the pages of one reader (lines 27-38 and 54-64);
    [Raised] when [extract_text] of a page raises. *)
Fixpoint pages_loop (doc : pdf) (pages : list (result (option pystr))) (page_num : nat)
  (st : pass_state) : result pass_state * list event :=
  match pages with
  | [] => (Ok st, events st)
  | Raised :: _ => (Raised, events st)
  | Ok text :: rest =>
    if native_ok text then
      let t := match text with Some t => t | None => [] end in
      pages_loop doc rest (S page_num)
        {| full_text := full_text st ++ [page_block page_num t];
           total_text_length := total_text_length st + length (strip t);
           events := events st ++ [KeptNative page_num] |}
    else
      match _extract_text_with_ocr_from_page doc page_num with
      | [] =>
        pages_loop doc rest (S page_num)
          {| full_text := full_text st;
             total_text_length := total_text_length st;
             events := events st ++ [PageOcr page_num] |}
      | t =>
        pages_loop doc rest (S page_num)
          {| full_text := full_text st ++ [page_block page_num t];
             total_text_length := total_text_length st + length (strip t);
             events := events st ++ [PageOcr page_num] |}
      end
  end.

(** One [try] block of [extract_text]: the text returned, if the block
    returns, and what was done to the pages. *)
Definition native_pass (doc : pdf) (reader : result (list (result (option pystr))))
  : option pystr * list event :=
  match reader with
  | Raised => (None, [])
  | Ok pages =>
    match pages_loop doc pages 1
            {| full_text := []; total_text_length := 0; events := [] |} with
    | (Raised, evs) => (None, evs)
    | (Ok st, evs) =>
      let result := join nl (full_text st) in
      if (0 <? length (strip result)) && (100 <? total_text_length st)
      then (Some result, evs)
      else (None, evs)
    end
  end.

(** The loop of [_extract_text_with_ocr_full]; [Raised] when a page cannot
    be prepared. *)
Fixpoint full_loop (images : list bitmap) (page_num : nat) (acc : list pystr)
  : result (list pystr) :=
  match images with
  | [] => Ok acc
  | img :: rest =>
    match preprocess img with
    | Raised => Raised
    | Ok _ =>
      match fst (recognize img) with
      | [] => full_loop rest (S page_num) acc
      | t => full_loop rest (S page_num) (acc ++ [page_block page_num t])
      end
    end
  end.

(** [_extract_text_with_ocr_full] *)
Definition _extract_text_with_ocr_full (doc : pdf) : pystr :=
  match convert_all doc with
  | Raised => []
  | Ok images =>
    match full_loop images 1 [] with
    | Raised => []
    | Ok acc => join nl acc
    end
  end.

(** [extract_text], with what was done to the pages. *)
Definition extract_text_log (doc : pdf) : pystr * list event :=
  match native_pass doc (pdfplumber_pages doc) with
  | (Some result, evs) => (result, evs)
  | (None, evs1) =>
    match native_pass doc (pypdf2_pages doc) with
    | (Some result, evs2) => (result, evs1 ++ evs2)
    | (None, evs2) => (_extract_text_with_ocr_full doc, evs1 ++ evs2 ++ [FullOcr])
    end
  end.

(** [extract_text] *)
Definition extract_text (doc : pdf) : pystr := fst (extract_text_log doc).

(** What a pass keeps of a page: the native text when it passes the bar,
    else what OCR of that page gives, if anything; and what was done. *)
Definition page_choice (doc : pdf) (page_num : nat) (text : option pystr)
  : option pystr * event :=
  if native_ok text then (text, KeptNative page_num)
  else (match _extract_text_with_ocr_from_page doc page_num with
        | [] => None
        | t => Some t
        end, PageOcr page_num).

(** The blocks a pass collects from the pages numbered from [page_num]. *)
Fixpoint blocks (doc : pdf) (page_num : nat) (texts : list (option pystr)) : list pystr :=
  match texts with
  | [] => []
  | text :: rest =>
    match fst (page_choice doc page_num text) with
    | Some t => page_block page_num t :: blocks doc (S page_num) rest
    | None => blocks doc (S page_num) rest
    end
  end.

(** The sum of the trimmed lengths of the texts a pass keeps. *)
Fixpoint kept_length (doc : pdf) (page_num : nat) (texts : list (option pystr)) : nat :=
  match texts with
  | [] => 0
  | text :: rest =>
    match fst (page_choice doc page_num text) with
    | Some t => length (strip t) + kept_length doc (S page_num) rest
    | None => kept_length doc (S page_num) rest
    end
  end.

Fixpoint page_events (doc : pdf) (page_num : nat) (texts : list (option pystr)) : list event :=
  match texts with
  | [] => []
  | text :: rest => snd (page_choice doc page_num text) :: page_events doc (S page_num) rest
  end.

Definition is_original (c : ocr_call) : bool :=
  match fst c with Original => true | Preprocessed => false end.

(** [extract_text_from_image]; the argument is what [Image.open] gives. *)
Definition extract_text_from_image (image : result bitmap) : result pystr :=
  match image with
  | Raised => Raised
  | Ok img =>
    match preprocess img with
    | Raised => Raised
    | Ok _ => Ok (fst (recognize img))
    end
  end.

End Pdf.

(** ** Part VI. The image endpoint ([src/app/main.py], [process_image]) *)

Module Main.

Import Pdf.

(** What the handler answers: an [HTTPException], or a [JSONResponse] with
    its status code and the members [success] and [data]. *)
Inductive reply :=
| HttpError (status_code : nat)
| Json (status_code : nat) (success : bool) (data : pydict).

(** A request, with what the collaborators give for it: the uploaded file
    as [Image.open] sees it, the [user_id] parameter, and the identifier
    the database assigns on commit (or the exception it raises). *)
Record request := {
  filename : pystr;
  image : result bitmap;
  user_id : option Z;
  db_commit : result Z
}.

Definition allowed_extensions : list pystr :=
  [u ".jpg"; u ".jpeg"; u ".png"; u ".bmp"; u ".tiff"; u ".tif"].

(** The index of the last occurrence of [c] in [s]. *)
Fixpoint rindex (c : char) (s : pystr) (i : nat) (acc : option nat) : option nat :=
  match s with
  | [] => acc
  | x :: t => rindex c t (S i) (if (x =? c)%N then Some i else acc)
  end.

(** [os.path.splitext(p)[1]]: from the last dot of the last path
    component, unless only dots precede it there. *)
Definition splitext_ext (p : pystr) : pystr :=
  let base_start := match rindex 47%N p 0 None with Some i => S i | None => 0 end in
  match rindex 46%N p 0 None with
  | Some d =>
    if (base_start <=? d)
       && negb (forallb (fun x => (x =? 46)%N) (slice p base_start d))
    then skipn d p
    else []
  | None => []
  end.

(** [process_image]; the module-level [data_extractor] is
    [InvoiceDataExtractor()]. *)
Definition process_image (req : request) : reply :=
  let file_ext := splitext_ext (lower (filename req)) in
  if negb (existsb (eqs file_ext) allowed_extensions) then HttpError 400
  else
    match extract_text_from_image (image req) with
    | Raised => Json 500 false []
    | Ok text =>
      if too_short text then Json 400 false []
      else
        let structured_data :=
          Extractor.extract_invoice_data Extractor.default_extractor text in
        match user_id req with
        | Some uid =>
          if (uid =? 0)%Z then Json 200 true structured_data
          else
            match db_commit req with
            | Raised => Json 500 false []
            | Ok invoice_id =>
              Json 200 true (dict_set structured_data "invoice_id" (VInt invoice_id))
            end
        | None => Json 200 true structured_data
        end
    end.

End Main.

(** ** Part VII. Notions used in the statements *)

(** *** What a successful match is, without the search order *)

Module ReSem.

(** The state after group [idx], opened in [st], closes in [st1]. *)
Definition close_group (idx : nat) (st st1 : mstate) : mstate :=
  {| st_pos := st_pos st1; st_rest := st_rest st1; st_prev := st_prev st1;
     st_caps := (idx, (st_pos st, st_pos st1)) :: st_caps st1 |}.

(** The state after a lookahead that succeeded in [st1]. *)
Definition keep_caps (st st1 : mstate) : mstate :=
  {| st_pos := st_pos st; st_rest := st_rest st; st_prev := st_prev st;
     st_caps := st_caps st1 |}.

(** [matches fl r st st']: [r] can take the matcher from [st] to [st']. *)
Inductive matches (fl : flags) : regex -> mstate -> mstate -> Prop :=
| M_empty st : matches fl REmpty st st
| M_char p c t st :
    st_rest st = c :: t -> char_eq (IGNORECASE fl) p c = true ->
    matches fl (RChar p) st (advance st c t)
| M_any c t st :
    st_rest st = c :: t ->
    matches fl RAny st (advance st c t)
| M_set neg items c t st :
    st_rest st = c :: t -> set_match (IGNORECASE fl) neg items c = true ->
    matches fl (RSet neg items) st (advance st c t)
| M_cat a b st st1 st2 :
    matches fl a st st1 -> matches fl b st1 st2 -> matches fl (RCat a b) st st2
| M_alt_l a b st st1 : matches fl a st st1 -> matches fl (RAlt a b) st st1
| M_alt_r a b st st1 : matches fl b st st1 -> matches fl (RAlt a b) st st1
| M_rep_done hi gr a st : matches fl (RRepeat 0 hi gr a) st st
| M_rep_more lo hi gr a st st1 st2 :
    matches fl a st st1 -> matches fl (RRepeat (pred lo) hi gr a) st1 st2 ->
    matches fl (RRepeat lo hi gr a) st st2
| M_group idx a st st1 :
    matches fl a st st1 -> matches fl (RGroup idx a) st (close_group idx st st1)
| M_bol st : at_bol fl st = true -> matches fl RBol st st
| M_eol st : at_eol fl st = true -> matches fl REol st st
| M_look_neg a st : matches fl (RLook true a) st st
| M_look_pos a st st1 :
    matches fl a st st1 -> matches fl (RLook false a) st (keep_caps st st1).

(** The least number of characters a match of [r] consumes. *)
Fixpoint min_len (r : regex) : nat :=
  match r with
  | RChar _ | RAny | RSet _ _ => 1
  | RCat a b => min_len a + min_len b
  | RAlt a b => Nat.min (min_len a) (min_len b)
  | RRepeat lo _ _ a => lo * min_len a
  | RGroup _ a => min_len a
  | _ => 0
  end.

Definition inb (n : nat) (l : list nat) : bool := existsb (Nat.eqb n) l.

(** The groups that take part in every match of [r]. *)
Fixpoint always (r : regex) : list nat :=
  match r with
  | RCat a b => always a ++ always b
  | RAlt a b => filter (fun i => inb i (always b)) (always a)
  | RRepeat (S _) _ _ a => always a
  | RGroup idx a => idx :: always a
  | RLook false a => always a
  | _ => []
  end.

(** Groups [1..n] take part in every match of the pattern [pat]. *)
Definition takes_part (n : nat) (pat : pystr) : bool :=
  match re_compile pat with
  | Some r => forallb (fun i => inb i (always r)) (seq 1 n)
  | None => false
  end.

(** Group [i] is closed in [st]. *)
Definition has_group (i : nat) (st : mstate) : Prop := span_of i (st_caps st) <> None.

(** What is known of a match object found by the engine for [r] in [text]
    at or after position [p]. *)
Definition found (r : regex) (text : pystr) (p : nat) (m : match_obj) : Prop :=
  m_text m = text
  /\ p <= m_start m
  /\ m_start m + min_len r <= m_end m
  /\ m_end m <= length text
  /\ forall i, In i (always r) -> span_of i (m_caps m) <> None.

End ReSem.

(** *** The groups the extractor reads *)

Module Groups.

Import Extractor ReSem.

(** The number of capturing groups of a pattern, [re.compile(p).groups]. *)
Fixpoint groups_of (r : regex) : nat :=
  match r with
  | RCat a b | RAlt a b => groups_of a + groups_of b
  | RRepeat _ _ _ a | RLook _ a => groups_of a
  | RGroup _ a => S (groups_of a)
  | _ => 0
  end.

Definition groups (pat : pystr) : nat :=
  match re_compile pat with Some r => groups_of r | None => 0 end.

(** The pattern compiles and each of its groups takes part in every match:
    [m.group(i)] is never [None]. *)
Definition all_take_part (pat : pystr) : bool :=
  match re_compile pat with
  | Some _ => takes_part (groups pat) pat
  | None => false
  end.

(** The patterns of [self.patterns] and of the pattern lists of the
    methods. *)
Definition listed_patterns : list pystr :=
  flat_map patterns [invoice_number; date; seller; buyer; inn; kpp; total_amount; vat]
  ++ buyer_patterns ++ seller_patterns ++ vat_patterns ++ currency_patterns
  ++ seller_address_patterns ++ seller_phone_patterns
  ++ [alt_pattern; simple_item_pattern; item_pattern; item_pattern_no_terms].

(** The patterns written at the call of [re.search], [re.match] or
    [re.finditer]. *)
Definition inline_patterns : list pystr := [
    u "(\d+)\.\s+([^\n]{20,500}?)(?=\d+\.|$)";
    u "([А-Яа-я\s]+тысяч[а-я]*\s+[А-Яа-я\s]+рубл[а-я]+\s+\d+\s+копеек)";
    u "([А-Яа-я\s]+рубл[а-я]+\s+\d+\s+копеек)";
    u "поставщик[^п]*?[:\-]?[^\d]*ИНН\s*[:\-]?\s*(\d{10,12})(?![^п]*покупатель)";
    u "исполнитель[^п]*?[:\-]?[^\d]*ИНН\s*[:\-]?\s*(\d{10,12})(?![^п]*покупатель)";
    u "продавец[^п]*?[:\-]?[^\d]*ИНН\s*[:\-]?\s*(\d{10,12})(?![^п]*покупатель)";
    u "поставщик.*?КПП\s*(\d{9})(?!.*покупатель)";
    u "исполнитель.*?КПП\s*(\d{9})(?!.*покупатель)";
    u "продавец.*?КПП\s*(\d{9})(?!.*покупатель)";
    u "поставщик.*?ИНН\s*\d{10,12}.*?КПП\s*(\d{9})(?!.*покупатель)";
    u "исполнитель.*?ИНН\s*\d{10,12}.*?КПП\s*(\d{9})(?!.*покупатель)";
    u "продавец.*?ИНН\s*\d{10,12}.*?КПП\s*(\d{9})(?!.*покупатель)";
    u "покупатель[^:]*[:\-]?[^\d]*ИНН\s*[:\-]?\s*(\d{10,12})";
    u "заказчик[^:]*[:\-]?[^\d]*ИНН\s*[:\-]?\s*(\d{10,12})";
    u "клиент[^:]*[:\-]?[^\d]*ИНН\s*[:\-]?\s*(\d{10,12})";
    u "покупатель[^:]*[:\-]?[^\d]*КПП\s*[:\-]?\s*(\d{9})";
    u "заказчик[^:]*[:\-]?[^\d]*КПП\s*[:\-]?\s*(\d{9})";
    u "клиент[^:]*[:\-]?[^\d]*КПП\s*[:\-]?\s*(\d{9})";
    u "покупатель[^:]*?адрес[^:]*?[:\-]?\s*([^\n]{10,200}?)(?=\s*(?:ИНН|КПП|Тел|Телефон|$))";
    u "покупатель[^:]*?[:\-]?\s*[^\n]*?ИНН[^\n]*?КПП[^\n]*?([0-9]{5,6}[^\n]{10,150}?)(?=\s*(?:Тел|Телефон|$))";
    u "покупатель[^:]*?[:\-]?\s*[^\n]*?КПП[^\n]*?([0-9]{5,6}[^\n]{10,150}?)(?=\s*(?:Тел|Телефон|$))";
    u "покупатель[^:]*?тел[^:]*?[:\-]?\s*([+\d\s\-\(\)]{7,20})";
    u "покупатель[^:]*?телефон[^:]*?[:\-]?\s*([+\d\s\-\(\)]{7,20})";
    u "покупатель[^:]*?[:\-]?\s*[^\n]*?([8]\s*[\(\-]?\s*\d{3}\s*[\)\-]?\s*\d{3}[\s\-]?\d{2}[\s\-]?\d{2})";
    u "действителен\s+в\s+течение\s+(\d+\s+банковских?\s+дней?)";
    u "(СЧЁТ\s*№\s*[\d/]+\s+от\s+[\d\.]+)";
    u "итого\s+без\s+ндс[^\d]*?([\d\s,\.]{3,}[,\.]\d{2})";
    u "всего\s+с\s+ндс[^\d]*?([\d\s,\.]{3,}[,\.]\d{2})";
    u "директор\s+по\s+продажам[^\n]*?([А-ЯЁ][а-яё]+\s+[А-ЯЁ]\.\s*[А-ЯЁ]\.)";
    u "главный\s+бухгалтер[^\n]*?([А-ЯЁ][а-яё]+\s+[А-ЯЁ]\.\s*[А-ЯЁ]\.)";
    u "выписал[^\n]*?([А-ЯЁ][а-яё]+\s+[А-ЯЁ]\.\s*[А-ЯЁ]\.)";
    u "самовывоз[^\n]*?([А-Яа-я\s,\.\d]{20,150})";
    u "контактным\s+лицом[^\n]*?([А-ЯЁ][а-яё]+\s+[А-ЯЁ][а-яё]+)";
    u "тел\.\s*([8]\d{10})";
    u "р/с\s*[:\-]?\s*(\d{20})";
    u "к/с\s*[:\-]?\s*(\d{20})";
    u "БИК\s*[:\-]?\s*(\d{9})";
    u "в\s+([А-Яа-я\s\" ++ dq ++ u "\(\)]+(?:Банк|Банка|ПАО|АО)[А-Яа-я\s\" ++ dq ++ u "\(\)]*)";
    u "договор[^\n]*?№\s*([\d/\-]+)";
    u "договор[^\n]*?от\s*(\d{2}\.\d{2}\.\d{4})";
    u "^(\d+)\s+([А-Яа-яA-Za-z0-9\s,\.\-\(\)]{5,}?)\s+([А-Яа-яA-Za-z]{1,5})\s+(\d+)";
    u "(\d+)\s+([А-Яа-яA-Za-z]{1,5})\s+([\d\s]{1,}[,\.]\d{2})\s+([\d\s]{1,}[,\.]\d{2})";
    u "([А-Яа-яA-Za-z0-9\s,\.\-\(\)]{10,})";
    u "([0-9]{5,6}[^\n]{10,200}?)(?=\s*(?:Тел|Телефон|р/с|к/с|Покупатель|$))";
    u "^(перечень|наименование|категория|№|номер)";
    u "([\d\s]{3,}[,\.]\d{2})";
    u "(\d+)\s*%";
    u "([0-9]{5,6}.*?(?:область|обл|город|г\.|ул\.|улица|д\.|дом|офис|помещ).{10,200}?)(?=\s*(?:Тел|Телефон|р/с|к/с|Покупатель|$))";
    u "^(итого|всего|ндс)";
    u "\d+\s+([А-Яа-яA-Za-z]{1,5})\s+";
    u "^(итого|всего)";
    u "([А-Яа-яA-Za-z\s]{5,}?)\s+(\d{1,3})\s+";
    u "^(итого|всего|ндс|b\s+tom|всето)" ].

(** Every pattern of the extractor that has a group. *)
Definition grouped_patterns : list pystr := listed_patterns ++ inline_patterns.

End Groups.

(** *** Blank members of a record *)

Module Shape.

Definition is_nil {A : Type} (l : list A) : bool :=
  match l with [] => true | _ => false end.

(** Whether [v] is, or holds at any depth, [None], [{}] or [[]]. *)
Fixpoint has_blank (v : pyval) : bool :=
  match v with
  | VNone => true
  | VDict kvs =>
    is_nil kvs
    || (fix any_kv (l : list (string * pyval)) : bool :=
          match l with
          | [] => false
          | (_, x) :: t => has_blank x || any_kv t
          end) kvs
  | VList vs =>
    is_nil vs
    || (fix any_v (l : list pyval) : bool :=
          match l with
          | [] => false
          | x :: t => has_blank x || any_v t
          end) vs
  | _ => false
  end.

(** No member of the mapping is or holds a blank. *)
Definition members_clean (d : pydict) : bool :=
  forallb (fun kv => negb (has_blank (snd kv))) d.

(** The mapping [_build_customer_section] stores when no contract
    reference is found. *)
Definition no_contract : pyval := VDict [("number"%string, VNone); ("date"%string, VNone)].




(** What a section builder may hand to [_clean_result]: a value it drops,
    or one without a blank at any depth. *)
Definition section_ok (v : pyval) : Prop :=
  Extractor.is_blank v = true \/ has_blank v = false.



(** The string [_clean_number] hands to [float] (line 1180). *)
Definition value_str (value : pystr) : pystr :=
  replace (replace (replace value (u " ") []) dq []) (u ",") (u ".").

End Shape.

(** *** Inputs of the examples *)

Module Inputs.

Definition nl : pystr := [10%N].

(** A table whose only row is wrapped over two lines. *)
Definition wrapped_row_text : pystr :=
  u "Товары" ++ nl ++ u "1 Труба стальная 5 шт" ++ nl ++ u "100,00 500,00".

(** The same table with the row on one line. *)
Definition single_row_text : pystr :=
  u "Товары" ++ nl ++ u "1 Труба стальная 5 шт 100,00 500,00".

(** A supplier block followed by a buyer block. *)
Definition two_party_text : pystr :=
  u "Поставщик ЗАО Ромашка ИНН 7701234567" ++ nl
  ++ u "Покупатель ИП Иванов ИНН 770987654321".

(** A text of [n] characters. *)
Definition chars (n : nat) : pystr := repeat 120%N n.

(** An image in which Tesseract reads the same [n] characters whatever the
    bitmap and the segmentation mode. *)
Definition flat_bitmap (n : nat) : Pdf.bitmap :=
  {| Pdf.preprocess := Pdf.Ok tt;
     Pdf.image_to_string := fun _ _ => Pdf.Ok (repeat 111%N n) |}.

(** A one-page scan with a thin text layer: pdfplumber reads 30 characters,
    PyPDF2 reads 120, and OCR of the page reads 40. *)
Definition two_reader_doc : Pdf.pdf :=
  {| Pdf.pdfplumber_pages := Pdf.Ok [Pdf.Ok (Some (chars 30))];
     Pdf.pypdf2_pages := Pdf.Ok [Pdf.Ok (Some (chars 120))];
     Pdf.convert_page := fun _ => Pdf.Ok [flat_bitmap 40];
     Pdf.convert_all := Pdf.Ok [flat_bitmap 40] |}.

(** A two-page document: page 1 has 120 characters of native text, page 2
    has 30, and OCR of a page reads 60 characters. *)
Definition thin_page_doc : Pdf.pdf :=
  {| Pdf.pdfplumber_pages := Pdf.Ok [Pdf.Ok (Some (chars 120)); Pdf.Ok (Some (chars 30))];
     Pdf.pypdf2_pages := Pdf.Ok [Pdf.Ok (Some (chars 120)); Pdf.Ok (Some (chars 30))];
     Pdf.convert_page := fun _ => Pdf.Ok [flat_bitmap 60];
     Pdf.convert_all := Pdf.Ok [flat_bitmap 60; flat_bitmap 60] |}.

(** An upload in which Tesseract reads 5 characters. *)
Definition faint_upload : Main.request :=
  {| Main.filename := u "scan.PNG";
     Main.image := Pdf.Ok (flat_bitmap 5);
     Main.user_id := Some 7%Z;
     Main.db_commit := Pdf.Ok 1%Z |}.

End Inputs.

(** *** What a group captures *)

Module ReSpan.

Import ReSem.

(** The state stands in [text]: its rest is the text from its position. *)
Definition in_text (text : pystr) (st : mstate) : Prop :=
  st_rest st = skipn (st_pos st) text /\ st_pos st <= length text.

(** The upper bound of a repeat once one iteration is done. *)
Definition dec (hi : option nat) : option nat := option_map pred hi.

(** [derives fl r st st']: [r] takes the matcher from [st] to [st'], the
    bounds of the repeats and the flags of [.] being kept. *)
Inductive derives (fl : flags) : regex -> mstate -> mstate -> Prop :=
| D_empty st : derives fl REmpty st st
| D_char p c t st :
    st_rest st = c :: t -> char_eq (IGNORECASE fl) p c = true ->
    derives fl (RChar p) st (advance st c t)
| D_any c t st :
    st_rest st = c :: t -> DOTALL fl || negb (c =? 10)%N = true ->
    derives fl RAny st (advance st c t)
| D_set neg items c t st :
    st_rest st = c :: t -> set_match (IGNORECASE fl) neg items c = true ->
    derives fl (RSet neg items) st (advance st c t)
| D_cat a b st st1 st2 :
    derives fl a st st1 -> derives fl b st1 st2 -> derives fl (RCat a b) st st2
| D_alt_l a b st st1 : derives fl a st st1 -> derives fl (RAlt a b) st st1
| D_alt_r a b st st1 : derives fl b st st1 -> derives fl (RAlt a b) st st1
| D_rep_done hi gr a st : derives fl (RRepeat 0 hi gr a) st st
| D_rep_more lo hi gr a st st1 st2 :
    below hi 0 = true ->
    derives fl a st st1 -> derives fl (RRepeat (pred lo) (dec hi) gr a) st1 st2 ->
    derives fl (RRepeat lo hi gr a) st st2
| D_group idx a st st1 :
    derives fl a st st1 -> derives fl (RGroup idx a) st (close_group idx st st1)
| D_bol st : at_bol fl st = true -> derives fl RBol st st
| D_eol st : at_eol fl st = true -> derives fl REol st st
| D_look_neg a st : derives fl (RLook true a) st st
| D_look_pos a st st1 :
    derives fl a st st1 -> derives fl (RLook false a) st (keep_caps st st1).

(** The greatest number of characters a match of [r] consumes, if there is
    one. *)
Fixpoint max_len (r : regex) : option nat :=
  match r with
  | RChar _ | RAny | RSet _ _ => Some 1
  | RCat a b =>
    match max_len a, max_len b with
    | Some x, Some y => Some (x + y)
    | _, _ => None
    end
  | RAlt a b =>
    match max_len a, max_len b with
    | Some x, Some y => Some (Nat.max x y)
    | _, _ => None
    end
  | RRepeat _ (Some h) _ a =>
    match max_len a with
    | Some x => Some (h * x)
    | None => None
    end
  | RRepeat _ None _ _ => None
  | RGroup _ a => max_len a
  | _ => Some 0
  end.

(** Whether [r] can consume the character [c] somewhere in a match. *)
Fixpoint takes (fl : flags) (r : regex) (c : char) : bool :=
  match r with
  | RChar p => char_eq (IGNORECASE fl) p c
  | RAny => DOTALL fl || negb (c =? 10)%N
  | RSet neg items => set_match (IGNORECASE fl) neg items c
  | RCat a b | RAlt a b => takes fl a c || takes fl b c
  | RRepeat _ _ _ a | RGroup _ a => takes fl a c
  | _ => false
  end.

(** The expressions inside the parentheses of group [i]. *)
Fixpoint bodies (i : nat) (r : regex) : list regex :=
  match r with
  | RCat a b | RAlt a b => bodies i a ++ bodies i b
  | RRepeat _ _ _ a | RLook _ a => bodies i a
  | RGroup idx a => (if (idx =? i)%nat then [a] else []) ++ bodies i a
  | _ => []
  end.

(** The expressions inside group [i] of the pattern [pat]. *)
Definition group_bodies (i : nat) (pat : pystr) : list regex :=
  match re_compile pat with
  | Some r => bodies i r
  | None => []
  end.

(** What is known of a string [v] consumed by a match of [a]. *)
Definition consumed_by (fl : flags) (a : regex) (v : pystr) : Prop :=
  min_len a <= length v
  /\ (forall n, max_len a = Some n -> length v <= n)
  /\ Forall (fun c => takes fl a c = true) v.

(** The upper bound of a repeat once [count] iterations are done. *)
Definition minus_count (hi : option nat) (count : nat) : option nat :=
  option_map (fun h => h - count) hi.

(** Group [i] of [pat] takes part in every match and stands around [a]. *)
Definition captures (i : nat) (a : regex) (pat : pystr) : Prop :=
  takes_part i pat = true /\ group_bodies i pat = [a].



(** What a closed group of a match found by the engine spans. *)
Definition spans (fl : flags) (r : regex) (m : match_obj) : Prop :=
  forall i a0 b0, span_of i (m_caps m) = Some (a0, b0) ->
    exists a, In a (bodies i r) /\ consumed_by fl a (slice (m_text m) a0 b0).

End ReSpan.

(** *** Replacing the runs of a class *)

Module Runs.

(** [[...]+]: one or more characters of a class, as many as there are. *)
Definition plus_of (neg : bool) (items : list citem) : regex :=
  RRepeat 1 None true (RSet neg items).

(** The text without its leading run of [ok] characters. *)
Fixpoint drop_run (ok : char -> bool) (s : pystr) : pystr :=
  match s with
  | c :: t => if ok c then drop_run ok t else s
  | [] => []
  end.

(** The length of the leading run of [ok] characters. *)
Fixpoint run_length (ok : char -> bool) (s : pystr) : nat :=
  match s with
  | c :: t => if ok c then S (run_length ok t) else 0
  | [] => 0
  end.

(** The text with every maximal run of [ok] characters replaced by [repl];
    [in_run] tells that the run under way is already replaced. *)
Fixpoint squeeze_from (ok : char -> bool) (repl : pystr) (in_run : bool) (s : pystr)
  : pystr :=
  match s with
  | [] => []
  | c :: t =>
    if ok c then (if in_run then [] else repl) ++ squeeze_from ok repl true t
    else c :: squeeze_from ok repl false t
  end.

Definition squeeze (ok : char -> bool) (repl : pystr) (s : pystr) : pystr :=
  squeeze_from ok repl false s.

(** The state after the leading run of [ok] characters of the rest. *)
Fixpoint eat (ok : char -> bool) (st : mstate) (rest : pystr) : mstate :=
  match rest with
  | c :: t => if ok c then eat ok (advance st c t) t else st
  | [] => st
  end.

(** [c in " \t"] *)
Definition blank (c : char) : bool := (c =? 32)%N || (c =? 9)%N.

(** [a + b in s] for two characters. *)
Fixpoint has_pair (a b : char) (s : pystr) : bool :=
  match s with
  | x :: ((y :: _) as t) => ((x =? a)%N && (y =? b)%N) || has_pair a b t
  | _ => false
  end.

End Runs.

(** ** Shapes of extracted values *)

Module Values.

(** Every blank is a space. *)
Definition spaced (v : pystr) : Prop := forall c, In c v -> isspace c = true -> c = 32%N.



End Values.

(** *** Lines and characters the statements speak of *)

Module Notions.

Import ReSem ReSpan Extractor.






End Notions.

(** ** [InvoiceFieldClassifier] ([src/app/ml_model.py]) *)

Module MlModel.

Import Extractor.

(** A label of [FIELD_TYPES]: a field of the extractor, ['item'] or
    ['other']. *)
Inductive field_type :=
| Known (f : field)
| item
| other.

Definition is_label (f : field) (t : field_type) : bool :=
  match t, f with
  | Known invoice_number, invoice_number | Known date, date
  | Known seller, seller | Known buyer, buyer | Known inn, inn
  | Known kpp, kpp | Known total_amount, total_amount | Known vat, vat => true
  | _, _ => false
  end.

Definition is_other (t : field_type) : bool :=
  match t with other => true | _ => false end.

(** A classifier: whether it is trained, and what [predict] gives for a
    text once it is ([None] when it raises). *)
Record InvoiceFieldClassifier := {
  is_trained : bool;
  predict : pystr -> option (field_type * spec_float)
}.

(** [0.8] and [0.3] *)
Definition conf_valid : spec_float := Float.of_decimal false 8 (-1).
Definition conf_invalid : spec_float := Float.of_decimal false 3 (-1).

(** [_basic_validation] *)
Definition _basic_validation (f : field) (value : pystr) : bool * spec_float :=
  match value with
  | [] => (false, S754_zero false)
  | _ =>
    let is_valid :=
      match f with
      | invoice_number => is_some (match_ (u "^\d{1,10}$") value no_flags)
      | date => is_some (search (u "\d{1,2}[./-]\d{1,2}[./-]\d{2,4}") value no_flags)
      | inn => is_some (match_ (u "^\d{10,12}$") value no_flags)
      | kpp => is_some (match_ (u "^\d{9}$") value no_flags)
      | total_amount => is_some (search (u "[\d\s,\.]+") value no_flags)
      | _ => true
      end in
    (is_valid, if is_valid then conf_valid else conf_invalid)
  end.

(** [validate_extraction] *)
Definition validate_extraction (self : InvoiceFieldClassifier) : classifier :=
  fun field_type extracted_value context =>
    if negb (is_trained self) then
      let (is_valid, confidence) := _basic_validation field_type extracted_value in
      Returns is_valid confidence
    else
      let validation_text :=
        match context with
        | [] => extracted_value
        | _ => context ++ u " " ++ extracted_value
        end in
      match predict self validation_text with
      | None => Raises
      | Some (predicted_type, confidence) =>
        Returns (is_label field_type predicted_type || is_other predicted_type) confidence
      end.



End MlModel.

(** ** The PDF endpoint ([src/app/main.py], [process_invoice]) *)

Module Upload.

Import Pdf Main.

(** [s.endswith(p)] *)
Definition endswith (s p : pystr) : bool := startswith (rev s) (rev p).

(** The columns of [Invoice] the handlers fill from the record; [None] is
    the [None] that [dict.get] gives for a missing key. *)
Record invoice_row := {
  row_user_id : Z;
  row_file_name : pystr;
  row_invoice_number : option pyval;
  row_date : option pyval;
  row_seller : option pyval;
  row_buyer : option pyval;
  row_total_amount : option pyval;
  row_currency : pyval;
  row_extracted_data : pydict
}.

(** [Invoice(user_id=.., file_name=.., invoice_number=structured_data.get(
    'invoice_number'), .., currency=structured_data.get('currency', 'RUB'),
    extracted_data=structured_data, ..)] (lines 85-97 and 167-179). *)
Definition new_invoice (uid : Z) (file_name : pystr) (structured_data : pydict)
  : invoice_row :=
  {| row_user_id := uid;
     row_file_name := file_name;
     row_invoice_number := dict_get structured_data "invoice_number";
     row_date := dict_get structured_data "date";
     row_seller := dict_get structured_data "seller";
     row_buyer := dict_get structured_data "buyer";
     row_total_amount := dict_get structured_data "total_amount";
     row_currency := match dict_get structured_data "currency" with
                     | Some v => v
                     | None => VStr (u "RUB")
                     end;
     row_extracted_data := structured_data |}.

(** A request to [process_invoice], with what the collaborators give for
    it once the upload is stored: the document as the readers see it, the
    [user_id] parameter, and the identifier the database assigns on commit
    (or the exception it raises). *)
Record pdf_request := {
  pdf_filename : pystr;
  document : pdf;
  pdf_user_id : option Z;
  pdf_db_commit : result Z
}.

(** [process_invoice]: the answer, and the [Invoice] handed to [db.add],
    if any. *)
Definition process_invoice (req : pdf_request) : reply * option invoice_row :=
  if negb (endswith (pdf_filename req) (u ".pdf")) then (HttpError 400, None)
  else
    match extract_text (document req) with
    | [] => (Json 400 false [], None)
    | text =>
      let structured_data :=
        Extractor.extract_invoice_data Extractor.default_extractor text in
      match pdf_user_id req with
      | Some uid =>
        if (uid =? 0)%Z then (Json 200 true structured_data, None)
        else
          let invoice := new_invoice uid (pdf_filename req) structured_data in
          match pdf_db_commit req with
          | Raised => (Json 500 false [], Some invoice)
          | Ok invoice_id =>
            (Json 200 true (dict_set structured_data "invoice_id" (VInt invoice_id)),
             Some invoice)
          end
      | None => (Json 200 true structured_data, None)
      end
    end.

(** The calls of Tesseract on one image, in the order they are made. *)
Definition ocr_ladder : list ocr_call :=
  [(Preprocessed, 6); (Preprocessed, 11); (Preprocessed, 12); (Original, 6)].

(** A document whose first page pdfplumber reads and whose second page
    makes it raise; PyPDF2 reads both pages. *)
Definition torn_doc : pdf :=
  {| pdfplumber_pages := Ok [Ok (Some (Inputs.chars 120)); Raised];
     pypdf2_pages := Ok [Ok (Some (Inputs.chars 120)); Ok (Some (Inputs.chars 80))];
     convert_page := fun _ => Raised;
     convert_all := Raised |}.

(** A page image that cannot be prepared. *)
Definition broken_bitmap : bitmap :=
  {| preprocess := Raised; image_to_string := fun _ _ => Ok (Inputs.chars 60) |}.

(** A scan of two pages, the second of which cannot be prepared. *)
Definition half_scan : pdf :=
  {| pdfplumber_pages := Raised;
     pypdf2_pages := Raised;
     convert_page := fun _ => Raised;
     convert_all := Ok [Inputs.flat_bitmap 60; broken_bitmap] |}.

(** A PDF of one page of 120 characters, sent by user 7. *)
Definition stored_upload : pdf_request :=
  {| pdf_filename := u "invoice.pdf";
     document := {| pdfplumber_pages := Ok [Ok (Some (Inputs.chars 120))];
                    pypdf2_pages := Raised;
                    convert_page := fun _ => Raised;
                    convert_all := Raised |};
     pdf_user_id := Some 7%Z;
     pdf_db_commit := Ok 1%Z |}.

End Upload.

(** * Part VIII. Properties *)

(** ** The matcher *)

Module ReFacts.

Import ReSem.

Lemma one_char_sound (ok : char -> bool) st k res :
  one_char st ok k = Some res ->
  exists c t, st_rest st = c :: t /\ ok c = true /\ k (advance st c t) = Some res.
Proof.
  unfold one_char. destruct (st_rest st) as [|c t]; [discriminate|].
  destruct (ok c) eqn:E; [|discriminate]. intros H. exists c, t. auto.
Qed.

Section RepeatSound.

Variable fl : flags.
Variable a : regex.
Variable body : mstate -> (mstate -> option mstate) -> option mstate.
Hypothesis body_sound : forall st k res,
  body st k = Some res -> exists st', matches fl a st st' /\ k st' = Some res.

Lemma repeat_sound lo hi gr k budget : forall count st0 res,
  repeat_loop body lo hi gr k budget count st0 = Some res ->
  exists st', matches fl (RRepeat (lo - count) hi gr a) st0 st' /\ k st' = Some res.
Proof.
  induction budget as [|b IH]; intros count st0 res H; [discriminate|].
  simpl in H.
  assert (Hmore : forall res',
    (if below hi count
     then body st0 (fun st' =>
            if (lo <=? count) && (st_pos st' =? st_pos st0) then None
            else repeat_loop body lo hi gr k b (S count) st')
     else None) = Some res' ->
    exists st', matches fl (RRepeat (lo - count) hi gr a) st0 st' /\ k st' = Some res').
  { intros res' Hm. destruct (below hi count); [|discriminate].
    apply body_sound in Hm. destruct Hm as [st1 [M1 K1]].
    destruct ((lo <=? count) && (st_pos st1 =? st_pos st0)); [discriminate|].
    apply IH in K1. destruct K1 as [st2 [M2 K2]].
    exists st2. split; [|exact K2].
    eapply M_rep_more; [exact M1|].
    replace (pred (lo - count)) with (lo - S count) by lia. exact M2. }
  assert (Hleave : forall res',
    (if lo <=? count then k st0 else None) = Some res' ->
    exists st', matches fl (RRepeat (lo - count) hi gr a) st0 st' /\ k st' = Some res').
  { intros res' Hl. destruct (lo <=? count) eqn:E; [|discriminate].
    apply Nat.leb_le in E. exists st0. split; [|exact Hl].
    replace (lo - count) with 0 by lia. apply M_rep_done. }
  destruct gr.
  - destruct (if below hi count then _ else None) eqn:E.
    + apply Hmore. exact H.
    + apply Hleave. exact H.
  - destruct (if lo <=? count then k st0 else None) eqn:E.
    + apply Hleave. exact H.
    + apply Hmore. exact H.
Qed.

End RepeatSound.

(** Every result of the matcher is reached through a state that [r]
    matches. *)
Lemma rmatch_sound fl r : forall st k res,
  rmatch fl r st k = Some res ->
  exists st', matches fl r st st' /\ k st' = Some res.
Proof.
  induction r; intros st k res H; simpl in H.
  - exists st. split; [constructor|exact H].
  - apply one_char_sound in H. destruct H as [x [t [R [E K]]]].
    exists (advance st x t). split; [econstructor; eauto|exact K].
  - apply one_char_sound in H. destruct H as [x [t [R [E K]]]].
    exists (advance st x t). split; [econstructor; eauto|exact K].
  - apply one_char_sound in H. destruct H as [x [t [R [E K]]]].
    exists (advance st x t). split; [econstructor; eauto|exact K].
  - apply IHr1 in H. destruct H as [st1 [M1 H]].
    apply IHr2 in H. destruct H as [st2 [M2 H]].
    exists st2. split; [econstructor; eauto|exact H].
  - destruct (rmatch fl r1 st k) eqn:E.
    + inversion H; subst. apply IHr1 in E. destruct E as [st1 [M1 K]].
      exists st1. split; [apply M_alt_l; exact M1|exact K].
    + apply IHr2 in H. destruct H as [st1 [M1 K]].
      exists st1. split; [apply M_alt_r; exact M1|exact K].
  - apply (@repeat_sound fl r (rmatch fl r) IHr) in H.
    rewrite Nat.sub_0_r in H. exact H.
  - apply IHr in H. destruct H as [st1 [M1 K]].
    exists (close_group idx st st1). split; [constructor; exact M1|exact K].
  - destruct (at_bol fl st) eqn:E; [|discriminate].
    exists st. split; [constructor; exact E|exact H].
  - destruct (at_eol fl st) eqn:E; [|discriminate].
    exists st. split; [constructor; exact E|exact H].
  - destruct (rmatch fl r st (fun st' => Some st')) eqn:E.
    + destruct neg; [discriminate|].
      apply IHr in E. destruct E as [st1 [M1 K]]. inversion K; subst.
      exists (keep_caps st m). split; [constructor; exact M1|exact H].
    + destruct neg; [|discriminate].
      exists st. split; [constructor|exact H].
Qed.

(** A match consumes a prefix of the rest, of at least [min_len r]
    characters. *)
Lemma matches_consumes fl r st st' :
  matches fl r st st' ->
  exists used, st_rest st = used ++ st_rest st'
               /\ st_pos st' = st_pos st + length used
               /\ min_len r <= length used.
Proof.
  induction 1; simpl.
  - exists []. auto.
  - exists [c]. rewrite H. simpl. repeat split; lia.
  - exists [c]. rewrite H. simpl. repeat split; lia.
  - exists [c]. rewrite H. simpl. repeat split; lia.
  - destruct IHmatches1 as [u1 [R1 [P1 L1]]]. destruct IHmatches2 as [u2 [R2 [P2 L2]]].
    exists (u1 ++ u2). rewrite R1, R2, <- app_assoc, length_app. repeat split; lia.
  - destruct IHmatches as [u1 [R1 [P1 L1]]]. exists u1. repeat split; auto; lia.
  - destruct IHmatches as [u1 [R1 [P1 L1]]]. exists u1. repeat split; auto; lia.
  - exists []. auto.
  - destruct IHmatches1 as [u1 [R1 [P1 L1]]]. destruct IHmatches2 as [u2 [R2 [P2 L2]]].
    exists (u1 ++ u2). rewrite R1, R2, <- app_assoc, length_app. simpl in L2.
    repeat split; try lia. destruct lo; simpl in *; lia.
  - destruct IHmatches as [u1 [R1 [P1 L1]]]. exists u1. auto.
  - exists []. simpl. repeat split; lia.
  - exists []. simpl. repeat split; lia.
  - exists []. simpl. repeat split; lia.
  - exists []. simpl. repeat split; lia.
Qed.

(** Groups stay closed, and those of [always r] are closed by a match. *)
Lemma matches_groups fl r st st' :
  matches fl r st st' ->
  (forall i, has_group i st -> has_group i st')
  /\ (forall i, In i (always r) -> has_group i st').
Proof.
  unfold has_group.
  induction 1; simpl; try (split; [auto|intros i []]; fail).
  - destruct IHmatches1 as [K1 A1]. destruct IHmatches2 as [K2 A2].
    split; [auto|]. intros i Hi. apply in_app_or in Hi. destruct Hi; auto.
  - destruct IHmatches as [K1 A1]. split; [auto|].
    intros i Hi. apply filter_In in Hi. apply A1. tauto.
  - destruct IHmatches as [K1 A1]. split; [auto|].
    intros i Hi. apply filter_In in Hi. destruct Hi as [_ Hi].
    apply A1. unfold inb in Hi. apply existsb_exists in Hi.
    destruct Hi as [x [Hx E]]. apply Nat.eqb_eq in E. subst. exact Hx.
  - destruct IHmatches1 as [K1 A1]. destruct IHmatches2 as [K2 A2].
    split; [auto|]. destruct lo; simpl; [intros i []|]. intros i Hi. auto.
  - destruct IHmatches as [K1 A1].
    assert (G : forall i, span_of i (st_caps st1) <> None ->
                span_of i ((idx, (st_pos st, st_pos st1)) :: st_caps st1) <> None).
    { intros i Hi. simpl. destruct (idx =? i); [discriminate|exact Hi]. }
    split; [intros i Hi; apply (G i), K1, Hi|]. intros i [Hi|Hi].
    + subst. rewrite Nat.eqb_refl. discriminate.
    + apply (G i). auto.
  - destruct IHmatches as [K1 A1]. split; auto.
Qed.

Lemma try_at_found fl r text p prev rest m :
  p + length rest = length text ->
  try_at fl r text p prev rest = Some m ->
  m_start m = p /\ found r text p m.
Proof.
  unfold try_at. intros L H.
  destruct (rmatch fl r _ _) as [st'|] eqn:E; [|discriminate].
  inversion H; subst; clear H. simpl.
  apply rmatch_sound in E. destruct E as [st1 [M K]]. inversion K; subst; clear K.
  destruct (matches_consumes M) as [used [R [P LU]]].
  destruct (matches_groups M) as [_ A].
  simpl in R, P. unfold found; simpl.
  assert (length rest = length used + length (st_rest st')) by (rewrite R, length_app; lia).
  repeat split; try lia. exact A.
Qed.

Lemma scan_found fl r text : forall rest p prev m,
  p + length rest = length text ->
  scan fl r text p prev rest = Some m ->
  found r text p m.
Proof.
  induction rest as [|c t IH]; intros p prev m L H; simpl in H.
  - destruct (try_at fl r text p prev []) eqn:E; [|discriminate].
    inversion H; subst. apply (proj2 (@try_at_found fl r text p prev _ m L E)).
  - destruct (try_at fl r text p prev (c :: t)) eqn:E.
    + inversion H; subst. apply (proj2 (@try_at_found fl r text p prev _ m L E)).
    + apply IH in H; [|simpl in L; lia].
      destruct H as [T [S [M [E' G]]]]. unfold found. repeat split; auto; lia.
Qed.

Lemma search_at_found fl r text p m :
  p <= length text ->
  search_at fl r text p = Some m ->
  found r text p m.
Proof.
  unfold search_at. intros L H. eapply scan_found; [|exact H].
  rewrite length_skipn. lia.
Qed.

(** The groups of [always] are set in every match found by [re.search]. *)
Lemma search_groups pat text fl m n :
  takes_part n pat = true ->
  search pat text fl = Some m ->
  forall i, 1 <= i <= n -> group m i <> None.
Proof.
  unfold takes_part, search. destruct (re_compile pat) as [r|]; [|discriminate].
  intros T H i Hi. apply search_at_found in H; [|lia].
  destruct H as [_ [_ [_ [_ G]]]].
  rewrite forallb_forall in T. specialize (T i).
  assert (In i (seq 1 n)) as Hin by (apply in_seq; lia).
  apply T in Hin. unfold inb in Hin. apply existsb_exists in Hin.
  destruct Hin as [x [Hx E]]. apply Nat.eqb_eq in E. subst x.
  specialize (G i Hx). unfold group. destruct i; [lia|].
  destruct (span_of (S i) (m_caps m)) as [[a b]|]; [discriminate|contradiction].
Qed.




(** Every group of every pattern of the extractor takes part in every match
    of the pattern. *)
Lemma groups_take_part :
  forallb Groups.all_take_part Groups.grouped_patterns = true.
Proof. vm_compute. reflexivity. Qed.

(** Hence [m.group(i)], for a match of one of these patterns, is the string
    [g m i] and not [None]. *)
Lemma g_is_group pat text fl m i :
  In pat Groups.grouped_patterns ->
  search pat text fl = Some m ->
  1 <= i <= Groups.groups pat ->
  group m i = Some (Extractor.g m i).
Proof.
  intros Hin S Hi.
  pose proof groups_take_part as A. rewrite forallb_forall in A.
  specialize (A pat Hin). unfold Groups.all_take_part in A.
  destruct (re_compile pat) as [r|] eqn:C; [|discriminate].
  pose proof (@search_groups pat text fl m (Groups.groups pat) A S i Hi) as G.
  unfold Extractor.g, group_or_empty.
  destruct (group m i) as [t|]; [reflexivity|contradiction].
Qed.

End ReFacts.

(** ** Field extraction *)

Module FieldFacts.

Import Extractor ReSem ReFacts.










End FieldFacts.

(** ** The record *)

Module RecordFacts.

Import Extractor Shape.

Opaque search match_ finditer findall sub u.

Lemma dict_get_set (d : pydict) k v k' :
  dict_get (dict_set d k v) k' = if String.eqb k k' then Some v else dict_get d k'.
Proof.
  induction d as [|[k0 v0] d IH]; simpl.
  - reflexivity.
  - destruct (String.eqb k0 k) eqn:E; simpl.
    + apply String.eqb_eq in E. subst k0. destruct (String.eqb k k'); reflexivity.
    + rewrite IH. destruct (String.eqb k0 k') eqn:E'; [|reflexivity].
      apply String.eqb_eq in E'. subst k0. rewrite String.eqb_sym, E. reflexivity.
Qed.

Lemma dict_set_not_empty (d : pydict) k v : is_nil (dict_set d k v) = false.
Proof. destruct d as [|[k0 v0] d]; simpl; [|destruct (String.eqb k0 k)]; reflexivity. Qed.

Lemma has_blank_dict (d : pydict) :
  has_blank (VDict d) = is_nil d || negb (members_clean d).
Proof.
  simpl. f_equal. unfold members_clean.
  induction d as [|[k v] d IH]; [reflexivity|].
  simpl. rewrite IH. destruct (has_blank v); reflexivity.
Qed.

Lemma has_blank_list (vs : list pyval) :
  has_blank (VList vs) = is_nil vs || existsb has_blank vs.
Proof.
  reflexivity.
Qed.

Lemma members_clean_set (d : pydict) k v :
  members_clean d = true -> has_blank v = false ->
  members_clean (dict_set d k v) = true.
Proof.
  unfold members_clean. intros D V.
  induction d as [|[k0 v0] d IH]; simpl in *.
  - rewrite V. reflexivity.
  - apply andb_true_iff in D. destruct D as [D0 D].
    destruct (String.eqb k0 k); simpl.
    + rewrite V, D. reflexivity.
    + rewrite D0, (IH D). reflexivity.
Qed.

Lemma members_clean_set_if d k x :
  members_clean d = true -> members_clean (set_if d k x) = true.
Proof.
  intros D. destruct x as [[|c s]|]; simpl; auto.
  apply members_clean_set; auto.
Qed.

Lemma members_clean_set_group1 d k m :
  members_clean d = true -> members_clean (set_group1 d k m) = true.
Proof.
  intros D. destruct m; simpl; auto. apply members_clean_set; auto.
Qed.

Lemma members_clean_set_number d k x :
  members_clean d = true -> members_clean (set_number d k x) = true.
Proof.
  intros D. destruct x as [[|c s]|]; simpl; auto.
  apply members_clean_set; auto.
Qed.

Lemma members_clean_set_section d k v :
  members_clean d = true -> section_ok v -> members_clean (set_section d k v) = true.
Proof.
  intros D [B|H]; destruct v as [| | | |[|kv kvs]|]; simpl in *; auto; try discriminate.
  apply members_clean_set; auto.
Qed.

Lemma dict_or_none_ok d : members_clean d = true -> section_ok (dict_or_none d).
Proof.
  intros D. destruct d as [|kv d]; [left; reflexivity|].
  right. unfold dict_or_none. rewrite has_blank_dict, D. reflexivity.
Qed.

Ltac clean_steps :=
  repeat match goal with
  | |- members_clean (set_if _ _ _) = true => apply members_clean_set_if
  | |- members_clean (set_group1 _ _ _) = true => apply members_clean_set_group1
  | |- members_clean (set_number _ _ _) = true => apply members_clean_set_number
  | |- members_clean (dict_set _ _ _) = true => apply members_clean_set; [|reflexivity]
  | |- members_clean [] = true => reflexivity
  | |- members_clean (_ :: _) = true => reflexivity
  end.

(** The result of every [re.search] of the goal, as an unknown. *)
Ltac hide_search :=
  repeat match goal with
  | |- context [search ?p ?t ?f] =>
    let s := fresh "found" in set (s := search p t f) in *; clearbody s
  end.

Ltac hide t := let x := fresh "x" in set (x := t) in *; clearbody x.

Ltac split_found :=
  repeat match goal with s : option match_obj |- _ => destruct s end.

Lemma invoice_section_ok text n d : section_ok (_build_invoice_section text n d).
Proof.
  unfold _build_invoice_section. hide_search. apply dict_or_none_ok. clean_steps.
Qed.

Lemma bank_details_ok text : section_ok (_extract_bank_details text).
Proof.
  unfold _extract_bank_details. hide_search. apply dict_or_none_ok.
  split_found; clean_steps.
Qed.

Lemma contract_ok text : section_ok (_extract_contract text).
Proof.
  unfold _extract_contract. hide_search. apply dict_or_none_ok. clean_steps.
Qed.

Lemma supplier_section_ok text n p : section_ok (_build_supplier_section text n p).
Proof.
  unfold _build_supplier_section. apply dict_or_none_ok.
  apply members_clean_set_section; [clean_steps|apply bank_details_ok].
Qed.

Lemma signatories_ok text : section_ok (_extract_signatories text).
Proof.
  unfold _extract_signatories. hide_search. apply dict_or_none_ok. clean_steps.
Qed.

Lemma additional_info_ok text : section_ok (_extract_additional_info text).
Proof.
  unfold _extract_additional_info. hide_search. apply dict_or_none_ok.
  split_found; clean_steps.
Qed.

Lemma financial_summary_ok self text : section_ok (_build_financial_summary self text).
Proof.
  unfold _build_financial_summary. hide_search.
  hide (_extract_vat text). hide (_extract_currency text).
  hide (_extract_field self text total_amount). hide (_extract_total_in_words text).
  apply dict_or_none_ok.
  destruct x as [[rate amount]|]; destruct x0; split_found; clean_steps.
Qed.

Lemma terms_ok text : section_ok (_extract_terms_and_conditions text).
Proof.
  unfold _extract_terms_and_conditions.
  hide (finditer (u "(\d+)\.\s+([^\n]{20,500}?)(?=\d+\.|$)") text fIMS).
  match goal with |- section_ok (match ?t with [] => _ | _ => _ end) =>
    assert (C : existsb has_blank t = false); [|destruct t as [|v t']] end.
  - induction x as [|m ms IH]; [reflexivity|].
    simpl flat_map. rewrite existsb_app, IH.
    destruct (20 <? _); reflexivity.
  - left. reflexivity.
  - right. rewrite has_blank_list, C. reflexivity.
Qed.

Lemma line_item_clean idx item :
  exists d, line_item_of idx item = VDict d /\ is_nil d = false /\ members_clean d = true.
Proof.
  unfold line_item_of. eexists. split; [reflexivity|]. split.
  - destruct (i_total_with_vat item) as [[|c s]|]; simpl;
      try apply dict_set_not_empty.
    all: destruct (i_vat_amount item) as [[|c1 s1]|]; simpl;
      try apply dict_set_not_empty.
    all: destruct (i_amount_without_vat item) as [[|c2 s2]|]; simpl;
      try apply dict_set_not_empty.
    all: destruct (truthy_num (i_price_without_vat item));
      try apply dict_set_not_empty.
    all: destruct (i_delivery_terms item) as [[|c3 s3]|]; simpl;
      try apply dict_set_not_empty.
    all: destruct (i_quantity item) as [[|c4 s4]|]; simpl;
      try apply dict_set_not_empty.
    all: destruct (i_unit item) as [[|c5 s5]|]; reflexivity.
  - repeat first
      [ apply members_clean_set_number
      | apply members_clean_set_if ].
    destruct (truthy_num (i_price_without_vat item)).
    + apply members_clean_set; [|reflexivity]. clean_steps.
    + clean_steps.
Qed.

Lemma line_items_from_clean : forall l n,
  existsb has_blank (line_items_from n l) = false.
Proof.
  induction l as [|x l IH]; intros n; [reflexivity|].
  cbn [line_items_from existsb]. rewrite IH.
  destruct (line_item_clean n x) as [d [E [N C]]]. rewrite E, has_blank_dict, N, C.
  reflexivity.
Qed.

Lemma line_items_ok text : section_ok (_extract_line_items_structured text).
Proof.
  unfold _extract_line_items_structured.
  destruct (_extract_items text) as [[|item its]|]; try (left; reflexivity).
  right. rewrite has_blank_list, line_items_from_clean. reflexivity.
Qed.

Lemma dict_or_none_dict (d : pydict) : is_nil d = false -> dict_or_none d = VDict d.
Proof. destruct d; [discriminate|reflexivity]. Qed.

Lemma In_dict_set (d : pydict) k v k' v' :
  In (k', v') (dict_set d k v) -> (k' = k /\ v' = v) \/ In (k', v') d.
Proof.
  induction d as [|[k0 v0] d IH]; simpl.
  - intros [E|[]]. inversion E. auto.
  - destruct (String.eqb k0 k); simpl.
    + intros [E|H]; [inversion E; auto|auto].
    + intros [E|H]; [auto|]. destruct (IH H); auto.
Qed.

Lemma members_clean_In (d : pydict) k v :
  members_clean d = true -> In (k, v) d -> has_blank v = false.
Proof.
  unfold members_clean. rewrite forallb_forall. intros D H.
  specialize (D _ H). simpl in D. destruct (has_blank v); [discriminate|reflexivity].
Qed.

(** The customer section is a mapping with a [contract] member, which is
    the placeholder or has no blank; its other members have none. *)
Lemma customer_shape text n p :
  exists customer,
    _build_customer_section text n p = VDict customer
    /\ is_nil customer = false
    /\ (forall k v, In (k, v) customer -> k <> "contract"%string -> has_blank v = false)
    /\ exists contract,
         dict_get customer "contract" = Some contract
         /\ (has_blank contract = false \/ contract = no_contract).
Proof.
  unfold _build_customer_section.
  pose proof (contract_ok text) as CO.
  hide (_extract_contract text).
  match goal with |- context [dict_or_none ?d] => set (final := d) end.
  match type of final with _ => idtac end.
  assert (B : members_clean
                (set_if (set_if (set_if (set_if (set_if [] "company_name" n) "inn"
                  (_extract_buyer_inn text)) "kpp" (_extract_buyer_kpp text))
                  "address" (_extract_buyer_address text)) "phone" p) = true)
    by clean_steps.
  exists final. subst final.
  destruct x as [| | | |[|kv contract]|];
    (split; [apply dict_or_none_dict, dict_set_not_empty|]);
    (split; [apply dict_set_not_empty|]);
    (split;
     [intros k v H K; apply In_dict_set in H; destruct H as [[E _]|H];
      [contradiction|eapply members_clean_In; [exact B|exact H]]|]);
    eexists; (split; [rewrite dict_get_set; reflexivity|]);
    try (right; reflexivity).
  left. destruct CO as [CO|CO]; [discriminate|exact CO].
Qed.

Lemma In_clean_result k v result :
  In (k, v) (_clean_result result) -> In (k, v) result /\ is_blank v = false.
Proof.
  unfold _clean_result. intros H. apply filter_In in H. destruct H as [H B].
  split; [exact H|]. simpl in B. destruct (is_blank v); [discriminate|reflexivity].
Qed.

Lemma dict_get_clean_skip k0 v0 rest k :
  String.eqb k0 k = false ->
  dict_get (_clean_result ((k0, v0) :: rest)) k = dict_get (_clean_result rest) k.
Proof.
  intros E. unfold _clean_result. simpl.
  destruct (is_blank v0); simpl; [reflexivity|]. rewrite E. reflexivity.
Qed.

Lemma dict_get_clean_hit k v rest :
  is_blank v = false ->
  dict_get (_clean_result ((k, v) :: rest)) k = Some v.
Proof.
  intros E. unfold _clean_result. simpl. rewrite E. simpl.
  rewrite String.eqb_refl. reflexivity.
Qed.


Lemma section_ok_kept v : section_ok v -> is_blank v = false -> has_blank v = false.
Proof. intros [B|H] N; [congruence|exact H]. Qed.

(** C1 (as amended). [_clean_result] prunes the top level: no member of the
    record is [None], [{}] or [[]]. Every section other than [customer] has
    no blank at any depth. The customer section is always present; its
    members other than [contract] have no blank, and [contract] is either
    free of blanks or the mapping [{number: None, date: None}]. *)
Theorem record_blank_only_in_contract self text :
  (forall k v, In (k, v) (extract_invoice_data self text) -> is_blank v = false)
  /\ (forall k v, In (k, v) (extract_invoice_data self text) ->
                  k <> "customer"%string -> has_blank v = false)
  /\ exists customer,
       dict_get (extract_invoice_data self text) "customer" = Some (VDict customer)
       /\ (forall k v, In (k, v) customer -> k <> "contract"%string -> has_blank v = false)
       /\ exists contract,
            dict_get customer "contract" = Some contract
            /\ (has_blank contract = false \/ contract = no_contract).
Proof.
  unfold extract_invoice_data.
  set (text_clean := _preprocess_text text).
  set (buyer_phone := _extract_buyer_phone text_clean).
  set (number := _extract_field self text_clean invoice_number).
  set (idate := _extract_field self text_clean date).
  set (seller_name := _extract_field self text_clean seller).
  set (buyer_name := _extract_field self text_clean buyer).
  pose proof (invoice_section_ok text_clean number idate) as H1.
  pose proof (supplier_section_ok text_clean seller_name buyer_phone) as H2.
  pose proof (line_items_ok text_clean) as H4.
  pose proof (financial_summary_ok self text_clean) as H5.
  pose proof (signatories_ok text_clean) as H6.
  pose proof (terms_ok text_clean) as H7.
  pose proof (additional_info_ok text_clean) as H8.
  destruct (customer_shape text_clean buyer_name buyer_phone)
    as [customer [E [N [O C]]]].
  rewrite E. clear E.
  hide (_build_invoice_section text_clean number idate).
  hide (_build_supplier_section text_clean seller_name buyer_phone).
  hide (_extract_line_items_structured text_clean).
  hide (_build_financial_summary self text_clean).
  hide (_extract_signatories text_clean).
  hide (_extract_terms_and_conditions text_clean).
  hide (_extract_additional_info text_clean).
  split; [|split].
  - intros k v H. apply In_clean_result in H. tauto.
  - intros k v H K. apply In_clean_result in H. destruct H as [H B].
    simpl in H.
    repeat (destruct H as [H|H];
            [inversion H; subst; try contradiction;
             apply section_ok_kept; assumption|]).
    destruct H.
  - exists customer. split; [|split; [exact O|exact C]].
    rewrite 2 dict_get_clean_skip by reflexivity.
    apply dict_get_clean_hit. destruct customer; [discriminate|reflexivity].
Qed.

(** The record of the empty text: the customer section holds two nulls. *)
Lemma empty_text_record_has_nulls :
  extract_invoice_data default_extractor []
  = [("customer"%string,
      VDict [("contract"%string,
              VDict [("number"%string, VNone); ("date"%string, VNone)])]);
     ("financial_summary"%string, VDict [("currency"%string, VStr (u "RUB"))])]
  /\ has_blank (VDict (extract_invoice_data default_extractor [])) = true.
Proof. split; vm_compute; reflexivity. Qed.











Transparent search match_ finditer findall sub u.

End RecordFacts.

(** ** The line-item scan and the seller field on concrete documents *)

Module ScanFacts.

Import Extractor Inputs.

(** C3 (the code at the failing input). The row of [wrapped_row_text] is
    merged with the line below it and yields an item, and the body leaves
    2 in [i]; the loop still hands line 2 to the body, which yields a second
    item from it. With the row on one line there is one item. *)
Theorem wrapped_row_is_scanned_twice :
  combine (split_c 10%N wrapped_row_text) 1 (u "1 Труба стальная 5 шт")
  = u "1 Труба стальная 5 шт 100,00 500,00"
  /\ (let (item, i) := candidate_row (split_c 10%N wrapped_row_text) 1
                         (u "1 Труба стальная 5 шт") in
      (option_map i_name item, i)) = (Some (u "Труба стальная"), 2)
  /\ option_map (map i_name) (_extract_items wrapped_row_text)
     = Some [u "Труба стальная"; u "100,00 500,00"]
  /\ option_map (map i_name) (_extract_items single_row_text)
     = Some [u "Труба стальная"].
Proof. repeat split; vm_compute; reflexivity. Qed.

(** C4 (the code at the failing input). In [two_party_text] the supplier's
    keyword stands at offset 0 and the buyer's at offset 37. None of the
    first fourteen seller patterns matches; the fifteenth does, and its
    group spans offsets 48 to 57, inside the buyer's block: the seller
    returned is the buyer's name. *)
Theorem seller_is_taken_from_buyer_block :
  _extract_field default_extractor two_party_text seller = Some (u "ИП Иванов")
  /\ find (lower two_party_text) (u "поставщик") = Some 0
  /\ find (lower two_party_text) (u "покупатель") = Some 37
  /\ map (fun pattern =>
            match search pattern two_party_text fIM with
            | Some m => span_of 1 (m_caps m)
            | None => None
            end) (skipn 14 (patterns seller))
     = [Some (48, 57); None]
  /\ forallb (fun pattern => negb (is_some (search pattern two_party_text fIM)))
             (firstn 14 (patterns seller)) = true
  /\ slice two_party_text 48 57 = u "ИП Иванов".
Proof. repeat split; vm_compute; reflexivity. Qed.

End ScanFacts.

(** ** Text acquisition *)

Module PdfFacts.

Import Pdf Inputs.

Lemma psm_loop_calls img : forall modes text calls,
  forallb (fun c => negb (is_original c)) calls = true ->
  forallb (fun c => negb (is_original c)) (snd (psm_loop img modes text calls)) = true.
Proof.
  induction modes as [|psm_mode rest IH]; intros text calls H; simpl; [exact H|].
  assert (H' : forallb (fun c => negb (is_original c)) (calls ++ [(Preprocessed, psm_mode)]) = true)
    by (rewrite forallb_app, H; reflexivity).
  destruct (image_to_string img Preprocessed psm_mode) as [text'|].
  - destruct (50 <? length (strip text')); [exact H'|apply IH; exact H'].
  - apply IH; exact H'.
Qed.

Lemma filter_none (calls : list ocr_call) :
  forallb (fun c => negb (is_original c)) calls = true -> filter is_original calls = [].
Proof.
  induction calls as [|c calls IH]; simpl; [reflexivity|].
  intros H. apply andb_true_iff in H. destruct H as [H1 H2].
  destruct (is_original c); [discriminate|auto].
Qed.

(** C6 (as amended). The original bitmap is tried, once and with PSM 6,
    exactly when the text the configurations leave is empty or shorter than
    10 characters once trimmed; the text returned is then what that call
    returns, or the text left when it raises. Otherwise no call is made on
    the original bitmap and the text left is returned. *)
Theorem original_bitmap_retry img :
  filter is_original (snd (recognize img))
  = (if too_short (fst (psm_loop img [6; 11; 12] [] [])) then [(Original, 6)] else [])
  /\ fst (recognize img)
     = (if too_short (fst (psm_loop img [6; 11; 12] [] []))
        then match image_to_string img Original 6 with
             | Ok text => text
             | Raised => fst (psm_loop img [6; 11; 12] [] [])
             end
        else fst (psm_loop img [6; 11; 12] [] [])).
Proof.
  unfold recognize.
  pose proof (@psm_loop_calls img [6; 11; 12] [] [] eq_refl) as P.
  destruct (psm_loop img [6; 11; 12] [] []) as [text calls]. simpl in P. simpl fst.
  apply filter_none in P.
  destruct (too_short text).
  - destruct (image_to_string img Original 6); simpl;
      rewrite filter_app, P; split; reflexivity.
  - simpl. rewrite P. split; reflexivity.
Qed.

(** Every configuration reads 30 characters, under the 50-character bar:
    the three calls are made on the prepared bitmap and none on the
    original. *)
Lemma under_the_bar_is_not_retried :
  forallb (fun psm_mode =>
             match image_to_string (flat_bitmap 30) Preprocessed psm_mode with
             | Ok text => negb (50 <? length (strip text))
             | Raised => true
             end) [6; 11; 12] = true
  /\ snd (recognize (flat_bitmap 30))
     = [(Preprocessed, 6); (Preprocessed, 11); (Preprocessed, 12)]
  /\ filter is_original (snd (recognize (flat_bitmap 30))) = []
  /\ length (fst (recognize (flat_bitmap 30))) = 30.
Proof. repeat split; vm_compute; reflexivity. Qed.

Lemma pages_loop_blocks doc : forall texts n st,
  pages_loop doc (map Ok texts) n st
  = (Ok {| full_text := full_text st ++ blocks doc n texts;
           total_text_length := total_text_length st + kept_length doc n texts;
           events := events st ++ page_events doc n texts |},
     events st ++ page_events doc n texts).
Proof.
  induction texts as [|text rest IH]; intros n st.
  - simpl. rewrite !app_nil_r, Nat.add_0_r. destruct st; reflexivity.
  - cbn [map pages_loop blocks kept_length page_events]. unfold page_choice.
    destruct (native_ok text) eqn:N.
    + destruct text as [t|]; [|discriminate]. rewrite IH. cbn [fst snd full_text total_text_length events].
      rewrite <- !app_assoc, Nat.add_assoc. reflexivity.
    + destruct (_extract_text_with_ocr_from_page doc n) as [|c t] eqn:O;
        rewrite IH; cbn [fst snd full_text total_text_length events];
        rewrite <- !app_assoc; try rewrite Nat.add_assoc; reflexivity.
Qed.

(** C2 (as amended). In a pass over a native reader a page's native text is
    kept exactly when its trimmed length exceeds 50; otherwise that page
    alone goes through OCR and what OCR gives, if anything, takes the
    page's place. The pass returns when the kept texts total more than 100
    trimmed characters. The pdfplumber pass comes first, the PyPDF2 pass
    second, and only when neither returns is OCR run over the whole
    document. *)
Theorem extract_text_fallback_ladder doc :
  (forall n text,
      page_choice doc n text
      = if native_ok text then (text, KeptNative n)
        else (match _extract_text_with_ocr_from_page doc n with
              | [] => None
              | t => Some t
              end, PageOcr n))
  /\ (forall reader texts,
        reader = Ok (map Ok texts) ->
        native_pass doc reader
        = (if (0 <? length (strip (join nl (blocks doc 1 texts))))
              && (100 <? kept_length doc 1 texts)
           then Some (join nl (blocks doc 1 texts))
           else None,
           page_events doc 1 texts))
  /\ (forall result evs,
        native_pass doc (pdfplumber_pages doc) = (Some result, evs) ->
        extract_text_log doc = (result, evs))
  /\ (forall evs1 result evs2,
        native_pass doc (pdfplumber_pages doc) = (None, evs1) ->
        native_pass doc (pypdf2_pages doc) = (Some result, evs2) ->
        extract_text_log doc = (result, evs1 ++ evs2))
  /\ (forall evs1 evs2,
        native_pass doc (pdfplumber_pages doc) = (None, evs1) ->
        native_pass doc (pypdf2_pages doc) = (None, evs2) ->
        extract_text_log doc = (_extract_text_with_ocr_full doc, evs1 ++ evs2 ++ [FullOcr])).
Proof.
  split; [reflexivity|]. split; [|split; [|split]].
  - intros reader texts ->. unfold native_pass. rewrite pages_loop_blocks.
    cbn [full_text total_text_length events app Nat.add].
    destruct ((0 <? _) && (100 <? _)); reflexivity.
  - intros result evs H. unfold extract_text_log. rewrite H. reflexivity.
  - intros evs1 result evs2 H1 H2. unfold extract_text_log. rewrite H1, H2. reflexivity.
  - intros evs1 evs2 H1 H2. unfold extract_text_log. rewrite H1, H2. reflexivity.
Qed.

(** The page of 30 native characters goes through OCR and its text stands
    second; the first page is kept as it is. *)
Lemma thin_page_witness :
  extract_text_log thin_page_doc
  = (join nl [page_block 1 (chars 120); page_block 2 (repeat 111%N 60)],
     [KeptNative 1; PageOcr 2]).
Proof.
  apply (proj1 (proj2 (proj2 (extract_text_fallback_ladder thin_page_doc)))).
  vm_compute. reflexivity.
Defined.

(** The first pass keeps 40 characters, fewer than 100; the text returned
    is the native text PyPDF2 reads, not what OCR of the whole document
    gives, and no such OCR is run. *)
Lemma second_reader_text_is_kept :
  kept_length two_reader_doc 1 [Some (chars 30)] = 40
  /\ native_pass two_reader_doc (pdfplumber_pages two_reader_doc) = (None, [PageOcr 1])
  /\ extract_text_log two_reader_doc
     = (page_block 1 (chars 120), [PageOcr 1; KeptNative 1])
  /\ _extract_text_with_ocr_full two_reader_doc = page_block 1 (repeat 111%N 40)
  /\ eqs (extract_text two_reader_doc) (_extract_text_with_ocr_full two_reader_doc) = false.
Proof. repeat split; vm_compute; reflexivity. Qed.

End PdfFacts.

(** ** The image endpoint *)

Module MainFacts.

Import Pdf Main Inputs.

Lemma too_short_lt text : length (strip text) < 10 -> too_short text = true.
Proof.
  intros H. unfold too_short. destruct text; [reflexivity|].
  apply Nat.ltb_lt. exact H.
Qed.

Lemma too_short_ge text : too_short text = false -> 10 <= length (strip text).
Proof.
  unfold too_short. destruct text; [discriminate|].
  intros H. apply Nat.ltb_ge in H. exact H.
Qed.

(** C7. When the text recognized in an uploaded image has fewer than 10
    characters once trimmed, the handler answers with status 400,
    [success] false and an empty [data]; an answer with [success] true
    comes only with a text of at least 10 trimmed characters. *)
Theorem short_image_text_is_a_failure req :
  (forall text,
      existsb (eqs (splitext_ext (lower (filename req)))) allowed_extensions = true ->
      extract_text_from_image (image req) = Ok text ->
      length (strip text) < 10 ->
      process_image req = Json 400 false [])
  /\ (forall status_code data,
        process_image req = Json status_code true data ->
        exists text,
          extract_text_from_image (image req) = Ok text
          /\ 10 <= length (strip text)).
Proof.
  unfold process_image. split.
  - intros text A E L. rewrite A, E. cbn [negb]. rewrite (too_short_lt _ L). reflexivity.
  - intros status_code data H.
    destruct (negb _); [discriminate|].
    destruct (extract_text_from_image (image req)) as [text|]; [|discriminate].
    destruct (too_short text) eqn:T; [discriminate|].
    exists text. split; [reflexivity|apply too_short_ge; exact T].
Qed.

(** An upload that reads as 5 characters. *)
Lemma faint_upload_witness : process_image faint_upload = Json 400 false [].
Proof.
  apply (proj1 (short_image_text_is_a_failure faint_upload) (repeat 111%N 5)).
  - vm_compute. reflexivity.
  - vm_compute. reflexivity.
  - vm_compute. lia.
Defined.

End MainFacts.

(** ** What a group captures *)

Module SpanFacts.

Import ReSem ReSpan ReFacts.

Section RepeatDerives.

Variable fl : flags.
Variable a : regex.
Variable body : mstate -> (mstate -> option mstate) -> option mstate.
Hypothesis body_sound : forall st k res,
  body st k = Some res -> exists st', derives fl a st st' /\ k st' = Some res.

Lemma repeat_derives lo hi gr k budget : forall count st0 res,
  repeat_loop body lo hi gr k budget count st0 = Some res ->
  exists st', derives fl (RRepeat (lo - count) (minus_count hi count) gr a) st0 st'
              /\ k st' = Some res.
Proof.
  induction budget as [|b IH]; intros count st0 res H; [discriminate|].
  simpl in H.
  assert (Hmore : forall res',
    (if below hi count
     then body st0 (fun st' =>
            if (lo <=? count) && (st_pos st' =? st_pos st0) then None
            else repeat_loop body lo hi gr k b (S count) st')
     else None) = Some res' ->
    exists st', derives fl (RRepeat (lo - count) (minus_count hi count) gr a) st0 st'
                /\ k st' = Some res').
  { intros res' Hm. destruct (below hi count) eqn:B; [|discriminate].
    apply body_sound in Hm. destruct Hm as [st1 [M1 K1]].
    destruct ((lo <=? count) && (st_pos st1 =? st_pos st0)); [discriminate|].
    apply IH in K1. destruct K1 as [st2 [M2 K2]].
    exists st2. split; [|exact K2].
    eapply D_rep_more; [|exact M1|].
    - destruct hi as [h|]; simpl in *; [|reflexivity].
      apply Nat.ltb_lt in B. apply Nat.ltb_lt. lia.
    - replace (pred (lo - count)) with (lo - S count) by lia.
      replace (dec (minus_count hi count)) with (minus_count hi (S count)); [exact M2|].
      destruct hi as [h|]; simpl; [|reflexivity]. f_equal. lia. }
  assert (Hleave : forall res',
    (if lo <=? count then k st0 else None) = Some res' ->
    exists st', derives fl (RRepeat (lo - count) (minus_count hi count) gr a) st0 st'
                /\ k st' = Some res').
  { intros res' Hl. destruct (lo <=? count) eqn:E; [|discriminate].
    apply Nat.leb_le in E. exists st0. split; [|exact Hl].
    replace (lo - count) with 0 by lia. apply D_rep_done. }
  destruct gr.
  - destruct (if below hi count then _ else None) eqn:E.
    + apply Hmore. exact H.
    + apply Hleave. exact H.
  - destruct (if lo <=? count then k st0 else None) eqn:E.
    + apply Hleave. exact H.
    + apply Hmore. exact H.
Qed.

End RepeatDerives.

Lemma minus_count_0 hi : minus_count hi 0 = hi.
Proof. destruct hi; simpl; [f_equal; lia|reflexivity]. Qed.

(** Every result of the matcher is reached through a derivation. *)
Lemma rmatch_derives fl r : forall st k res,
  rmatch fl r st k = Some res ->
  exists st', derives fl r st st' /\ k st' = Some res.
Proof.
  induction r; intros st k res H; simpl in H.
  - exists st. split; [constructor|exact H].
  - apply one_char_sound in H. destruct H as [x [t [R [E K]]]].
    exists (advance st x t). split; [econstructor; eauto|exact K].
  - apply one_char_sound in H. destruct H as [x [t [R [E K]]]].
    exists (advance st x t). split; [econstructor; eauto|exact K].
  - apply one_char_sound in H. destruct H as [x [t [R [E K]]]].
    exists (advance st x t). split; [econstructor; eauto|exact K].
  - apply IHr1 in H. destruct H as [st1 [M1 H]].
    apply IHr2 in H. destruct H as [st2 [M2 H]].
    exists st2. split; [econstructor; eauto|exact H].
  - destruct (rmatch fl r1 st k) eqn:E.
    + inversion H; subst. apply IHr1 in E. destruct E as [st1 [M1 K]].
      exists st1. split; [apply D_alt_l; exact M1|exact K].
    + apply IHr2 in H. destruct H as [st1 [M1 K]].
      exists st1. split; [apply D_alt_r; exact M1|exact K].
  - apply (@repeat_derives fl r (rmatch fl r) IHr) in H.
    rewrite Nat.sub_0_r, minus_count_0 in H. exact H.
  - apply IHr in H. destruct H as [st1 [M1 K]].
    exists (close_group idx st st1). split; [constructor; exact M1|exact K].
  - destruct (at_bol fl st) eqn:E; [|discriminate].
    exists st. split; [constructor; exact E|exact H].
  - destruct (at_eol fl st) eqn:E; [|discriminate].
    exists st. split; [constructor; exact E|exact H].
  - destruct (rmatch fl r st (fun st' => Some st')) eqn:E.
    + destruct neg; [discriminate|].
      apply IHr in E. destruct E as [st1 [M1 K]]. inversion K; subst.
      exists (keep_caps st m). split; [constructor; exact M1|exact H].
    + destruct neg; [|discriminate].
      exists st. split; [constructor|exact H].
Qed.

(** A derivation consumes a prefix of the rest, within the bounds of the
    expression and made of characters the expression takes. *)
Lemma derives_consumes fl r st st' :
  derives fl r st st' ->
  exists used, st_rest st = used ++ st_rest st'
               /\ st_pos st' = st_pos st + length used
               /\ consumed_by fl r used.
Proof.
  unfold consumed_by.
  induction 1; simpl.
  - exists []. simpl. repeat split; auto; lia.
  - exists [c]. rewrite H. simpl. repeat split; try lia.
    + intros n E. inversion E. lia.
    + constructor; [exact H0|constructor].
  - exists [c]. rewrite H. simpl. repeat split; try lia.
    + intros n E. inversion E. lia.
    + constructor; [exact H0|constructor].
  - exists [c]. rewrite H. simpl. repeat split; try lia.
    + intros n E. inversion E. lia.
    + constructor; [exact H0|constructor].
  - destruct IHderives1 as [u1 [R1 [P1 [L1 [U1 F1]]]]].
    destruct IHderives2 as [u2 [R2 [P2 [L2 [U2 F2]]]]].
    exists (u1 ++ u2). rewrite R1, R2, <- app_assoc, length_app. repeat split; try lia.
    + intros n E. destruct (max_len a) as [x|]; [|discriminate].
      destruct (max_len b) as [y|]; [|discriminate]. inversion E; subst.
      specialize (U1 x eq_refl). specialize (U2 y eq_refl). lia.
    + apply Forall_app. split.
      * eapply Forall_impl; [|exact F1]. simpl. intros c Hc. rewrite Hc. reflexivity.
      * eapply Forall_impl; [|exact F2]. simpl. intros c Hc. rewrite Hc.
        apply orb_true_r.
  - destruct IHderives as [u1 [R1 [P1 [L1 [U1 F1]]]]]. exists u1. repeat split; auto; try lia.
    + intros n E. destruct (max_len a) as [x|]; [|discriminate].
      destruct (max_len b) as [y|]; [|discriminate]. inversion E; subst.
      specialize (U1 x eq_refl). lia.
    + eapply Forall_impl; [|exact F1]. simpl. intros c Hc. rewrite Hc. reflexivity.
  - destruct IHderives as [u1 [R1 [P1 [L1 [U1 F1]]]]]. exists u1. repeat split; auto; try lia.
    + intros n E. destruct (max_len a) as [x|]; [|discriminate].
      destruct (max_len b) as [y|]; [|discriminate]. inversion E; subst.
      specialize (U1 y eq_refl). lia.
    + eapply Forall_impl; [|exact F1]. simpl. intros c Hc. rewrite Hc.
      apply orb_true_r.
  - exists []. simpl. repeat split; auto; lia.
  - destruct IHderives1 as [u1 [R1 [P1 [L1 [U1 F1]]]]].
    destruct IHderives2 as [u2 [R2 [P2 [L2 [U2 F2]]]]].
    exists (u1 ++ u2). rewrite R1, R2, <- app_assoc, length_app. simpl in L2, U2, F2.
    repeat split; try lia.
    + destruct lo; simpl in *; lia.
    + intros n E. destruct hi as [h|]; [|discriminate]. simpl in *.
      destruct (max_len a) as [x|]; [|discriminate]. inversion E; subst.
      specialize (U1 x eq_refl). specialize (U2 (pred h * x) eq_refl).
      apply Nat.ltb_lt in H. destruct h; simpl in *; lia.
    + apply Forall_app. split; assumption.
  - destruct IHderives as [u1 [R1 [P1 C1]]]. exists u1. auto.
  - exists []. simpl. repeat split; auto; lia.
  - exists []. simpl. repeat split; auto; lia.
  - exists []. simpl. repeat split; auto; lia.
  - exists []. simpl. repeat split; auto; lia.
Qed.

Lemma in_text_advance text st c t :
  in_text text st -> st_rest st = c :: t -> in_text text (advance st c t).
Proof.
  unfold in_text. intros [R L] E. cbn [advance st_pos st_rest]. rewrite E in R.
  assert (st_pos st < length text).
  { destruct (Nat.lt_ge_cases (st_pos st) (length text)) as [Hl|Hl]; [exact Hl|].
    rewrite skipn_all2 in R by exact Hl. discriminate. }
  split; [|lia].
  replace (S (st_pos st)) with (1 + st_pos st) by lia.
  rewrite <- skipn_skipn, <- R. reflexivity.
Qed.

(** A derivation from a state that stands in the text ends in one, and
    every group it leaves closed either was closed before or spans what a
    derivation of its body consumed. *)
Lemma derives_origin text fl r st st' :
  derives fl r st st' -> in_text text st ->
  in_text text st'
  /\ forall i sp, span_of i (st_caps st') = Some sp ->
       span_of i (st_caps st) = Some sp
       \/ exists a s1 s2, In a (bodies i r) /\ derives fl a s1 s2
                          /\ in_text text s1 /\ sp = (st_pos s1, st_pos s2).
Proof.
  induction 1; intros W; simpl.
  - split; auto.
  - split; [apply in_text_advance; assumption|auto].
  - split; [apply in_text_advance; assumption|auto].
  - split; [apply in_text_advance; assumption|auto].
  - destruct (IHderives1 W) as [W1 G1]. destruct (IHderives2 W1) as [W2 G2].
    split; [exact W2|]. intros i sp Hs.
    destruct (G2 i sp Hs) as [Hs1|[x [s1 [s2 [Hin [D [Ws E]]]]]]].
    + destruct (G1 i sp Hs1) as [Hs0|[x [s1 [s2 [Hin [D [Ws E]]]]]]]; [auto|].
      right. exists x, s1, s2. split; [apply in_or_app; auto|auto].
    + right. exists x, s1, s2. split; [apply in_or_app; auto|auto].
  - destruct (IHderives W) as [W1 G1]. split; [exact W1|]. intros i sp Hs.
    destruct (G1 i sp Hs) as [Hs0|[x [s1 [s2 [Hin [D [Ws E]]]]]]]; [auto|].
    right. exists x, s1, s2. split; [apply in_or_app; auto|auto].
  - destruct (IHderives W) as [W1 G1]. split; [exact W1|]. intros i sp Hs.
    destruct (G1 i sp Hs) as [Hs0|[x [s1 [s2 [Hin [D [Ws E]]]]]]]; [auto|].
    right. exists x, s1, s2. split; [apply in_or_app; auto|auto].
  - split; auto.
  - destruct (IHderives1 W) as [W1 G1]. destruct (IHderives2 W1) as [W2 G2].
    split; [exact W2|]. intros i sp Hs. simpl in G2.
    destruct (G2 i sp Hs) as [Hs1|[x [s1 [s2 [Hin [D [Ws E]]]]]]].
    + destruct (G1 i sp Hs1) as [Hs0|[x [s1 [s2 [Hin [D [Ws E]]]]]]]; [auto|].
      right. exists x, s1, s2. auto.
    + right. exists x, s1, s2. auto.
  - destruct (IHderives W) as [W1 G1].
    split; [exact W1|]. intros i sp Hs. simpl in Hs.
    destruct (idx =? i)%nat eqn:E.
    + inversion Hs; subst. right. exists a, st, st1. simpl. auto.
    + destruct (G1 i sp Hs) as [Hs0|[x [s1 [s2 [Hin [D [Ws E']]]]]]]; [auto|].
      right. exists x, s1, s2. auto.
  - split; auto.
  - split; auto.
  - split; auto.
  - destruct (IHderives W) as [W1 G1]. split; [exact W|]. exact G1.
Qed.

Lemma try_at_spans fl r text p prev m :
  p <= length text ->
  try_at fl r text p prev (skipn p text) = Some m -> spans fl r m.
Proof.
  unfold try_at. intros L H.
  destruct (rmatch fl r _ _) as [st'|] eqn:E; [|discriminate].
  inversion H; subst; clear H.
  apply rmatch_derives in E. destruct E as [st1 [D K]]. inversion K; subst; clear K.
  assert (W : in_text text {| st_pos := p; st_rest := skipn p text; st_prev := prev;
                              st_caps := [] |}) by (split; simpl; auto).
  destruct (derives_origin D W) as [_ G].
  intros i a0 b0 Hs. simpl in Hs.
  destruct (G i (a0, b0) Hs) as [Hs0|[x [s1 [s2 [Hin [Dx [[Rs Ls] E]]]]]]]; [discriminate|].
  inversion E; subst; clear E.
  exists x. split; [exact Hin|]. simpl.
  destruct (derives_consumes Dx) as [used [R [P C]]].
  assert (S : slice text (st_pos s1) (st_pos s2) = used).
  { unfold slice. rewrite <- Rs, R, P.
    replace (st_pos s1 + length used - st_pos s1) with (length used + 0) by lia.
    rewrite firstn_app_2. simpl. apply app_nil_r. }
  rewrite S. exact C.
Qed.

Lemma scan_spans fl r text : forall rest p prev m,
  rest = skipn p text -> p <= length text ->
  scan fl r text p prev rest = Some m -> spans fl r m.
Proof.
  induction rest as [|c t IH]; intros p prev m R L H; simpl in H.
  - destruct (try_at fl r text p prev []) eqn:E; [|discriminate].
    inversion H; subst. rewrite R in E. eapply try_at_spans; eauto.
  - destruct (try_at fl r text p prev (c :: t)) eqn:E.
    + inversion H; subst. rewrite R in E. eapply try_at_spans; eauto.
    + assert (p < length text).
      { destruct (Nat.lt_ge_cases p (length text)) as [Hl|Hl]; [exact Hl|].
        rewrite skipn_all2 in R by exact Hl. discriminate. }
      apply (IH (S p) (Some c) m); [|lia|exact H].
      replace (S p) with (1 + p) by lia. rewrite <- skipn_skipn, <- R. reflexivity.
Qed.

Lemma search_at_spans fl r text p m :
  p <= length text -> search_at fl r text p = Some m -> spans fl r m /\ m_text m = text.
Proof.
  unfold search_at. intros L H. split.
  - eapply scan_spans; [reflexivity|exact L|exact H].
  - apply search_at_found in H; [|exact L]. destruct H as [T _]. exact T.
Qed.

(** [m.group(i)], for a match found by [re.search], was consumed by the
    expression inside group [i] of the pattern. *)
Lemma group_content pat text fl m i v :
  search pat text fl = Some m -> 1 <= i -> group m i = Some v ->
  exists a, In a (group_bodies i pat) /\ consumed_by fl a v.
Proof.
  unfold search, group_bodies. destruct (re_compile pat) as [r|]; [|discriminate].
  intros H Hi G. apply search_at_spans in H; [|lia]. destruct H as [Sp T].
  unfold group in G. destruct i as [|j]; [lia|].
  destruct (span_of (S j) (m_caps m)) as [[a0 b0]|] eqn:E; [|discriminate].
  inversion G; subst; clear G.
  destruct (Sp (S j) a0 b0 E) as [a [Hin C]].
  exists a. split; assumption.
Qed.

End SpanFacts.

(** ** The form of the extracted values *)

Module FormatFacts.

Import ReSem ReSpan ReFacts SpanFacts Extractor.








(** What group [i] holds in a match of a pattern whose group [i] always
    takes part. *)
Lemma captured pat text fl m i a :
  captures i a pat -> 1 <= i -> search pat text fl = Some m ->
  consumed_by fl a (g m i).
Proof.
  intros [T B] Hi S.
  pose proof (@search_groups pat text fl m i T S i (conj Hi (le_n i))) as G.
  unfold g, group_or_empty. destruct (group m i) as [v|] eqn:E; [|contradiction].
  destruct (@group_content pat text fl m i v S Hi E) as [x [Hin C]].
  rewrite B in Hin. destruct Hin as [Hx|[]]. subst x. exact C.
Qed.

Opaque search match_ finditer findall sub u.





Transparent search match_ finditer findall sub u.


End FormatFacts.

(** ** Replacing the runs of a class *)

Module RunFacts.

Import ReSem ReFacts Runs.

Section Plus.

Variable fl : flags.
Variable neg : bool.
Variable items : list citem.

Local Abbreviation ok := (set_match (IGNORECASE fl) neg items).

Lemma eat_pos : forall rest st, st_pos (eat ok st rest) = st_pos st + run_length ok rest.
Proof.
  induction rest as [|c t IH]; intros st; simpl; [lia|].
  destruct (ok c); [|lia]. rewrite IH. simpl. lia.
Qed.

Lemma eat_caps : forall rest st, st_caps (eat ok st rest) = st_caps st.
Proof.
  induction rest as [|c t IH]; intros st; simpl; [reflexivity|].
  destruct (ok c); [|reflexivity]. rewrite IH. reflexivity.
Qed.

(** The greedy repeat of a class takes the whole run. *)
Lemma repeat_run : forall rest st count budget,
  st_rest st = rest -> length rest < budget ->
  repeat_loop (fun st k => one_char st ok k) 1 None true (fun st => Some st) budget count st
  = if (1 <=? count) || (0 <? run_length ok rest) then Some (eat ok st rest) else None.
Proof.
  induction rest as [|c t IH]; intros st count budget R L.
  - destruct budget as [|b]; [simpl in L; lia|]. simpl.
    unfold one_char. rewrite R.
    rewrite orb_false_r. destruct count; reflexivity.
  - destruct budget as [|b]; [simpl in L; lia|]. cbn [repeat_loop below].
    unfold one_char at 1. rewrite R.
    cbn [eat run_length]. destruct (ok c) eqn:E.
    + cbn [advance st_pos].
      replace (S (st_pos st) =? st_pos st) with false
        by (symmetry; apply Nat.eqb_neq; lia).
      rewrite andb_false_r.
      rewrite (IH (advance st c t) (S count) b eq_refl) by (simpl in L; lia).
      cbn [Nat.leb orb]. rewrite orb_true_r. reflexivity.
    + rewrite orb_false_r. destruct (1 <=? count); reflexivity.
Qed.

Lemma try_at_plus text p prev rest :
  try_at fl (plus_of neg items) text p prev rest
  = if 0 <? run_length ok rest
    then Some {| m_text := text; m_start := p; m_end := p + run_length ok rest;
                 m_caps := [] |}
    else None.
Proof.
  unfold try_at, plus_of. cbn [rmatch st_rest].
  set (st0 := {| st_pos := p; st_rest := rest; st_prev := prev; st_caps := [] |}).
  assert (L : length rest < length rest + 1 + 1) by lia.
  pose proof (@repeat_run rest st0 0 (length rest + 1 + 1) eq_refl L) as H.
  rewrite H.
  cbn [Nat.leb orb]. destruct (0 <? run_length ok rest); [|reflexivity].
  rewrite eat_pos, eat_caps. reflexivity.
Qed.

(** The search skips the characters outside the class. *)
Lemma scan_plus text : forall rest p prev,
  scan fl (plus_of neg items) text p prev rest
  = match rest with
    | [] => None
    | c :: t =>
      if ok c
      then Some {| m_text := text; m_start := p; m_end := p + run_length ok rest;
                   m_caps := [] |}
      else scan fl (plus_of neg items) text (S p) (Some c) t
    end.
Proof.
  intros rest p prev. destruct rest as [|c t]; cbn [scan]; rewrite try_at_plus.
  - reflexivity.
  - cbn [run_length]. destruct (ok c); reflexivity.
Qed.

Lemma skipn_cons_next (text : pystr) q c t :
  skipn q text = c :: t -> skipn (S q) text = t /\ q < length text.
Proof.
  intros R. split.
  - replace (S q) with (1 + q) by lia. rewrite <- skipn_skipn, R. reflexivity.
  - destruct (Nat.lt_ge_cases q (length text)) as [Hl|Hl]; [exact Hl|].
    rewrite skipn_all2 in R by exact Hl. discriminate.
Qed.

Lemma skipn_run (text : pystr) : forall rest q,
  skipn q text = rest -> q <= length text ->
  skipn (q + run_length ok rest) text = drop_run ok rest
  /\ q + run_length ok rest <= length text.
Proof.
  induction rest as [|c t IH]; intros q R Lq; cbn [run_length drop_run].
  - rewrite Nat.add_0_r. split; [exact R|exact Lq].
  - destruct (ok c).
    + destruct (@skipn_cons_next text q c t R) as [R' L].
      destruct (@IH (S q) R' L) as [A B].
      replace (q + S (run_length ok t)) with (S q + run_length ok t) by lia. auto.
    + rewrite Nat.add_0_r. split; [exact R|].
      apply skipn_cons_next in R. lia.
Qed.

Lemma drop_run_length s : length (drop_run ok s) <= length s.
Proof.
  induction s as [|c t IH]; simpl; [lia|]. destruct (ok c); simpl; lia.
Qed.

Lemma squeeze_run repl : forall s,
  squeeze_from ok repl true s = squeeze_from ok repl false (drop_run ok s).
Proof.
  induction s as [|c t IH]; simpl; [reflexivity|].
  destruct (ok c) eqn:E; simpl; [exact IH|rewrite E; reflexivity].
Qed.

(** The matches of [[...]+] from position [q], and what [re.sub] builds of
    them. *)
Lemma sub_build_plus repl text : forall n rest q r fuel,
  length rest <= n -> skipn q text = rest -> r <= q -> q <= length text ->
  length rest <= fuel ->
  (forall c, In c (slice text r q) -> ok c = false) ->
  sub_build repl text r
    (match scan fl (plus_of neg items) text q (prev_at text q) rest with
     | None => []
     | Some m =>
       m :: finditer_from fuel fl (plus_of neg items) text
              (if m_start m <? m_end m then m_end m else S (m_end m))
     end)
  = slice text r q ++ squeeze ok repl rest.
Proof.
  induction n as [|n IH]; intros rest q r fuel Ln R Hr Lq Lf Pre.
  - destruct rest; [|simpl in Ln; lia].
    rewrite scan_plus. cbn [sub_build]. unfold squeeze. cbn [squeeze_from].
    rewrite app_nil_r. unfold slice.
    assert (E : skipn r text = skipn r text ++ []) by (rewrite app_nil_r; reflexivity).
    assert (L : length (skipn r text) = q - r).
    { rewrite length_skipn.
      assert (length (skipn q text) = 0) by (rewrite R; reflexivity).
      rewrite length_skipn in H.
      destruct (Nat.le_gt_cases (length text) r); [|lia].
      lia. }
    rewrite <- L. symmetry. apply firstn_all.
  - destruct rest as [|c t].
    + apply (IH [] q r fuel); auto. simpl. lia.
    + rewrite scan_plus. destruct (ok c) eqn:E.
      * cbn [sub_build m_start m_end].
        destruct (@skipn_run text (c :: t) q R Lq) as [D B].
        set (e := q + run_length ok (c :: t)) in *.
        assert (Hlt : q < e) by (unfold e; cbn [run_length]; rewrite E; lia).
        replace (q <? e) with true by (symmetry; apply Nat.ltb_lt; exact Hlt).
        f_equal. unfold squeeze at 1. cbn [squeeze_from]. rewrite E. f_equal.
        rewrite squeeze_run. fold (squeeze ok repl (drop_run ok t)).
        assert (Dt : drop_run ok (c :: t) = drop_run ok t) by (simpl; rewrite E; reflexivity).
        rewrite Dt in D.
        destruct fuel as [|f]; [simpl in Lf; lia|]. cbn [finditer_from].
        replace (length text <? e) with false
          by (symmetry; apply Nat.ltb_ge; exact B).
        unfold search_at. rewrite D. cbv iota.
        pose proof (drop_run_length t) as DL.
        rewrite (IH (drop_run ok t) e e f); try assumption; try lia.
        -- unfold slice. rewrite Nat.sub_diag. reflexivity.
        -- simpl in Ln. lia.
        -- simpl in Lf. lia.
        -- intros x Hx. unfold slice in Hx. rewrite Nat.sub_diag in Hx. destruct Hx.
      * destruct (@skipn_cons_next text q c t R) as [R' L].
        assert (S1 : slice text r (S q) = slice text r q ++ [c]).
        { unfold slice. replace (S q - r) with ((q - r) + 1) by lia.
          rewrite <- (firstn_skipn (q - r) (skipn r text)) at 1.
          rewrite firstn_app.
          assert (LF : length (firstn (q - r) (skipn r text)) = q - r).
          { rewrite length_firstn, length_skipn. lia. }
          rewrite LF. replace (q - r + 1 - (q - r)) with 1 by lia.
          rewrite firstn_firstn. replace (Nat.min (q - r + 1) (q - r)) with (q - r) by lia.
          f_equal. rewrite skipn_skipn. replace (q - r + r) with q by lia.
          rewrite R. reflexivity. }
        assert (P : prev_at text (S q) = Some c).
        { simpl. rewrite <- (firstn_skipn q text), R.
          assert (LF : length (firstn q text) = q) by (rewrite length_firstn; lia).
          rewrite nth_error_app2 by lia. rewrite LF, Nat.sub_diag. reflexivity. }
        rewrite <- P.
        rewrite (IH t (S q) r fuel); try assumption; try lia.
        -- rewrite S1, <- app_assoc. unfold squeeze. cbn [squeeze_from app]. rewrite E.
           reflexivity.
        -- simpl in Ln. lia.
        -- simpl in Lf. lia.
        -- intros x Hx. rewrite S1 in Hx. apply in_app_or in Hx.
           destruct Hx as [Hx|[Hx|[]]]; [apply Pre, Hx|subst x; exact E].
Qed.

End Plus.

(** [re.sub] of a pattern [[...]+] replaces every maximal run of the class. *)
Lemma sub_squeeze pat neg items repl text fl :
  re_compile pat = Some (plus_of neg items) ->
  sub pat repl text fl = squeeze (set_match (IGNORECASE fl) neg items) repl text.
Proof.
  intros C. unfold sub, finditer. rewrite C. cbn [finditer_from].
  replace (length text <? 0) with false by reflexivity.
  unfold search_at. cbn [skipn]. cbv iota.
  rewrite (@sub_build_plus fl neg items repl text (length text) text 0 0 (length text));
    auto; try lia.
  intros c Hc. unfold slice in Hc. destruct Hc.
Qed.

End RunFacts.

(** ** [_preprocess_text] *)

Module SqueezeFacts.

Import Runs RunFacts Extractor.

Section Squeeze.

Variable ok : char -> bool.
Variable repl : pystr.

Lemma squeeze_from_In : forall s b c,
  In c (squeeze_from ok repl b s) -> (In c s /\ ok c = false) \/ In c repl.
Proof.
  induction s as [|x t IH]; intros b c H; simpl in H; [destruct H|].
  destruct (ok x) eqn:E.
  - apply in_app_or in H. destruct H as [H|H].
    + destruct b; [destruct H|auto].
    + destruct (IH _ _ H) as [[A B]|A]; [left; split; [right; exact A|exact B]|auto].
  - destruct H as [H|H].
    + subst. left. split; [left; reflexivity|exact E].
    + destruct (IH _ _ H) as [[A B]|A]; [left; split; [right; exact A|exact B]|auto].
Qed.

(** The characters outside the class are kept, in their order. *)
Lemma squeeze_from_keeps :
  forallb ok repl = true ->
  forall s b, filter (fun c => negb (ok c)) (squeeze_from ok repl b s)
              = filter (fun c => negb (ok c)) s.
Proof.
  intros R. assert (F : filter (fun c => negb (ok c)) repl = []).
  { induction repl as [|x t IH]; [reflexivity|]. simpl in *.
    apply andb_true_iff in R. destruct R as [A B]. rewrite A. simpl. auto. }
  induction s as [|x t IH]; intros b; simpl; [reflexivity|].
  destruct (ok x) eqn:E; simpl.
  - rewrite filter_app, IH. destruct b; simpl; [reflexivity|rewrite F; reflexivity].
  - rewrite E. simpl. rewrite IH. reflexivity.
Qed.

Lemma squeeze_from_length :
  length repl <= 1 ->
  forall s b, length (squeeze_from ok repl b s) <= length s.
Proof.
  intros R. induction s as [|x t IH]; intros b; simpl; [lia|].
  destruct (ok x); simpl.
  - rewrite length_app. specialize (IH true). destruct b; simpl; lia.
  - specialize (IH false). lia.
Qed.

End Squeeze.

Section SqueezeOne.

Variable ok : char -> bool.
Variable r0 : char.
Hypothesis ok_r0 : ok r0 = true.

(** After a replacement the next character is outside the class. *)
Lemma squeeze_true_head : forall s,
  match squeeze_from ok [r0] true s with
  | [] => True
  | c :: _ => ok c = false
  end.
Proof.
  induction s as [|x t IH]; simpl; [exact I|].
  destruct (ok x) eqn:E; simpl; [exact IH|exact E].
Qed.

(** No two characters of the class stand side by side. *)
Lemma squeeze_from_apart : forall s b x y,
  has_pair x y (squeeze_from ok [r0] b s) = true -> ok x = false \/ ok y = false.
Proof.
  induction s as [|c t IH]; intros b x y H; simpl in H; [discriminate|].
  destruct (ok c) eqn:E.
  - destruct b; simpl in H; [eapply IH; exact H|].
    pose proof (squeeze_true_head t) as Hd.
    destruct (squeeze_from ok [r0] true t) as [|z w] eqn:Q; [discriminate|].
    apply orb_true_iff in H. destruct H as [H|H].
    + apply andb_true_iff in H. destruct H as [_ H]. apply N.eqb_eq in H. subst z. auto.
    + apply (IH true x y). rewrite Q. exact H.
  - simpl in H.
    destruct (squeeze_from ok [r0] false t) as [|z w] eqn:Q; [discriminate|].
    apply orb_true_iff in H. destruct H as [H|H].
    + apply andb_true_iff in H. destruct H as [H _]. apply N.eqb_eq in H. subst c. auto.
    + apply (IH false x y). rewrite Q. exact H.
Qed.

(** Squeezing twice is squeezing once. *)
Lemma squeeze_from_again : forall s,
  squeeze_from ok [r0] false (squeeze_from ok [r0] false s) = squeeze_from ok [r0] false s
  /\ forall b, squeeze_from ok [r0] b (squeeze_from ok [r0] true s)
               = squeeze_from ok [r0] true s.
Proof.
  induction s as [|c t [IH1 IH2]]; [split; [reflexivity|intros b; reflexivity]|].
  simpl. destruct (ok c) eqn:E.
  - split.
    + simpl. rewrite ok_r0. simpl. rewrite (IH2 true). reflexivity.
    + intros b. simpl. apply IH2.
  - split.
    + simpl. rewrite E. rewrite IH1. reflexivity.
    + intros b. simpl. rewrite E. rewrite IH1. reflexivity.
Qed.

End SqueezeOne.

Lemma contains_pair a b : forall s, contains s [a; b] = has_pair a b s.
Proof.
  unfold contains, find.
  assert (G : forall s i, match find_from i s [a; b] with Some _ => true | None => false end
                          = has_pair a b s).
  { induction s as [|x t IH]; intros i; [reflexivity|].
    cbn [find_from has_pair]. destruct t as [|y w].
    - simpl. destruct (a =? x)%N; reflexivity.
    - cbn [startswith]. replace (startswith w []) with true by (destruct w; reflexivity).
      rewrite (N.eqb_sym a x), (N.eqb_sym b y), andb_true_r.
      destruct ((x =? a)%N && (y =? b)%N); [reflexivity|].
      simpl orb. apply IH. }
  intros s. apply G.
Qed.

Lemma squeeze_from_ext (ok ok' : char -> bool) repl :
  (forall c, ok c = ok' c) ->
  forall s b, squeeze_from ok repl b s = squeeze_from ok' repl b s.
Proof.
  intros E. induction s as [|x t IH]; intros b; simpl; [reflexivity|].
  rewrite E, !IH. reflexivity.
Qed.

Lemma preprocess_squeeze text : _preprocess_text text = squeeze blank (u " ") text.
Proof.
  unfold _preprocess_text.
  rewrite (@sub_squeeze (u "[ \t]+") false [CLit 32%N; CLit 9%N] (u " ") text no_flags)
    by (vm_compute; reflexivity).
  unfold squeeze. apply squeeze_from_ext. intros c.
  unfold set_match, blank. cbn [existsb item_match IGNORECASE no_flags xorb]. unfold char_eq.
  rewrite (N.eqb_sym 32 c), (N.eqb_sym 9 c), orb_false_r. reflexivity.
Qed.

(** X1. [_preprocess_text] leaves no tab and no two spaces side by side,
    keeps every other character (line breaks included) in its place among
    the others, never lengthens the text, and changes nothing when applied
    again. *)
Theorem preprocess_text_collapses_blanks text :
  count_c (_preprocess_text text) 9%N = 0
  /\ contains (_preprocess_text text) (u "  ") = false
  /\ filter (fun c => negb (blank c)) (_preprocess_text text)
     = filter (fun c => negb (blank c)) text
  /\ length (_preprocess_text text) <= length text
  /\ _preprocess_text (_preprocess_text text) = _preprocess_text text.
Proof.
  rewrite !preprocess_squeeze. unfold squeeze.
  change (u " ") with [32%N]. change (u "  ") with [32%N; 32%N].
  repeat split.
  - unfold count_c.
    destruct (filter (fun x => (x =? 9)%N) (squeeze_from blank [32%N] false text))
      as [|c t] eqn:F; [reflexivity|].
    assert (Hc : In c (c :: t)) by (left; reflexivity).
    rewrite <- F in Hc. apply filter_In in Hc. destruct Hc as [Hin Hc].
    apply N.eqb_eq in Hc. subst c.
    apply squeeze_from_In in Hin. destruct Hin as [[_ B]|[B|[]]]; discriminate.
  - rewrite contains_pair.
    destruct (has_pair 32%N 32%N (squeeze_from blank [32%N] false text)) eqn:H; [|reflexivity].
    apply (@squeeze_from_apart blank 32%N text false 32%N 32%N) in H. destruct H; discriminate.
  - apply squeeze_from_keeps. reflexivity.
  - apply squeeze_from_length. simpl. lia.
  - apply (@squeeze_from_again blank 32%N eq_refl).
Qed.

End SqueezeFacts.

(** ** Tax, bank and VAT numbers *)

Module NumberFacts.

Import ReSem ReSpan ReFacts SpanFacts FormatFacts Extractor.

(** The whole of a match was consumed by the pattern. *)
Lemma try_at_whole fl r text p prev m :
  p <= length text ->
  try_at fl r text p prev (skipn p text) = Some m ->
  consumed_by fl r (slice text (m_start m) (m_end m)).
Proof.
  unfold try_at. intros L H.
  destruct (rmatch fl r _ _) as [st'|] eqn:E; [|discriminate].
  inversion H; subst; clear H. cbn [m_start m_end].
  apply rmatch_derives in E. destruct E as [st1 [D K]]. inversion K; subst; clear K.
  destruct (derives_consumes D) as [used [R [P C]]]. cbn [st_rest st_pos] in R, P.
  assert (S : slice text p (st_pos st') = used).
  { unfold slice. rewrite R, P.
    replace (p + length used - p) with (length used + 0) by lia.
    rewrite firstn_app_2. simpl. apply app_nil_r. }
  rewrite S. exact C.
Qed.

Lemma scan_whole fl r text : forall rest p prev m,
  rest = skipn p text -> p <= length text ->
  scan fl r text p prev rest = Some m ->
  consumed_by fl r (slice text (m_start m) (m_end m)).
Proof.
  induction rest as [|c t IH]; intros p prev m R L H; simpl in H.
  - destruct (try_at fl r text p prev []) eqn:E; [|discriminate].
    inversion H; subst. rewrite R in E. eapply try_at_whole; eauto.
  - destruct (try_at fl r text p prev (c :: t)) eqn:E.
    + inversion H; subst. rewrite R in E. eapply try_at_whole; eauto.
    + assert (p < length text).
      { destruct (Nat.lt_ge_cases p (length text)) as [Hl|Hl]; [exact Hl|].
        rewrite skipn_all2 in R by exact Hl. discriminate. }
      apply (IH (S p) (Some c) m); [|lia|exact H].
      replace (S p) with (1 + p) by lia. rewrite <- skipn_skipn, <- R. reflexivity.
Qed.

(** [m.group(0)], for a match found by [re.search], was consumed by the
    pattern. *)
Lemma whole_content pat r text fl m :
  re_compile pat = Some r -> search pat text fl = Some m ->
  consumed_by fl r (g m 0).
Proof.
  unfold search. intros C H. rewrite C in H.
  pose proof H as F. apply search_at_found in F; [|lia]. destruct F as [T _].
  unfold search_at in H. apply scan_whole in H; [|reflexivity|lia].
  unfold g, group_or_empty, group. rewrite T. exact H.
Qed.

(** A pattern without groups leaves no group closed. *)
Lemma no_bodies r : Groups.groups_of r = 0 -> forall i, bodies i r = [].
Proof.
  induction r; simpl; intros G i; try reflexivity.
  - rewrite IHr1, IHr2 by lia. reflexivity.
  - rewrite IHr1, IHr2 by lia. reflexivity.
  - auto.
  - discriminate.
  - auto.
Qed.

Lemma search_spans pat r text fl m :
  re_compile pat = Some r -> search pat text fl = Some m -> spans fl r m.
Proof.
  unfold search. intros C H. rewrite C in H.
  apply search_at_spans in H; [|lia]. tauto.
Qed.

Lemma lastindex_none pat r text fl m :
  re_compile pat = Some r -> Groups.groups_of r = 0 ->
  search pat text fl = Some m -> lastindex m = None.
Proof.
  intros C G H. pose proof (@search_spans pat r text fl m C H) as Sp.
  unfold lastindex. destruct (m_caps m) as [|[i [a0 b0]] t] eqn:E; [reflexivity|].
  destruct (Sp i a0 b0) as [a [Hin _]].
  - rewrite E. simpl. rewrite Nat.eqb_refl. reflexivity.
  - rewrite (@no_bodies r G i) in Hin. destruct Hin.
Qed.

(** A group that always takes part makes [lastindex] an index. *)
Lemma lastindex_some pat text fl m :
  takes_part 1 pat = true -> search pat text fl = Some m -> lastindex m <> None.
Proof.
  intros T H.
  pose proof (@search_groups pat text fl m 1 T H 1 (conj (le_n 1) (le_n 1))) as G.
  unfold lastindex, group in *. destruct (m_caps m) as [|[i sp] t]; [|discriminate].
  simpl in G. contradiction.
Qed.




Lemma search_compiles pat text fl m :
  search pat text fl = Some m -> re_compile pat <> None.
Proof. unfold search. destruct (re_compile pat); [discriminate|discriminate]. Qed.

Opaque search match_ finditer findall sub u.







Lemma upper_length s : length (upper s) = length s.
Proof. unfold upper. apply length_map. Qed.

Lemma bounded_consumed fl r v lo hi :
  consumed_by fl r v -> min_len r = lo -> max_len r = Some hi -> lo <= length v <= hi.
Proof. intros [L [U _]] A B. specialize (U hi B). lia. Qed.

Lemma currency_loop_length text : forall ps,
  Forall (fun p => match re_compile p with
                   | Some r =>
                     (Groups.groups_of r = 0 /\ min_len r = 1 /\ max_len r = Some 3)
                     \/ (takes_part 1 p = true
                         /\ exists a, group_bodies 1 p = [a]
                                      /\ min_len a = 3 /\ max_len a = Some 3)
                   | None => True
                   end) ps ->
  1 <= length (currency_loop ps text) <= 3.
Proof.
  induction ps as [|p rest IH]; intros F; cbn [currency_loop].
  - vm_compute. lia.
  - inversion F as [|x l Hp Hr]; subst. specialize (IH Hr).
    destruct (search p text fI) as [m|] eqn:S; [|exact IH].
    set (cur := match lastindex m with Some _ => g m 1 | None => g m 0 end).
    assert (L : 1 <= length cur <= 3).
    { unfold cur. destruct (re_compile p) as [r|] eqn:C.
      - destruct Hp as [[G [Mi Ma]]|[T [a [B [Mi Ma]]]]].
        + rewrite (@lastindex_none p r text fI m C G S).
          exact (@bounded_consumed fI r _ 1 3 (@whole_content p r text fI m C S) Mi Ma).
        + pose proof (@lastindex_some p text fI m T S) as LS.
          destruct (lastindex m); [|contradiction].
          assert (Cp : captures 1 a p) by (split; assumption).
          pose proof (@captured p text fI m 1 a Cp (le_n 1) S) as Cn.
          pose proof (@bounded_consumed fI a _ 3 3 Cn Mi Ma). lia.
      - apply search_compiles in S. contradiction. }
    clearbody cur. destruct cur as [|c s].
    + simpl in L. lia.
    + rewrite upper_length. exact L.
Qed.

(** Every currency pattern matches one to three characters, or captures
    exactly three. *)
Lemma currency_patterns_bounded :
  Forall (fun p => match re_compile p with
                   | Some r =>
                     (Groups.groups_of r = 0 /\ min_len r = 1 /\ max_len r = Some 3)
                     \/ (takes_part 1 p = true
                         /\ exists a, group_bodies 1 p = [a]
                                      /\ min_len a = 3 /\ max_len a = Some 3)
                   | None => True
                   end) currency_patterns.
Proof.
  unfold currency_patterns.
  apply Forall_cons.
  { right. split; [vm_compute; reflexivity|]. eexists. split; vm_compute; auto. }
  repeat (apply Forall_cons; [left; vm_compute; auto|]). apply Forall_nil.
Qed.


Transparent search match_ finditer findall sub u.




End NumberFacts.

(** ** Trimming, replacing and substituting *)

Module TextFacts.

Import ReSem ReFacts Runs RunFacts SqueezeFacts Extractor.

Lemma in_firstn (A : Type) (x : A) n l : In x (firstn n l) -> In x l.
Proof. intros H. rewrite <- (firstn_skipn n l). apply in_or_app. auto. Qed.

Lemma in_skipn (A : Type) (x : A) n l : In x (skipn n l) -> In x l.
Proof. intros H. rewrite <- (firstn_skipn n l). apply in_or_app. auto. Qed.

Lemma in_slice (s : pystr) a b c : In c (slice s a b) -> In c s.
Proof. unfold slice. intros H. apply in_firstn in H. apply in_skipn in H. exact H. Qed.

Lemma lstrip_drop s : lstrip s = drop_run isspace s.
Proof. induction s as [|c t IH]; simpl; [reflexivity|]. rewrite IH. reflexivity. Qed.

Lemma in_drop_run ok (s : pystr) c : In c (drop_run ok s) -> In c s.
Proof.
  induction s as [|x t IH]; simpl; [auto|]. destruct (ok x); [auto|]. auto.
Qed.

Lemma length_drop_run ok (s : pystr) : length (drop_run ok s) <= length s.
Proof. induction s as [|x t IH]; simpl; [lia|]. destruct (ok x); simpl; lia. Qed.

Lemma drop_run_again ok (s : pystr) : drop_run ok (drop_run ok s) = drop_run ok s.
Proof.
  induction s as [|x t IH]; simpl; [reflexivity|].
  destruct (ok x) eqn:E; [exact IH|]. simpl. rewrite E. reflexivity.
Qed.

Lemma drop_run_last ok (l : pystr) c :
  ok c = false -> drop_run ok (l ++ [c]) = drop_run ok l ++ [c].
Proof.
  intros E. induction l as [|x t IH]; simpl; [rewrite E; reflexivity|].
  destruct (ok x); [exact IH|reflexivity].
Qed.

(** What is left of a text that starts with a character outside the class
    when the run at its end is dropped still starts with that character. *)
Lemma rdrop_head ok c (t : pystr) :
  ok c = false ->
  exists w, rev (drop_run ok (rev (c :: t))) = c :: w.
Proof.
  intros E. simpl. rewrite (@drop_run_last ok (rev t) c E).
  rewrite rev_app_distr. simpl. eexists. reflexivity.
Qed.

Lemma in_strip s c : In c (strip s) -> In c s.
Proof.
  unfold strip, rstrip. rewrite !lstrip_drop. intros H.
  apply in_rev in H. apply in_drop_run in H. apply in_rev in H.
  apply in_drop_run in H. exact H.
Qed.

Lemma length_strip s : length (strip s) <= length s.
Proof.
  unfold strip, rstrip. rewrite !lstrip_drop, length_rev.
  pose proof (length_drop_run isspace (rev (drop_run isspace s))) as A.
  rewrite length_rev in A. pose proof (length_drop_run isspace s). lia.
Qed.

(** [s.strip().strip()] is [s.strip()]. *)
Lemma strip_again s : strip (strip s) = strip s.
Proof.
  unfold strip, rstrip. rewrite !lstrip_drop.
  set (t := drop_run isspace s).
  assert (Ht : drop_run isspace t = t) by apply drop_run_again.
  assert (H1 : drop_run isspace (rev (drop_run isspace (rev t)))
               = rev (drop_run isspace (rev t))).
  { destruct t as [|c w] eqn:Et; [reflexivity|].
    assert (Ec : isspace c = false).
    { simpl in Ht. destruct (isspace c) eqn:E; [|reflexivity].
      pose proof (length_drop_run isspace w) as L. rewrite Ht in L. simpl in L. lia. }
    destruct (@rdrop_head isspace c w Ec) as [w' Hw]. rewrite Hw. simpl. rewrite Ec.
    reflexivity. }
  rewrite H1, rev_involutive, drop_run_again. reflexivity.
Qed.

Lemma sub_build_In repl text c : forall ms p,
  In c (sub_build repl text p ms) -> In c text \/ In c repl.
Proof.
  induction ms as [|m t IH]; intros p H; simpl in H.
  - left. eapply in_skipn. exact H.
  - apply in_app_or in H. destruct H as [H|H]; [left; eapply in_slice; exact H|].
    apply in_app_or in H. destruct H as [H|H]; [auto|]. eapply IH. exact H.
Qed.

(** [re.sub] makes its result of the characters of the text and of the
    replacement. *)
Lemma sub_In pat repl text fl c :
  In c (sub pat repl text fl) -> In c text \/ In c repl.
Proof. unfold sub. apply sub_build_In. Qed.

Lemma space_class c : set_match false false [CCat false CatSpace] c = isspace c.
Proof. unfold set_match. simpl. rewrite orb_false_r. reflexivity. Qed.

(** [re.sub(r'\s+', repl, text)] *)
Lemma space_squeeze repl text :
  sub (u "\s+") repl text no_flags = squeeze isspace repl text.
Proof.
  rewrite (@sub_squeeze (u "\s+") false [CCat false CatSpace] repl text no_flags)
    by (vm_compute; reflexivity).
  unfold squeeze. apply squeeze_from_ext. intros c. apply space_class.
Qed.

(** After [re.sub(r'\s+', ' ', ..)] the only blanks are single spaces. *)
Lemma space_squeeze_blanks text :
  (forall c, In c (squeeze isspace [32%N] text) -> isspace c = true -> c = 32%N)
  /\ has_pair 32%N 32%N (squeeze isspace [32%N] text) = false.
Proof.
  split.
  - intros c H E. apply squeeze_from_In in H.
    destruct H as [[_ B]|[B|[]]]; [rewrite B in E; discriminate|auto].
  - destruct (has_pair 32%N 32%N (squeeze isspace [32%N] text)) eqn:H; [|reflexivity].
    apply (@squeeze_from_apart isspace 32%N text false 32%N 32%N) in H.
    destruct H; discriminate.
Qed.

Lemma startswith_nil s : startswith s [] = true.
Proof. destruct s; reflexivity. Qed.

Lemma replace_fuel_char a : forall s f,
  length s <= f ->
  replace_fuel f s [a] [] = filter (fun c => negb (c =? a)%N) s.
Proof.
  induction s as [|c t IH]; intros f L.
  - destruct f; reflexivity.
  - destruct f as [|f]; [simpl in L; lia|]. cbn [replace_fuel startswith filter].
    rewrite startswith_nil, andb_true_r, (N.eqb_sym a c).
    destruct (c =? a)%N; simpl.
    + apply IH. simpl in L. lia.
    + f_equal. apply IH. simpl in L. lia.
Qed.

(** [s.replace(a, '')] for a character [a]. *)
Lemma replace_char s a : replace s [a] [] = filter (fun c => negb (c =? a)%N) s.
Proof. unfold replace. apply replace_fuel_char. lia. Qed.

Lemma eqs_refl s : eqs s s = true.
Proof. induction s as [|c t IH]; simpl; [reflexivity|]. rewrite N.eqb_refl. exact IH. Qed.

(** A group of a match found in [text] is made of characters of [text]. *)
Lemma group_In pat text fl m i c :
  search pat text fl = Some m -> In c (g m i) -> In c text.
Proof.
  unfold search. destruct (re_compile pat) as [r|]; [|discriminate].
  intros H. apply search_at_found in H; [|lia]. destruct H as [T _].
  unfold g, group_or_empty, group. rewrite T.
  destruct i as [|j].
  - apply in_slice.
  - destruct (span_of (S j) (m_caps m)) as [[a b]|]; [apply in_slice|intros []].
Qed.

End TextFacts.

(** ** Telephones, addresses and field values *)

Module ValueFacts.

Import ReSem ReSpan ReFacts SpanFacts FormatFacts NumberFacts Runs RunFacts SqueezeFacts.
Import TextFacts Values Extractor.

Opaque search match_ finditer findall sub u.

Lemma seller_phone_loop_shape text buyer_phone kw : forall ps v,
  seller_phone_loop ps text buyer_phone kw = Some v ->
  length v = 11 /\ startswith v [56%N] = true
  /\ forallb (fun c => negb (isspace c)) v = true
  /\ buyer_phone <> Some v.
Proof.
  induction ps as [|p rest IH]; intros v; cbn [seller_phone_loop]; [discriminate|].
  destruct (search p text fIMS) as [m|] eqn:S; [|apply IH].
  rewrite space_squeeze.
  set (phone := squeeze isspace [] (if 2 <=? lastindex_n m then strip (g m 2) else strip (g m 1))).
  change (u "8") with [56%N].
  destruct (startswith phone [56%N] && (length phone =? 11)) eqn:E; [|apply IH].
  destruct (kw <? m_start m); [apply IH|].
  destruct (truthy buyer_phone && eqs phone (match buyer_phone with Some b => b | None => [] end))
    eqn:B; [apply IH|].
  assert (R : Some phone = Some v ->
              length v = 11 /\ startswith v [56%N] = true
              /\ forallb (fun c => negb (isspace c)) v = true
              /\ buyer_phone <> Some v).
  { intros H. inversion H; subst v; clear H.
    apply andb_true_iff in E. destruct E as [E1 E2]. apply Nat.eqb_eq in E2.
    repeat split; auto.
    - apply forallb_forall. intros c Hc. unfold phone, squeeze in Hc.
      apply squeeze_from_In in Hc. destruct Hc as [[_ Hc]|[]]. rewrite Hc. reflexivity.
    - intros Eb. rewrite Eb in B. rewrite eqs_refl, andb_true_r in B.
      destruct phone; [simpl in E2; lia|discriminate]. }
  destruct (find (lower text) (u "поставщик")) as [pos|]; [|exact R].
  destruct (pos + 500 <? m_start m); [apply IH|exact R].
Qed.

(** X7. The telephone [_extract_seller_phone] returns has exactly 11
    characters, begins with 8, holds no blank and is not the buyer's
    telephone it was given. *)
Theorem seller_phone_is_eleven_characters text buyer_phone v :
  _extract_seller_phone text buyer_phone = Some v ->
  length v = 11 /\ startswith v (u "8") = true
  /\ forallb (fun c => negb (isspace c)) v = true
  /\ buyer_phone <> Some v.
Proof.
  unfold _extract_seller_phone. change (u "8") with [56%N].
  apply seller_phone_loop_shape.
Qed.

Lemma spaced_squeeze s : spaced (squeeze isspace [32%N] s).
Proof. exact (proj1 (space_squeeze_blanks s)). Qed.

Lemma spaced_sub pat s fl : spaced s -> spaced (sub pat [32%N] s fl).
Proof.
  intros H c Hc E. apply sub_In in Hc. destruct Hc as [Hc|[Hc|[]]]; [apply H; assumption|auto].
Qed.

Lemma spaced_group pat s fl m i : spaced s -> search pat s fl = Some m -> spaced (strip (g m i)).
Proof.
  intros H S c Hc E. apply in_strip in Hc. apply (@group_In pat s fl m i c S) in Hc. apply H; assumption.
Qed.

Lemma narrow_address_spaced address v :
  spaced address -> narrow_address address = Some v -> spaced v.
Proof.
  unfold narrow_address. intros H.
  match goal with |- context [search ?p address fI] =>
    destruct (search p address fI) as [m|] eqn:S1 end.
  - intros E. inversion E; subst. eapply spaced_group; eauto.
  - match goal with |- context [search ?p address fI] =>
      destruct (search p address fI) as [m|] eqn:S2 end; [|discriminate].
    intros E. inversion E; subst. eapply spaced_group; eauto.
Qed.

Lemma seller_address_loop_shape text : forall ps v,
  seller_address_loop ps text = Some v -> 10 < length v /\ spaced v.
Proof.
  induction ps as [|p rest IH]; intros v; cbn [seller_address_loop]; [discriminate|].
  destruct (search p text fIMS) as [m|] eqn:S; [|apply IH].
  rewrite space_squeeze. change (u " ") with [32%N].
  set (address := sub (u "\n+") [32%N] (squeeze isspace [32%N] (strip (g m 1))) no_flags).
  assert (A : spaced address) by (apply spaced_sub, spaced_squeeze).
  destruct (match rest with [] => narrow_address address | _ :: _ => Some address end)
    as [a|] eqn:N; [|apply IH].
  destruct (10 <? length a) eqn:L; [|apply IH].
  intros H. inversion H; subst a; clear H. apply Nat.ltb_lt in L. split; [exact L|].
  destruct rest; [eapply narrow_address_spaced; eauto|inversion N; subst; exact A].
Qed.

Lemma buyer_address_loop_shape text : forall ps v,
  buyer_address_loop ps text = Some v -> 10 < length v /\ spaced v.
Proof.
  induction ps as [|p rest IH]; intros v; cbn [buyer_address_loop]; [discriminate|].
  destruct (search p text fIMS) as [m|] eqn:S; [|apply IH].
  rewrite space_squeeze. change (u " ") with [32%N].
  destruct (10 <? length (squeeze isspace [32%N] (strip (g m 1)))) eqn:L; [|apply IH].
  intros H. inversion H; subst v; clear H. apply Nat.ltb_lt in L. split; [exact L|].
  apply spaced_squeeze.
Qed.

(** X8. An address returned by [_extract_seller_address] or
    [_extract_buyer_address] is longer than 10 characters and holds no line
    break or tab: a blank in it is a space. *)
Theorem address_is_one_line text v :
  _extract_seller_address text = Some v \/ _extract_buyer_address text = Some v ->
  10 < length v /\ forall c, In c v -> isspace c = true -> c = 32%N.
Proof.
  intros [H|H].
  - unfold _extract_seller_address in H. apply seller_address_loop_shape in H. exact H.
  - unfold _extract_buyer_address in H. apply buyer_address_loop_shape in H. exact H.
Qed.

Lemma first_accepted_In self text f : forall ps v,
  first_accepted self text f ps = Some v ->
  exists p, In p ps /\ try_pattern self text f p = Some v.
Proof.
  induction ps as [|p rest IH]; intros v; cbn [first_accepted]; [discriminate|].
  destruct (try_pattern self text f p) as [w|] eqn:E.
  - intros H. inversion H; subst. exists p. split; [left; reflexivity|exact E].
  - intros H. destruct (IH v H) as [q [Hin T]]. exists q. split; [right; exact Hin|exact T].
Qed.

(** What a pattern yields for a field that is not a counterparty. *)
Lemma try_pattern_plain self text f p v :
  is_party f = false -> try_pattern self text f p = Some v ->
  exists m value,
    search p text fIM = Some m /\ capture m = Some value
    /\ v = (if is_total_amount f
            then replace (squeeze isspace [32%N] (strip value)) [32%N] []
            else squeeze isspace [32%N] (strip value)).
Proof.
  intros P. unfold try_pattern. rewrite P.
  destruct (search p text fIM) as [m|] eqn:S; [|discriminate].
  destruct (capture m) as [[|c value]|] eqn:C; try discriminate.
  destruct (is_invoice_number f && (10 <? length (strip (c :: value)))); [discriminate|].
  cbn [andb]. rewrite space_squeeze. change (u " ") with [32%N].
  set (w := if is_total_amount f then _ else _).
  destruct (rejected self f w text); [discriminate|].
  intros H. inversion H; subst v. exists m, (c :: value). auto.
Qed.

(** X9. The value [_extract_field] returns for a field other than the
    seller and the buyer holds no line break or tab and no two spaces side
    by side; the total amount holds no blank at all. *)
Theorem field_value_is_one_line self text f v :
  is_party f = false -> _extract_field self text f = Some v ->
  (forall c, In c v -> isspace c = true -> c = 32%N)
  /\ contains v (u "  ") = false
  /\ (f = total_amount -> forallb (fun c => negb (isspace c)) v = true).
Proof.
  intros P H. unfold _extract_field in H. apply first_accepted_In in H.
  destruct H as [p [_ T]]. apply (@try_pattern_plain self text f p v P) in T.
  destruct T as [m [value [_ [_ V]]]].
  change (u "  ") with [32%N; 32%N]. rewrite contains_pair.
  destruct (space_squeeze_blanks (strip value)) as [A B].
  destruct (is_total_amount f) eqn:T.
  - rewrite replace_char in V.
    assert (N : forall c, In c v -> isspace c = false).
    { intros c Hc. rewrite V in Hc. apply filter_In in Hc. destruct Hc as [Hc Ne].
      destruct (isspace c) eqn:E; [|reflexivity].
      rewrite (A c Hc E) in Ne. discriminate. }
    repeat split.
    + intros c Hc E. rewrite (N c Hc) in E. discriminate.
    + destruct (has_pair 32%N 32%N v) eqn:Hp; [|reflexivity].
      assert (Hin : In 32%N v).
      { clear -Hp. induction v as [|x t IH]; [discriminate|].
        destruct t as [|y w]; [discriminate|]. cbn [has_pair] in Hp.
        apply orb_true_iff in Hp. destruct Hp as [Hp|Hp].
        - apply andb_true_iff in Hp. destruct Hp as [Hx _]. apply N.eqb_eq in Hx.
          left. exact Hx.
        - right. apply IH. exact Hp. }
      apply N in Hin. discriminate.
    + intros _. apply forallb_forall. intros c Hc. rewrite (N c Hc). reflexivity.
  - subst v. repeat split; [exact A|exact B|].
    intros E. subst f. discriminate.
Qed.








(** What the loop over the patterns yields for a counterparty. *)
Lemma try_pattern_party self text f p v :
  is_party f = true -> try_pattern self text f p = Some v ->
  3 <= length v /\ strip v = v.
Proof.
  intros P. unfold try_pattern. rewrite P.
  destruct (search p text fIM) as [m|]; [|discriminate].
  destruct (capture m) as [[|c value]|]; try discriminate.
  destruct (is_invoice_number f && _); [discriminate|].
  destruct (true && _); [discriminate|].
  match goal with |- context [clean_party f text ?w] =>
    destruct (clean_party f text w) as [x|] eqn:E end; [|discriminate].
  destruct (rejected self f x text); [discriminate|].
  intros H. inversion H; subst x; clear H.
  unfold clean_party in E.
  match type of E with
  | (if (length (strip (strip ?w)) <? 3) || _ then _ else _) = _ =>
    set (value0 := w) in *
  end.
  destruct ((length (strip (strip value0)) <? 3) || _) eqn:B; [discriminate|].
  inversion E; subst v; clear E.
  apply orb_false_iff in B. destruct B as [B _]. apply Nat.ltb_ge in B.
  rewrite strip_again in B. split; [exact B|apply strip_again].
Qed.

(** X11. The name [_extract_field] returns for the seller or the buyer has
    at least 3 characters and no blank at either end. *)
Theorem party_name_is_trimmed self text f v :
  is_party f = true -> _extract_field self text f = Some v ->
  3 <= length v /\ strip v = v.
Proof.
  intros P H. unfold _extract_field in H. apply first_accepted_In in H.
  destruct H as [p [_ T]]. eapply try_pattern_party; eauto.
Qed.

Transparent search match_ finditer findall sub u.

Lemma seller_phone_witness :
  length (u "84951234567") = 11 /\ startswith (u "84951234567") (u "8") = true
  /\ forallb (fun c => negb (isspace c)) (u "84951234567") = true
  /\ Some (u "84950000000") <> Some (u "84951234567").
Proof.
  apply (@seller_phone_is_eleven_characters
           (u "Поставщик ООО Ромашка тел: 8495 123 4567") (Some (u "84950000000"))).
  vm_compute. reflexivity.
Defined.

Lemma address_witness :
  10 < length (u "123456 Москва ул Ленина 1")
  /\ forall c, In c (u "123456 Москва ул Ленина 1") -> isspace c = true -> c = 32%N.
Proof.
  apply (@address_is_one_line
           (u "Покупатель ООО Лютик адрес: 123456 Москва ул Ленина 1 ИНН 7701234567")).
  right. vm_compute. reflexivity.
Defined.

Lemma field_value_witness :
  (forall c, In c (u "123") -> isspace c = true -> c = 32%N)
  /\ contains (u "123") (u "  ") = false
  /\ (invoice_number = total_amount -> forallb (fun c => negb (isspace c)) (u "123") = true).
Proof.
  apply (@field_value_is_one_line default_extractor (u "Счет № 123 от 01.02.2024")).
  - reflexivity.
  - vm_compute. reflexivity.
Defined.


Lemma party_name_witness :
  3 <= length (u "ООО Ромашка") /\ strip (u "ООО Ромашка") = u "ООО Ромашка".
Proof.
  apply (@party_name_is_trimmed default_extractor
           (u "Поставщик: ООО Ромашка ИНН 7701234567") seller).
  - reflexivity.
  - vm_compute. reflexivity.
Defined.

End ValueFacts.

(** ** Numbers in words of the invoice *)

Module CleanFacts.

Import TextFacts Runs Extractor.

Lemma replace_fuel_map a b : forall s f,
  length s <= f ->
  replace_fuel f s [a] [b] = map (fun c => if (c =? a)%N then b else c) s.
Proof.
  induction s as [|c t IH]; intros f L.
  - destruct f; reflexivity.
  - destruct f as [|f]; [simpl in L; lia|]. cbn [replace_fuel startswith map].
    rewrite startswith_nil, andb_true_r, (N.eqb_sym a c).
    destruct (c =? a)%N; simpl; f_equal; apply IH; simpl in L; lia.
Qed.

(** [s.replace(a, b)] for characters [a] and [b]. *)
Lemma replace_map s a b :
  replace s [a] [b] = map (fun c => if (c =? a)%N then b else c) s.
Proof. unfold replace. apply replace_fuel_map. lia. Qed.

(** What [_clean_number] hands to [float]. *)
Lemma value_str_is value :
  replace (replace (replace value (u " ") []) dq []) (u ",") (u ".")
  = map (fun c => if (c =? 44)%N then 46%N else c)
        (filter (fun c => negb (c =? 34)%N) (filter (fun c => negb (c =? 32)%N) value)).
Proof.
  change (u " ") with [32%N]. change dq with [34%N].
  change (u ",") with [44%N]. change (u ".") with [46%N].
  rewrite !replace_char, replace_map. reflexivity.
Qed.

Lemma clean_number_is value :
  _clean_number value
  = match Float.float_of_str
            (replace (replace (replace value (u " ") []) dq []) (u ",") (u ".")) with
    | Some f => f
    | None => S754_zero false
    end.
Proof. destruct value; reflexivity. Qed.

Lemma count_app s t c : count_c (s ++ t) c = count_c s c + count_c t c.
Proof. unfold count_c. rewrite filter_app, length_app. reflexivity. Qed.

Lemma count_rev s c : count_c (rev s) c = count_c s c.
Proof.
  induction s as [|x t IH]; [reflexivity|]. simpl rev. rewrite count_app, IH.
  unfold count_c. simpl. destruct (x =? c)%N; simpl; lia.
Qed.

Lemma count_drop_run ok s c : ok c = false -> count_c (drop_run ok s) c = count_c s c.
Proof.
  intros E. induction s as [|x t IH]; [reflexivity|]. simpl.
  destruct (ok x) eqn:O; [|reflexivity]. rewrite IH. unfold count_c. simpl.
  destruct (N.eqb_spec x c); [congruence|reflexivity].
Qed.

Lemma count_strip s c : isspace c = false -> count_c (strip s) c = count_c s c.
Proof.
  intros E. unfold strip, rstrip. rewrite !lstrip_drop, count_rev.
  rewrite (@count_drop_run isspace (rev (drop_run isspace s)) c E), count_rev.
  apply count_drop_run. exact E.
Qed.

Lemma count_filter (p : char -> bool) s c :
  p c = true -> count_c (filter p s) c = count_c s c.
Proof.
  intros E. unfold count_c. induction s as [|x t IH]; [reflexivity|]. simpl.
  destruct (N.eqb_spec x c) as [->|Ne].
  - rewrite E. simpl. rewrite N.eqb_refl. simpl. rewrite IH. reflexivity.
  - destruct (p x); simpl; [|exact IH].
    destruct (N.eqb_spec x c); [contradiction|exact IH].
Qed.

Lemma count_comma_to_point s :
  count_c (map (fun c => if (c =? 44)%N then 46%N else c) s) 46%N
  = count_c s 44%N + count_c s 46%N.
Proof.
  unfold count_c. induction s as [|x t IH]; [reflexivity|]. simpl.
  destruct (N.eqb_spec x 44) as [->|N1]; simpl; [rewrite IH; reflexivity|].
  destruct (x =? 46)%N; simpl; rewrite IH; lia.
Qed.

Lemma lower_point c : (lower_c c =? 46)%N = (c =? 46)%N.
Proof.
  unfold lower_c, in_range.
  repeat match goal with
         | |- context [(?a <=? ?b)%N] => destruct (N.leb_spec a b)
         end; cbn [andb]; try reflexivity;
    destruct (N.eqb_spec c 46); destruct (N.eqb_spec (c + 32) 46);
    destruct (N.eqb_spec (c + 80) 46); try reflexivity; lia.
Qed.

Lemma count_lower_point s : count_c (lower s) 46%N = count_c s 46%N.
Proof.
  unfold count_c, lower. induction s as [|x t IH]; [reflexivity|]. simpl.
  rewrite lower_point. destruct (x =? 46)%N; simpl; rewrite IH; reflexivity.
Qed.

Lemma eqs_eq : forall a b, eqs a b = true -> a = b.
Proof.
  induction a as [|x a IH]; destruct b as [|y b]; simpl; try discriminate; [reflexivity|].
  intros H. apply andb_true_iff in H. destruct H as [H1 H2].
  apply N.eqb_eq in H1. subst. f_equal. auto.
Qed.

Lemma digit_not_point c : isdigit_c c = true -> (c =? 46)%N = false.
Proof.
  unfold isdigit_c, in_range. intros H. apply andb_true_iff in H. destruct H as [A _].
  apply N.leb_le in A. apply N.eqb_neq. lia.
Qed.

(** The digits read hold no point. *)
Lemma read_digits_points : forall s acc cnt a n r,
  Float.read_digits s acc cnt = (a, n, r) -> count_c r 46%N = count_c s 46%N.
Proof.
  induction s as [|c t IH]; intros acc cnt a n r H; simpl in H.
  - inversion H; reflexivity.
  - destruct (isdigit_c c) eqn:D.
    + apply IH in H. rewrite H. unfold count_c. simpl.
      rewrite (digit_not_point c D). reflexivity.
    + destruct ((c =? 95)%N && (0 <? cnt) && _) eqn:U.
      * apply IH in H. rewrite H. unfold count_c. simpl.
        apply andb_true_iff in U. destruct U as [U _].
        apply andb_true_iff in U. destruct U as [U _]. apply N.eqb_eq in U. subst c.
        reflexivity.
      * inversion H; reflexivity.
Qed.

Lemma read_sign_points s neg r :
  Float.read_sign s = (neg, r) -> count_c r 46%N = count_c s 46%N.
Proof.
  unfold Float.read_sign. destruct s as [|c t]; [intros H; inversion H; reflexivity|].
  destruct (N.eqb_spec c 45) as [->|N1]; [intros H; inversion H; reflexivity|].
  destruct (N.eqb_spec c 43) as [->|N2]; intros H; inversion H; reflexivity.
Qed.

(** [float] refuses a string with two points. *)
Lemma float_of_two_points s :
  2 <= count_c s 46%N -> Float.float_of_str s = None.
Proof.
  intros H. unfold Float.float_of_str.
  rewrite <- (@count_strip s 46%N eq_refl) in H.
  destruct (Float.read_sign (strip s)) as [neg s1] eqn:Sg.
  apply read_sign_points in Sg. rewrite <- Sg in H. clear Sg.
  pose proof (count_lower_point s1) as L.
  destruct (eqs (lower s1) (u "inf") || eqs (lower s1) (u "infinity")) eqn:I1.
  { apply orb_true_iff in I1. destruct I1 as [I1|I1]; apply eqs_eq in I1;
      rewrite I1 in L; [change (count_c (u "inf") 46%N) with 0 in L
                       |change (count_c (u "infinity") 46%N) with 0 in L]; lia. }
  destruct (eqs (lower s1) (u "nan")) eqn:I2.
  { apply eqs_eq in I2. rewrite I2 in L. change (count_c (u "nan") 46%N) with 0 in L. lia. }
  clear L I1 I2.
  destruct (Float.read_digits s1 0 0) as [[ip ni] s2] eqn:R1.
  apply read_digits_points in R1. rewrite <- R1 in H. clear R1.
  assert (T : forall m nf s3,
             1 <= count_c s3 46%N ->
             (if (ni + nf =? 0)%nat then None
              else match s3 with
                   | [] => Some (Float.of_decimal neg m (- Z.of_nat nf))
                   | c :: t =>
                     if (c =? 101)%N || (c =? 69)%N then
                       let (eneg, t1) := Float.read_sign t in
                       let '(ev, ne, s4) := Float.read_digits t1 0 0 in
                       match ne, s4 with
                       | S _, [] =>
                         Some (Float.of_decimal neg m
                                 ((if eneg then (- ev)%Z else ev) - Z.of_nat nf))
                       | _, _ => None
                       end
                     else None
                   end) = None).
  { intros m nf s3 C. destruct (ni + nf =? 0)%nat; [reflexivity|].
    destruct s3 as [|c t]; [vm_compute in C; lia|].
    destruct ((c =? 101)%N || (c =? 69)%N) eqn:E; [|reflexivity].
    assert (Ct : 1 <= count_c t 46%N).
    { unfold count_c in *. simpl in C. destruct (N.eqb_spec c 46) as [->|]; [discriminate|exact C]. }
    destruct (Float.read_sign t) as [eneg t1] eqn:Sg. apply read_sign_points in Sg.
    destruct (Float.read_digits t1 0 0) as [[ev ne] s4] eqn:R2.
    apply read_digits_points in R2.
    destruct ne; [reflexivity|]. destruct s4; [|reflexivity].
    rewrite <- Sg, <- R2 in Ct. vm_compute in Ct. lia. }
  destruct s2 as [|c t]; [vm_compute in H; lia|].
  destruct (N.eqb_spec c 46) as [->|Ne].
  - destruct (Float.read_digits t ip 0) as [[m nf] s3] eqn:R3.
    apply read_digits_points in R3. apply (T m nf s3). rewrite R3.
    unfold count_c in *. simpl in H. lia.
  - apply (T ip 0 (c :: t)). lia.
Qed.

(** X12. [_clean_number] reads the text without its spaces and double
    quotes, and a comma as a decimal point. *)
Theorem clean_number_ignores_spaces_and_quotes a b :
  _clean_number (a ++ u " " ++ b) = _clean_number (a ++ b)
  /\ _clean_number (a ++ dq ++ b) = _clean_number (a ++ b)
  /\ _clean_number (a ++ u "," ++ b) = _clean_number (a ++ u "." ++ b).
Proof.
  rewrite !clean_number_is, !value_str_is.
  change (u " ") with [32%N]. change dq with [34%N].
  change (u ",") with [44%N]. change (u ".") with [46%N].
  rewrite !filter_app, !map_app. repeat split.
Qed.

(** X13. A text with two decimal separators or more, commas or points, is
    read by [_clean_number] as 0.0. *)
Theorem clean_number_two_separators value :
  2 <= count_c value 44%N + count_c value 46%N ->
  _clean_number value = S754_zero false.
Proof.
  intros H. rewrite clean_number_is, value_str_is.
  rewrite float_of_two_points; [reflexivity|].
  rewrite count_comma_to_point.
  rewrite !(@count_filter (fun c => negb (c =? 34)%N)) by reflexivity.
  rewrite !(@count_filter (fun c => negb (c =? 32)%N)) by reflexivity.
  exact H.
Qed.

Lemma two_separators_witness : _clean_number (u "1.234,56") = S754_zero false.
Proof. apply (@clean_number_two_separators (u "1.234,56")). vm_compute. lia. Defined.

End CleanFacts.

(** ** The telephone of the buyer and the table of goods *)

Module TableFacts.

Import ReSem ReSpan ReFacts SpanFacts FormatFacts NumberFacts Runs RunFacts SqueezeFacts.
Import TextFacts Values ValueFacts Notions Extractor.




Opaque search match_ finditer findall sub u.






Transparent search match_ finditer findall sub u.



End TableFacts.

(** ** Validation without a trained model *)

Module MlFacts.

Import ReSem ReSpan ReFacts SpanFacts FormatFacts NumberFacts Runs RunFacts SqueezeFacts.
Import TextFacts Values ValueFacts Extractor MlModel.



Lemma conf_invalid_low : Float.ltb conf_invalid Float.half = true.
Proof. vm_compute. reflexivity. Qed.

Lemma conf_valid_high : Float.ltb conf_valid Float.half = false.
Proof. vm_compute. reflexivity. Qed.

Lemma conf_zero_low : Float.ltb (S754_zero false) Float.half = true.
Proof. vm_compute. reflexivity. Qed.






Opaque search match_ finditer findall sub u.




Transparent search match_ finditer findall sub u.



End MlFacts.

(** ** Passes over the pages, and what is stored *)

Module UploadFacts.

Import Pdf Main Upload RecordFacts Extractor.

Lemma pages_loop_raised doc : forall pages n st,
  In Raised pages -> fst (pages_loop doc pages n st) = Raised.
Proof.
  induction pages as [|page rest IH]; intros n st H; [destruct H|].
  destruct page as [text|]; [|reflexivity].
  destruct H as [H|H]; [discriminate|]. cbn [pages_loop].
  destruct (native_ok text); [apply IH; exact H|].
  destruct (_extract_text_with_ocr_from_page doc n); apply IH; exact H.
Qed.

Lemma native_pass_raised doc pages :
  In Raised pages -> fst (native_pass doc (Ok pages)) = None.
Proof.
  intros H. unfold native_pass.
  pose proof (@pages_loop_raised doc pages 1
                {| full_text := []; total_text_length := 0; events := [] |} H) as R.
  destruct (pages_loop doc pages 1 _) as [[st|] evs]; [discriminate|reflexivity].
Qed.

(** X18. When [extract_text] of one page raises under pdfplumber, the
    pages that pass had kept are dropped with it: [extract_text] returns
    what the PyPDF2 pass returns, or else what OCR of the whole document
    gives. *)
Theorem failed_page_discards_the_pass doc pages :
  pdfplumber_pages doc = Ok pages -> In Raised pages ->
  extract_text doc
  = match fst (native_pass doc (pypdf2_pages doc)) with
    | Some result => result
    | None => _extract_text_with_ocr_full doc
    end.
Proof.
  intros P H. unfold extract_text, extract_text_log. rewrite P.
  pose proof (@native_pass_raised doc pages H) as R.
  destruct (native_pass doc (Ok pages)) as [[r|] evs1]; [discriminate|].
  destruct (native_pass doc (pypdf2_pages doc)) as [[r|] evs2]; reflexivity.
Qed.

Lemma full_loop_raised img : forall images n acc,
  In img images -> preprocess img = Raised -> full_loop images n acc = Raised.
Proof.
  induction images as [|x rest IH]; intros n acc H E; [destruct H|].
  cbn [full_loop]. destruct H as [->|H]; [rewrite E; reflexivity|].
  destruct (preprocess x); [|reflexivity].
  destruct (fst (recognize x)); apply IH; assumption.
Qed.

(** X19. When one page of the document cannot be prepared for
    recognition, [_extract_text_with_ocr_full] returns the empty string:
    the text recognized on the pages before it is lost. *)
Theorem unprepared_page_blanks_full_ocr doc images img :
  convert_all doc = Ok images -> In img images -> preprocess img = Raised ->
  _extract_text_with_ocr_full doc = [].
Proof.
  intros C H E. unfold _extract_text_with_ocr_full. rewrite C.
  rewrite (@full_loop_raised img images 1 [] H E). reflexivity.
Qed.

Lemma long_not_short t : (50 <? length (strip t)) = true -> too_short t = false.
Proof.
  intros H. apply Nat.ltb_lt in H. unfold too_short.
  destruct t; [simpl in H; lia|]. apply Nat.ltb_ge. lia.
Qed.

(** X20. On one image Tesseract is called once at least and four times at
    most, in a fixed order: segmentation modes 6, 11 and 12 on the prepared
    bitmap, then mode 6 on the original one; the calls made are a prefix of
    that list. *)
Theorem recognize_calls_in_order img :
  exists n, 1 <= n <= 4 /\ snd (recognize img) = firstn n ocr_ladder.
Proof.
  unfold recognize. cbn [psm_loop app].
  repeat match goal with
         | |- context [image_to_string img Preprocessed ?m] =>
           destruct (image_to_string img Preprocessed m)
         | |- context [50 <? length (strip ?t)] =>
           let E := fresh "E" in
           destruct (50 <? length (strip t)) eqn:E;
           [rewrite (@long_not_short t E)|]
         end;
    try (exists 1; split; [lia|reflexivity]);
    try (exists 2; split; [lia|reflexivity]);
    try (exists 3; split; [lia|reflexivity]);
    match goal with
    | |- context [too_short ?t] => destruct (too_short t)
    end;
    try (exists 3; split; [lia|reflexivity]);
    destruct (image_to_string img Original 6);
    exists 4; split; try lia; reflexivity.
Qed.

(** The record has no member but its eight sections. *)
Lemma record_sections self text k v :
  dict_get (extract_invoice_data self text) k = Some v ->
  In k ["invoice"; "supplier"; "customer"; "line_items"; "financial_summary";
        "signatories"; "terms_and_conditions"; "additional_info"]%string.
Proof.
  unfold extract_invoice_data. cbv zeta. unfold _clean_result.
  cbn [filter snd].
  repeat match goal with
         | |- context [negb (is_blank ?x)] => destruct (negb (is_blank x))
         end;
    cbn [dict_get];
    repeat match goal with
           | |- context [String.eqb ?a k] =>
             destruct (String.eqb_spec a k) as [<-|?]; [intros _; simpl; tauto|]
           end;
    discriminate.
Qed.

Lemma record_lacks self text k :
  ~ In k ["invoice"; "supplier"; "customer"; "line_items"; "financial_summary";
          "signatories"; "terms_and_conditions"; "additional_info"]%string ->
  dict_get (extract_invoice_data self text) k = None.
Proof.
  intros N. destruct (dict_get (extract_invoice_data self text) k) as [v|] eqn:E;
    [|reflexivity].
  apply record_sections in E. contradiction.
Qed.

Ltac not_a_section :=
  intros H; simpl in H;
  repeat (destruct H as [H|H]; [discriminate|]); exact H.

(** X21. The [Invoice] that [process_invoice] hands to the database never
    carries an invoice number, a date, a seller, a buyer or a total amount,
    and its currency is always RUB: the record of [extract_invoice_data]
    has its eight sections for members and no other key. *)
Theorem stored_invoice_has_no_summary req answer row :
  process_invoice req = (answer, Some row) ->
  row_invoice_number row = None /\ row_date row = None
  /\ row_seller row = None /\ row_buyer row = None
  /\ row_total_amount row = None /\ row_currency row = VStr (u "RUB")
  /\ row_extracted_data row
     = extract_invoice_data default_extractor (extract_text (document req)).
Proof.
  unfold process_invoice.
  destruct (negb (endswith (pdf_filename req) (u ".pdf"))); [discriminate|].
  destruct (extract_text (document req)) as [|c t] eqn:T; [discriminate|].
  cbv zeta. destruct (pdf_user_id req) as [uid|]; [|discriminate].
  destruct (uid =? 0)%Z; [discriminate|].
  assert (R : new_invoice uid (pdf_filename req)
                (extract_invoice_data default_extractor (c :: t)) = row ->
              row_invoice_number row = None /\ row_date row = None
              /\ row_seller row = None /\ row_buyer row = None
              /\ row_total_amount row = None /\ row_currency row = VStr (u "RUB")
              /\ row_extracted_data row
                 = extract_invoice_data default_extractor (c :: t)).
  { intros <-. unfold new_invoice.
    cbn [row_invoice_number row_date row_seller row_buyer row_total_amount
         row_currency row_extracted_data].
    rewrite !record_lacks by not_a_section. repeat split. }
  destruct (pdf_db_commit req); intros H; inversion H; subst; apply R; reflexivity.
Qed.

Lemma torn_doc_witness :
  extract_text torn_doc
  = match fst (native_pass torn_doc (pypdf2_pages torn_doc)) with
    | Some result => result
    | None => _extract_text_with_ocr_full torn_doc
    end.
Proof.
  apply (@failed_page_discards_the_pass torn_doc [Ok (Some (Inputs.chars 120)); Raised]).
  - reflexivity.
  - right. left. reflexivity.
Defined.

Lemma half_scan_witness : _extract_text_with_ocr_full half_scan = [].
Proof.
  apply (@unprepared_page_blanks_full_ocr half_scan
           [Inputs.flat_bitmap 60; broken_bitmap] broken_bitmap).
  - reflexivity.
  - right. left. reflexivity.
  - reflexivity.
Defined.

Lemma stored_upload_witness :
  row_invoice_number (new_invoice 7 (u "invoice.pdf")
    (extract_invoice_data default_extractor (extract_text (document stored_upload)))) = None
  /\ row_date (new_invoice 7 (u "invoice.pdf")
    (extract_invoice_data default_extractor (extract_text (document stored_upload)))) = None
  /\ row_seller (new_invoice 7 (u "invoice.pdf")
    (extract_invoice_data default_extractor (extract_text (document stored_upload)))) = None
  /\ row_buyer (new_invoice 7 (u "invoice.pdf")
    (extract_invoice_data default_extractor (extract_text (document stored_upload)))) = None
  /\ row_total_amount (new_invoice 7 (u "invoice.pdf")
    (extract_invoice_data default_extractor (extract_text (document stored_upload)))) = None
  /\ row_currency (new_invoice 7 (u "invoice.pdf")
    (extract_invoice_data default_extractor (extract_text (document stored_upload))))
     = VStr (u "RUB")
  /\ row_extracted_data (new_invoice 7 (u "invoice.pdf")
    (extract_invoice_data default_extractor (extract_text (document stored_upload))))
     = extract_invoice_data default_extractor (extract_text (document stored_upload)).
Proof.
  apply (@stored_invoice_has_no_summary stored_upload
           (Json 200 true
              (dict_set (extract_invoice_data default_extractor
                           (extract_text (document stored_upload)))
                        "invoice_id" (VInt 1)))).
  vm_compute. reflexivity.
Defined.

End UploadFacts.

(** ** The members of the record *)

Module SectionFacts.

Import ReSem ReSpan NumberFacts RecordFacts UploadFacts Extractor.

Lemma summary_currency self text :
  exists d s,
    _build_financial_summary self text = VDict d
    /\ is_blank (VDict d) = false
    /\ dict_get d "currency" = Some (VStr s) /\ 1 <= length s <= 3.
Proof.
  unfold _build_financial_summary. cbv zeta.
  match goal with
  | |- context [dict_set ?d "currency" (VStr (u "RUB"))] => generalize d
  end.
  intros d0.
  pose proof (@currency_loop_length text currency_patterns currency_patterns_bounded) as L.
  fold (_extract_currency text) in L.
  destruct (_extract_currency text) as [|c t] eqn:C; [simpl in L; lia|].
  exists (dict_set d0 "currency" (VStr (upper (c :: t)))), (upper (c :: t)).
  pose proof (dict_set_not_empty d0 "currency" (VStr (upper (c :: t)))) as N.
  repeat split.
  - apply dict_or_none_dict. exact N.
  - destruct (dict_set d0 "currency" (VStr (upper (c :: t)))); [discriminate|reflexivity].
  - rewrite dict_get_set, String.eqb_refl. reflexivity.
  - rewrite upper_length. lia.
  - rewrite upper_length. lia.
Qed.

(** X22. The record [extract_invoice_data] returns has no member but its
    eight sections, and [financial_summary] is always among them: it holds
    a [currency] of one to three characters, whatever the text. *)
Theorem record_always_has_a_currency self text :
  (forall k v, dict_get (extract_invoice_data self text) k = Some v ->
     In k ["invoice"; "supplier"; "customer"; "line_items"; "financial_summary";
           "signatories"; "terms_and_conditions"; "additional_info"]%string)
  /\ exists d s,
       dict_get (extract_invoice_data self text) "financial_summary" = Some (VDict d)
       /\ dict_get d "currency" = Some (VStr s) /\ 1 <= length s <= 3.
Proof.
  split; [intros k v; apply record_sections|].
  destruct (summary_currency self (_preprocess_text text)) as [d [s [E [B [G L]]]]].
  exists d, s. split; [|split; assumption].
  unfold extract_invoice_data. cbv zeta.
  rewrite !dict_get_clean_skip by reflexivity.
  rewrite E. apply dict_get_clean_hit. exact B.
Qed.

End SectionFacts.
